(** * JARVIS control plane (src/main.js): audit chain, permission gate,
      autopilot dead-man switch and task runner.

    The Electron main process is embedded as functions over an explicit
    [World]: the three JSON files it persists, the module-level autopilot
    variables, the [runner] object, and the trace of everything it shows or
    sends.  Modelling conventions:

    - every synchronous stretch of a handler runs to completion on the
      single event-loop thread, so it is one function [World -> World];
    - [permRequest] is split at its [await]: [permRequest_begin] runs up to
      the message box and [permRequest_resume] from its answer on.  A
      [Session] keeps the calls that wait at their message box, and [turn]
      lets boxes stay open across callbacks and be answered in any order.
      The events of [step] that carry the answer ([TrayArm], [IpcArm],
      [IpcPermRequest]) are the schedule in which the box is answered before
      any other callback runs;
    - [Date.now()] is the argument [now] of a handler (the clock does not
      advance inside one synchronous stretch);
    - the file system is a reliable store: the reads and writes that the
      source wraps in [try]/[catch] succeed;
    - a JS string is a [string] holding its UTF-8 bytes (positions count
      bytes, which are the UTF-16 units of ASCII text), JS integers are [Z];
    - the parsed [permissions] object is a [gmap] from its own keys to its
      string values; an assignment to the key ["__proto__"] stores only when
      the object already has an own property of that name
      ([set_permission]); an object whose key order is observable is an
      association list. *)

From Stdlib Require Import ZArith String Ascii List Bool Lia DecimalString.
From stdpp Require Import gmap strings list.
Import ListNotations.
Set Warnings "-register-all".
Local Open Scope Z_scope.
Local Open Scope string_scope.

(** ** JavaScript primitives used by the program *)

Module Js.

(** A JS string is held as the bytes of its UTF-8 encoding.
    [String.prototype.trim] removes WhiteSpace and LineTerminator code
    points: U+0009 to U+000D, U+0020, U+00A0, U+1680, U+2000 to U+200A,
    U+2028, U+2029, U+202F, U+205F, U+3000 and U+FEFF.  They are encoded on
    one, two or three bytes. *)
Definition byte_is (n : nat) (a : ascii) : bool := (nat_of_ascii a =? n)%nat.

Definition is_ws (a : ascii) : bool :=
  let n := nat_of_ascii a in
  ((9 <=? n)%nat && (n <=? 13)%nat) || (n =? 32)%nat.

(** U+00A0 is C2 A0. *)
Definition is_ws2 (a b : ascii) : bool := byte_is 194 a && byte_is 160 b.

(** U+1680 is E1 9A 80; U+2000 to U+200A are E2 80 80 to E2 80 8A; U+2028,
    U+2029 and U+202F are E2 80 A8, A9 and AF; U+205F is E2 81 9F; U+3000 is
    E3 80 80; U+FEFF is EF BB BF. *)
Definition is_ws3 (a b c : ascii) : bool :=
  let n := nat_of_ascii c in
  (byte_is 225 a && byte_is 154 b && byte_is 128 c)
  || (byte_is 226 a && byte_is 128 b
      && (((128 <=? n)%nat && (n <=? 138)%nat)
          || (n =? 168)%nat || (n =? 169)%nat || (n =? 175)%nat))
  || (byte_is 226 a && byte_is 129 b && byte_is 159 c)
  || (byte_is 227 a && byte_is 128 b && byte_is 128 c)
  || (byte_is 239 a && byte_is 187 b && byte_is 191 c).

Fixpoint trimStart (s : string) : string :=
  match s with
  | EmptyString => EmptyString
  | String a r =>
      if is_ws a then trimStart r
      else
        match r with
        | EmptyString => s
        | String b r2 =>
            if is_ws2 a b then trimStart r2
            else
              match r2 with
              | EmptyString => s
              | String c r3 => if is_ws3 a b c then trimStart r3 else s
              end
        end
  end.

(** Nothing but white space is left of [s] exactly when [trimStart s] is
    empty; a white-space code point starts with a byte that is no
    continuation byte, so a white-space suffix starts at a code point. *)
Fixpoint trimEnd (s : string) : string :=
  match s with
  | EmptyString => EmptyString
  | String a r =>
      match trimStart s with
      | EmptyString => EmptyString
      | _ => String a (trimEnd r)
      end
  end.

Definition trim (s : string) : string := trimEnd (trimStart s).

(** Truthiness of a string: only [""] is falsy. *)
Definition truthy (s : string) : bool :=
  match s with EmptyString => false | _ => true end.

(** [s || d] on strings. *)
Definition or_else (s d : string) : string := if truthy s then s else d.

(** [String(n)] and [`${n}`] for an integer. *)
Definition string_of_Z (z : Z) : string := NilZero.string_of_int (Z.to_int z).

Definition string_of_bool (b : bool) : string := if b then "true" else "false".

(** ["\n"] *)
Definition nl : string := String (ascii_of_nat 10) EmptyString.

(** [arr.join(sep)] *)
Fixpoint join (sep : string) (l : list string) : string :=
  match l with
  | [] => ""
  | [x] => x
  | x :: rest => x ++ sep ++ join sep rest
  end.

(** [arr.slice(-n)] *)
Definition slice_last {A} (n : nat) (l : list A) : list A :=
  skipn (length l - n) l.

(** [s.slice(0, n)] *)
Definition slice_to (n : nat) (s : string) : string := substring 0 n s.

End Js.

(** JSON-like values handed to the audit log.  An object keeps its keys in
    insertion order, which [JSON.stringify] makes observable. *)
Inductive json : Type :=
| JNull
| JBool (b : bool)
| JNum (z : Z)
| JStr (s : string)
| JArr (items : list json)
| JObj (fields : list (string * json)).

(** [obj[k]] on an object literal. *)
Fixpoint field (k : string) (fields : list (string * json)) : option json :=
  match fields with
  | [] => None
  | (k', v) :: rest => if String.eqb k k' then Some v else field k rest
  end.

(** ** Audit log (hash-chained) *)

Record AuditRecord := mkAudit {
  ts : Z;
  type : string;
  data : json;
  prev_hash : string;
  hash : string
}.

(** The persisted files: [jarvis_cfg.json] (only its [permissions] object is
    read by this program), [audit.jsonl] (one record per line, oldest first)
    and [audit_state.json] ([None] when the file is absent or unreadable). *)
Record Disk := mkDisk {
  cfg_permissions : gmap string string;
  audit_log : list AuditRecord;
  audit_state : option string
}.

(** ** Autopilot (dead-man switch) variables *)

Record Point := mkPoint { px : Z; py : Z }.

Record Autopilot := mkAutopilot {
  autopilotArmed : bool;
  manualOverride : bool;
  autopilotArmedAt : Z;
  cursorTimer : bool;               (* an interval timer is installed *)
  lastCursor : option Point;        (* [null] is [None] *)
  ignoreMouseUntil : Z;
  registeredHotkey : string
}.

Definition MOUSE_DIST : Z := 46.
Definition POLL_MS : Z := 90.
Definition ARM_GRACE_MS : Z := 1500.

(** ** The [runner] object *)

Record Step := mkStep {
  step_ts : Z;
  title : string;
  status : string;
  proof : string
}.

Record Runner := mkRunner {
  running : bool;
  paused : bool;
  stopRequested : bool;
  taskText : string;
  steps : list Step;
  error : string;
  nextAction : string;
  lastReport : string;
  proofJsonPath : string
}.

(** What [runner.start], [pause], [resume] and [stop] return:
    [{ ok: true }] or [{ ok: false, error }]. *)
Inductive Reply :=
| Ok
| Err (error : string).

(** What [runTask] hands back: a result object (or nothing), or an exception
    with its [message]. *)
Record TaskResult := mkTaskResult {
  res_ok : bool;
  res_error : string;
  res_answer : string;
  res_proofJsonPath : string
}.

Inductive Outcome :=
| Resolved (res : option TaskResult)
| Threw (message : string).

(** ** Everything the process shows or sends *)

Record StateSnapshot := mkSnapshot {
  s_running : bool;
  s_paused : bool;
  s_taskText : string;
  s_stepsCount : nat;
  s_proofJsonPath : string;
  s_autopilotArmed : bool;
  s_hotkey : string;
  s_manualOverride : bool
}.

Inductive Payload :=
| LogLine (ts : Z) (line : string)                       (* jarvis:log *)
| StepMsg (s : Step)                                     (* jarvis:step *)
| StateMsg (s : StateSnapshot)                           (* jarvis:state *)
| ReportMsg (ts : Z) (report : string)                   (* jarvis:report *)
| AnswerMsg (ts : Z) (task answer proofPath : string).   (* jarvis:answer *)

Inductive Output :=
| Send (p : Payload)                       (* win.webContents.send *)
| StopReportDialog (report : string)       (* JARVIS - STOP REPORT *)
| StopNotification                         (* JARVIS - STOP *)
| PermissionDialog (key why : string)      (* JARVIS - Permission Required *)
| DiagnosticsDialog.                       (* JARVIS - Diagnostics *)

(** What [permRequest] returns. *)
Record PermReply := mkPermReply {
  perm_ok : bool;
  decision : string;
  cached : bool;
  once : bool
}.

(** ** The whole process state *)

Record World := mkWorld {
  disk : Disk;
  ap : Autopilot;
  runner : Runner;
  win : bool;            (* the window exists *)
  inflight : nat;        (* [runTask] calls not yet settled *)
  out : list Output      (* oldest first *)
}.

Definition on_disk (f : Disk -> Disk) (w : World) : World :=
  mkWorld (f (disk w)) (ap w) (runner w) (win w) (inflight w) (out w).
Definition on_ap (f : Autopilot -> Autopilot) (w : World) : World :=
  mkWorld (disk w) (f (ap w)) (runner w) (win w) (inflight w) (out w).
Definition on_runner (f : Runner -> Runner) (w : World) : World :=
  mkWorld (disk w) (ap w) (f (runner w)) (win w) (inflight w) (out w).
Definition set_win (b : bool) (w : World) : World :=
  mkWorld (disk w) (ap w) (runner w) b (inflight w) (out w).
Definition set_inflight (n : nat) (w : World) : World :=
  mkWorld (disk w) (ap w) (runner w) (win w) n (out w).
Definition push (o : Output) (w : World) : World :=
  mkWorld (disk w) (ap w) (runner w) (win w) (inflight w) (out w ++ [o]).

Definition set_autopilotArmed (v : bool) (a : Autopilot) : Autopilot :=
  mkAutopilot v (manualOverride a) (autopilotArmedAt a) (cursorTimer a)
    (lastCursor a) (ignoreMouseUntil a) (registeredHotkey a).
Definition set_manualOverride (v : bool) (a : Autopilot) : Autopilot :=
  mkAutopilot (autopilotArmed a) v (autopilotArmedAt a) (cursorTimer a)
    (lastCursor a) (ignoreMouseUntil a) (registeredHotkey a).
Definition set_autopilotArmedAt (v : Z) (a : Autopilot) : Autopilot :=
  mkAutopilot (autopilotArmed a) (manualOverride a) v (cursorTimer a)
    (lastCursor a) (ignoreMouseUntil a) (registeredHotkey a).
Definition set_cursorTimer (v : bool) (a : Autopilot) : Autopilot :=
  mkAutopilot (autopilotArmed a) (manualOverride a) (autopilotArmedAt a) v
    (lastCursor a) (ignoreMouseUntil a) (registeredHotkey a).
Definition set_lastCursor (v : option Point) (a : Autopilot) : Autopilot :=
  mkAutopilot (autopilotArmed a) (manualOverride a) (autopilotArmedAt a)
    (cursorTimer a) v (ignoreMouseUntil a) (registeredHotkey a).
Definition set_ignoreMouseUntil (v : Z) (a : Autopilot) : Autopilot :=
  mkAutopilot (autopilotArmed a) (manualOverride a) (autopilotArmedAt a)
    (cursorTimer a) (lastCursor a) v (registeredHotkey a).
Definition set_registeredHotkey (v : string) (a : Autopilot) : Autopilot :=
  mkAutopilot (autopilotArmed a) (manualOverride a) (autopilotArmedAt a)
    (cursorTimer a) (lastCursor a) (ignoreMouseUntil a) v.

Definition set_running (v : bool) (r : Runner) : Runner :=
  mkRunner v (paused r) (stopRequested r) (taskText r) (steps r) (error r)
    (nextAction r) (lastReport r) (proofJsonPath r).
Definition set_paused (v : bool) (r : Runner) : Runner :=
  mkRunner (running r) v (stopRequested r) (taskText r) (steps r) (error r)
    (nextAction r) (lastReport r) (proofJsonPath r).
Definition set_stopRequested (v : bool) (r : Runner) : Runner :=
  mkRunner (running r) (paused r) v (taskText r) (steps r) (error r)
    (nextAction r) (lastReport r) (proofJsonPath r).
Definition set_taskText (v : string) (r : Runner) : Runner :=
  mkRunner (running r) (paused r) (stopRequested r) v (steps r) (error r)
    (nextAction r) (lastReport r) (proofJsonPath r).
Definition set_steps (v : list Step) (r : Runner) : Runner :=
  mkRunner (running r) (paused r) (stopRequested r) (taskText r) v (error r)
    (nextAction r) (lastReport r) (proofJsonPath r).
Definition set_error (v : string) (r : Runner) : Runner :=
  mkRunner (running r) (paused r) (stopRequested r) (taskText r) (steps r) v
    (nextAction r) (lastReport r) (proofJsonPath r).
Definition set_nextAction (v : string) (r : Runner) : Runner :=
  mkRunner (running r) (paused r) (stopRequested r) (taskText r) (steps r)
    (error r) v (lastReport r) (proofJsonPath r).
Definition set_lastReport (v : string) (r : Runner) : Runner :=
  mkRunner (running r) (paused r) (stopRequested r) (taskText r) (steps r)
    (error r) (nextAction r) v (proofJsonPath r).
Definition set_proofJsonPath (v : string) (r : Runner) : Runner :=
  mkRunner (running r) (paused r) (stopRequested r) (taskText r) (steps r)
    (error r) (nextAction r) (lastReport r) v.

(** The module-level initial values. *)
Definition initial_autopilot : Autopilot :=
  mkAutopilot false false 0 false None 0 "".
Definition initial_runner : Runner :=
  mkRunner false false false "" [] "" "" "" "".
Definition initial_world (d : Disk) : World :=
  mkWorld d initial_autopilot initial_runner false 0%nat [].

(** What a handler can read from the platform while it runs: the clock, the
    pointer position, whether [globalShortcut.register] grants an
    accelerator, and whether [safeStorage] can encrypt. *)
Record Env := mkEnv {
  now : Z;                       (* Date.now() *)
  cursor : Point;                (* screen.getCursorScreenPoint() *)
  shortcut_free : string -> bool;  (* globalShortcut.register(accel, _) *)
  can_encrypt : bool             (* canEncryptApiKey() *)
}.

(** The callbacks the event loop can run. *)
Inductive Event :=
| AppReady                                     (* app.whenReady() *)
| TrayArm (resp : option Z)                    (* ARM AUTOPILOT (OS CONTROL) *)
| TrayDisarm                                   (* DISARM AUTOPILOT *)
| TrayDiagnostics
| TrayPause
| TrayStop
| IpcSetApiKey (apiKey : string)
| IpcStart (task apiKey : string)
| IpcPause
| IpcResume
| IpcStop (reason : string)
| IpcState
| IpcArm (why : string) (resp : option Z)      (* jarvis:autopilot:arm *)
| IpcDisarm (why : string)                     (* jarvis:autopilot:disarm *)
| IpcInjected (ms : Z)                         (* jarvis:autopilot:injected *)
| IpcPermRequest (className why : string) (resp : option Z)
| HotkeyPressed                                (* the registered accelerator *)
| CursorPoll                                   (* the setInterval callback *)
| TaskLog (line : string)                      (* runTask's onLog *)
| TaskStep (title status proof : string)       (* runTask's onStep *)
| TaskSettled (o : Outcome).                   (* runTask resolves or rejects *)

(** ** Calls of [permRequest] suspended at their message box *)

(** What a call of [permRequest] holds while its message box is open: the
    configuration it loaded before the [await] and the key it computed. *)
Record Prompt := mkPrompt {
  p_cfg : gmap string string;
  p_key : string
}.

(** [permRequest] up to its [await]: answered from the persisted decisions,
    or suspended. *)
Inductive Asked :=
| Cached (r : PermReply)
| Waiting (p : Prompt).

(** The handler that awaits the call. *)
Inductive Caller :=
| ByTray                                       (* ARM AUTOPILOT (OS CONTROL) *)
| ByIpcArm (why : string)                      (* jarvis:autopilot:arm *)
| ByIpcPerm.                                   (* jarvis:perm:request *)

(** The process with the message boxes that are still open, oldest first. *)
Record Session := mkSession {
  world : World;
  waiting : list (Prompt * Caller)
}.

(** A turn of the event loop when message boxes may stay open across
    turns. *)
Inductive Turn :=
| Callback (ev : Event)          (* a callback; a message box it opens is answered at once *)
| TrayArmClick                   (* the tray handler, up to the answer *)
| IpcArmCall (why : string)      (* jarvis:autopilot:arm, up to the answer *)
| IpcPermCall (className why : string)   (* jarvis:perm:request, up to the answer *)
| BoxAnswered (i : nat) (resp : option Z).   (* the [i]-th open message box resolves *)

(** Stand-ins for the two platform functions, used only to evaluate the model
    on concrete inputs. *)
Definition demo_digest (s : string) : string :=
  "h" ++ Js.string_of_Z (Z.of_nat (String.length s)).

Fixpoint demo_stringify (j : json) : string :=
  match j with
  | JNull => "null"
  | JBool b => Js.string_of_bool b
  | JNum z => Js.string_of_Z z
  | JStr s => s
  | JArr items => "[" ++ Js.join "," (List.map demo_stringify items) ++ "]"
  | JObj fields =>
      "{" ++ Js.join "," (List.map (fun kv => fst kv ++ ":" ++ demo_stringify (snd kv)) fields) ++ "}"
  end.

(** Concrete platform readings and worlds for the examples at the end. *)
Definition demo_env (t : Z) (x y : Z) : Env :=
  mkEnv t (mkPoint x y) (fun _ => true) true.

Definition demo_world : World :=
  mkWorld (mkDisk ∅ [] None) initial_autopilot initial_runner true 0%nat [].

(** [jarvis_cfg.json] already holds ["os_control": "allow"]. *)
Definition demo_world_allowed : World :=
  mkWorld (mkDisk {[ "os_control" := "allow" ]} [] None)
    initial_autopilot initial_runner true 0%nat [].

(** Three audit calls: an object, a bare string (wrapped as [{value}]) and
    an empty type (stored as "UNKNOWN"). *)
Definition demo_ops : list (Z * string * json) :=
  [(1000, "APP_READY", JObj []);
   (1001, "NOTE", JStr "hello");
   (1002, "", JObj [("armed", JBool true)])].

(** The world after the tray's ARM AUTOPILOT at clock 1000, pointer at
    (0, 0), the prompt answered ALLOW ONCE (see [demo_armed_reached]). *)
Definition demo_armed : World :=
  mkWorld
    (mkDisk ∅
       [mkAudit 1000 "PERMISSION_DECISION"
          (JObj [("class", JStr "os_control"); ("decision", JStr "allow");
                 ("mode", JStr "once")]) "" "h69";
        mkAudit 1000 "AUTOPILOT_HOTKEY_REGISTERED"
          (JObj [("accelerator", JStr "Space")]) "h69" "h56";
        mkAudit 1000 "AUTOPILOT_ARM_STATE"
          (JObj [("armed", JBool true); ("why", JStr "tray_arm")]) "h56" "h54"]
       (Some "h54"))
    (mkAutopilot true false 1000 true (Some (mkPoint 0 0)) 2500 "Space")
    initial_runner true 0%nat
    [PermissionDialog "os_control" "Enable global hotkey + dead-man switch.";
     Send (StateMsg (mkSnapshot false false "" 0%nat "" true "Space" false));
     Send (LogLine 1000 "AUTOPILOT ARMED. Space or human mouse move -> takeover+pause.")].

(** The world after a task was accepted at clock 1000 (see
    [demo_running_reached]). *)
Definition demo_running : World :=
  mkWorld (mkDisk ∅ [] None) initial_autopilot
    (mkRunner true false false "list files"
       [mkStep 1000 "Input received" "ok" "api_key_present=true"] "" "" "" "")
    true 1%nat
    [Send (LogLine 1000 "START: list files");
     Send (StepMsg (mkStep 1000 "Input received" "ok" "api_key_present=true"));
     Send (StateMsg (mkSnapshot true false "list files" 1%nat "" false "" false))].


(** [jarvis_cfg.json] already holds ["os_control": "deny"]. *)
Definition demo_world_denied : World :=
  mkWorld (mkDisk {[ "os_control" := "deny" ]} [] None)
    initial_autopilot initial_runner true 0%nat [].

(** A short session: the app starts, the autopilot is armed from the tray
    (ALWAYS ALLOW), the hotkey fires, the autopilot is armed again. *)
Definition demo_session : list (Env * Event) :=
  [(demo_env 900 0 0, AppReady);
   (demo_env 1000 0 0, TrayArm (Some 2));
   (demo_env 5000 0 0, HotkeyPressed);
   (demo_env 6000 0 0, TrayArm None)].

(** Five recorded steps. *)
Definition demo_steps : list Step :=
  [mkStep 1 "a" "ok" ""; mkStep 2 "b" "ok" ""; mkStep 3 "c" "warn" "";
   mkStep 4 "d" "ok" "p"; mkStep 5 "e" "fail" ""].


(** Two message boxes open at once: [jarvis:perm:request] for "files", then
    a click on ARM AUTOPILOT; the box for "files" is answered [resp]. *)
Definition demo_overlap (resp : option Z) : list (Env * Turn) :=
  [(demo_env 1000 0 0, IpcPermCall "files" "");
   (demo_env 1100 0 0, TrayArmClick);
   (demo_env 2000 0 0, BoxAnswered 0 resp)].

(** Then the box of the tray click, now the oldest, is answered ALWAYS
    ALLOW. *)
Definition demo_overlap_done (resp : option Z) : list (Env * Turn) :=
  (demo_overlap resp ++ [(demo_env 3000 0 0, BoxAnswered 0 (Some 2))])%list.

Section Jarvis.

(** Node's [crypto.createHash("sha256").update(s, "utf8").digest("hex")]
    and [JSON.stringify], supplied by the platform. *)
Variable sha256 : string -> string.
Variable JSON_stringify : json -> string.

Definition sha256Hex (s : string) : string := sha256 (Js.or_else s "").

Definition readAuditState (d : Disk) : string :=
  match audit_state d with
  | None => ""
  | Some h => Js.or_else h ""
  end.

Definition writeAuditState (lastHash : string) (d : Disk) : Disk :=
  mkDisk (cfg_permissions d) (audit_log d) (Some (Js.or_else lastHash "")).

(** [(data && typeof data === "object") ? data : { value: String(data || "") }] *)
Definition auditData (d : json) : json :=
  match d with
  | JObj _ | JArr _ => d
  | JNull => JObj [("value", JStr "")]
  | JBool b => JObj [("value", JStr (if b then "true" else ""))]
  | JNum z => JObj [("value", JStr (if Z.eqb z 0 then "" else Js.string_of_Z z))]
  | JStr s => JObj [("value", JStr s)]
  end.

(** The string the hash is taken over:
    [`${ts}|${type}|${JSON.stringify(data)}|${prev_hash}`]. *)
Definition core (ts : Z) (type : string) (data : json) (prev : string) : string :=
  Js.string_of_Z ts ++ "|" ++ type ++ "|" ++ JSON_stringify data ++ "|" ++ prev.

(** The record with its [hash] field filled in from the other four. *)
Definition seal (r : AuditRecord) : AuditRecord :=
  mkAudit (ts r) (type r) (data r) (prev_hash r)
    (sha256Hex (core (ts r) (type r) (data r) (prev_hash r))).

(** The [payload] object that [auditEvent] builds. *)
Definition make_payload (now : Z) (ty : string) (dat : json) (d : Disk) : AuditRecord :=
  let prev := Js.or_else (readAuditState d) "" in
  seal (mkAudit now (Js.or_else ty "UNKNOWN") (auditData dat) prev "").

Definition auditEvent (now : Z) (ty : string) (dat : json) (d : Disk) : Disk :=
  let payload := make_payload now ty dat d in
  writeAuditState (hash payload)
    (mkDisk (cfg_permissions d) (audit_log d ++ [payload]) (audit_state d)).

(** [auditEvent] as the handlers call it, on the files of the world. *)
Definition audit (now : Z) (type : string) (data : json) : World -> World :=
  on_disk (auditEvent now type data).

(** ** Config (permission decisions) *)

Definition loadCfg (w : World) : gmap string string := cfg_permissions (disk w).

Definition saveCfg (cfg : gmap string string) : World -> World :=
  on_disk (fun d => mkDisk cfg (audit_log d) (audit_state d)).

Definition permission_data (key dec mode : string) : json :=
  JObj [("class", JStr key); ("decision", JStr dec); ("mode", JStr mode)].

(** [String(className || "").trim() || "unknown"] *)
Definition perm_key (className : string) : string :=
  Js.or_else (Js.trim className) "unknown".

(** [cfg.permissions[key] = v].  Every key names an own property of the
    parsed object, except ["__proto__"] when the object has no own property
    of that name: the assignment then reaches the accessor of
    [Object.prototype], which ignores a string, and nothing is stored.
    (Reading such a key gives [Object.prototype], which is neither "allow"
    nor "deny", like a key that is absent.) *)
Definition set_permission (key v : string) (cfg : gmap string string)
    : gmap string string :=
  if decide (key = "__proto__") then
    match cfg !! key with
    | Some _ => <[key := v]> cfg
    | None => cfg
    end
  else <[key := v]> cfg.

(** [permRequest(className, whyText)] up to [await dialog.showMessageBox]. *)
Definition permRequest_begin (className whyText : string) (w : World) : Asked * World :=
  let cfg := loadCfg w in
  let key := perm_key className in
  let cur := cfg !! key in
  if decide (cur = Some "allow") then (Cached (mkPermReply true "allow" true false), w)
  else if decide (cur = Some "deny") then (Cached (mkPermReply true "deny" true false), w)
  else
    let why := Js.trim whyText in
    (Waiting (mkPrompt cfg key), push (PermissionDialog key why) w).

(** [permRequest] from the answer of the message box on; [resp] is what the
    message box resolves to: [Some n] for [r.response = n], [None] for a
    result without a numeric [response].  The configuration that is saved is
    the one loaded before the [await]. *)
Definition permRequest_resume (now : Z) (p : Prompt) (resp : option Z) (w : World)
    : PermReply * World :=
  let cfg := p_cfg p in
  let key := p_key p in
  let resp := match resp with Some n => n | None => 0 end in
  if (resp =? 2)%Z then
    let cfg := set_permission key "allow" cfg in
    let w := saveCfg cfg w in
    let w := audit now "PERMISSION_DECISION" (permission_data key "allow" "always") w in
    (mkPermReply true "allow" false false, w)
  else if (resp =? 1)%Z then
    let w := audit now "PERMISSION_DECISION" (permission_data key "allow" "once") w in
    (mkPermReply true "allow" false true, w)
  else
    let cfg := set_permission key "deny" cfg in
    let w := saveCfg cfg w in
    let w := audit now "PERMISSION_DECISION" (permission_data key "deny" "always") w in
    (mkPermReply true "deny" false false, w).

(** The whole call when its message box, if one is shown, is answered before
    any other callback runs. *)
Definition permRequest (now : Z) (className whyText : string) (resp : option Z)
    (w : World) : PermReply * World :=
  match permRequest_begin className whyText w with
  | (Cached r, w) => (r, w)
  | (Waiting p, w) => permRequest_resume now p resp w
  end.

(** ** Runner *)

Definition _send (p : Payload) (w : World) : World :=
  if win w then push (Send p) w else w.

Definition _log (now : Z) (line : string) : World -> World :=
  _send (LogLine now line).

Definition _pushStep (now : Z) (title status proof : string) (w : World) : World :=
  let step := mkStep now title status (Js.or_else proof "") in
  let w := on_runner (fun r => set_steps (steps r ++ [step]) r) w in
  _send (StepMsg step) w.

Definition state (w : World) : StateSnapshot :=
  mkSnapshot (running (runner w)) (paused (runner w)) (taskText (runner w))
    (length (steps (runner w))) (proofJsonPath (runner w))
    (autopilotArmed (ap w)) (Js.or_else (registeredHotkey (ap w)) "")
    (manualOverride (ap w)).

Definition _setState (w : World) : World := _send (StateMsg (state w)) w.

Definition step_line (s : Step) : string :=
  "- " ++ title s ++ " :: " ++ status s ++
  (if Js.truthy (proof s) then " | " ++ proof s else "").

Definition stop_report_text (reason : string) (r : Runner) : string :=
  let last5 := List.map step_line (Js.slice_last 5 (steps r)) in
  "TASK: " ++ Js.or_else (taskText r) "(none)" ++ Js.nl ++ Js.nl ++
  "LAST 5 STEPS:" ++ Js.nl ++
    (match last5 with [] => "(no steps)" | _ => Js.join Js.nl last5 end) ++ Js.nl ++ Js.nl ++
  "ERROR/BLOCK: " ++ Js.or_else (error r) (Js.or_else reason "(none)") ++ Js.nl ++ Js.nl ++
  "NEXT ACTION: " ++
    Js.or_else (nextAction r) "Retry after resolving the block or providing authorization." ++
    Js.nl ++ Js.nl ++
  "PROOF JSON: " ++ Js.or_else (proofJsonPath r) "(none)".

Definition _makeStopReport (reason : string) (w : World) : string * World :=
  let report := stop_report_text reason (runner w) in
  (report, on_runner (set_lastReport report) w).

Definition _showStopReport (now : Z) (reason : string) (w : World) : World :=
  let '(report, w) := _makeStopReport reason w in
  let w := push (StopReportDialog report) w in
  let w := push StopNotification w in
  _send (ReportMsg now report) w.

(** [runner.start(taskText, apiKey, history, rulesText)].  [history] and
    [rulesText] are only forwarded to [runTask]. *)
Definition start (now : Z) (task apiKey : string) (w : World) : Reply * World :=
  let t := Js.trim task in
  let k := Js.trim apiKey in
  if negb (Js.truthy t) then
    (Err "EMPTY_TASK", _log now "No task text provided." w)
  else if negb (Js.truthy k) then
    (Err "NO_API_KEY", _log now "API key missing." w)
  else if running (runner w) then
    (Err "ALREADY_RUNNING", _log now "Already running." w)
  else
    let w := on_runner (fun _ => mkRunner true false false t [] "" "" "" "") w in
    let w := _log now ("START: " ++ taskText (runner w)) w in
    let w := _pushStep now "Input received" "ok" "api_key_present=true" w in
    let w := _setState w in
    let w := set_inflight (S (inflight w)) w in
    (Ok, w).

Definition done_report_text (task proofPath answerText : string) : string :=
  "TASK: " ++ task ++ Js.nl ++ Js.nl ++
  "STATUS: DONE" ++ Js.nl ++ Js.nl ++
  "PROOF JSON: " ++ Js.or_else proofPath "(none)" ++ Js.nl ++ Js.nl ++
  "OUTPUT (full):" ++ Js.nl ++ Js.or_else answerText "(none)".

Definition finish_stopped (now : Z) (w : World) : World :=
  let w := on_runner (fun r => set_paused false (set_running false r)) w in
  let w := _setState w in
  _showStopReport now (Js.or_else (error (runner w)) "STOP requested by user.") w.

Definition finish_failed (now : Z) (err next : string) (w : World) : World :=
  let w := on_runner (fun r =>
             set_paused false (set_running false (set_nextAction next (set_error err r)))) w in
  let w := _setState w in
  _showStopReport now (error (runner w)) w.

(** The body of the [async] function stored in [runner._promise], from the
    point where [await runTask(...)] settles. *)
Definition settle (now : Z) (o : Outcome) (w : World) : World :=
  match o with
  | Resolved res =>
      if stopRequested (runner w) then
        let w := _log now "Result ignored because STOP was requested." w in
        finish_stopped now w
      else
        match res with
        | Some r =>
            if res_ok r then
              let w := on_runner (set_proofJsonPath (Js.or_else (res_proofJsonPath r) "")) w in
              let pj := proofJsonPath (runner w) in
              let w := _pushStep now "Answer ready" "ok"
                         (if Js.truthy pj then "proof=" ++ pj else "") w in
              let answerText := res_answer r in
              let w := _send (AnswerMsg now (taskText (runner w)) answerText pj) w in
              let w := if Js.truthy answerText
                       then _log now (Js.slice_to 2500 answerText) (_log now "ANSWER (top):" w)
                       else w in
              let w := on_runner (fun r => set_paused false (set_running false r)) w in
              let w := _setState w in
              let report := done_report_text (taskText (runner w)) pj answerText in
              let w := on_runner (set_lastReport report) w in
              _send (ReportMsg now report) w
            else
              finish_failed now (Js.or_else (res_error r) "RUN_FAILED")
                "Check API key / network and retry." w
        | None =>
            finish_failed now "RUN_FAILED" "Check API key / network and retry." w
        end
  | Threw message =>
      if stopRequested (runner w) then finish_stopped now w
      else
        finish_failed now (Js.or_else message "EXCEPTION")
          "Retry. If it persists, check network/firewall and API key." w
  end.

Definition pause (now : Z) (w : World) : Reply * World :=
  if negb (running (runner w)) then (Err "NOT_RUNNING", w)
  else
    let w := on_runner (set_paused true) w in
    let w := _log now "PAUSE requested (note: API call cannot be paused in V1)." w in
    (Ok, _setState w).

Definition resume (now : Z) (w : World) : Reply * World :=
  if negb (running (runner w)) then (Err "NOT_RUNNING", w)
  else
    let w := on_runner (set_paused false) w in
    let w := _log now "RESUME requested." w in
    (Ok, _setState w).

Definition stop (now : Z) (reason : string) (w : World) : Reply * World :=
  let w := on_runner (set_stopRequested true) w in
  let w := on_runner (fun r =>
             set_error (Js.or_else (error r) (Js.or_else reason "STOP pressed by user.")) r) w in
  let w := on_runner (fun r =>
             set_nextAction (Js.or_else (nextAction r)
               "If you want me to proceed, re-run with explicit authorization where needed.") r) w in
  if negb (running (runner w)) then
    let w := _log now "STOP (no active run)." w in
    let w := _showStopReport now (error (runner w)) w in
    (Ok, _setState w)
  else
    let w := _log now
               "STOP requested. If an API call is running, it will finish then be ignored." w in
    let w := on_runner (fun r => set_paused false (set_running false r)) w in
    let w := _setState w in
    (Ok, _showStopReport now (error (runner w)) w).

(** ** Autopilot / dead-man switch *)

Definition stopCursorWatch : World -> World :=
  on_ap (fun a => if cursorTimer a then set_cursorTimer false a else a).

Definition startCursorWatch (e : Env) (w : World) : World :=
  let w := stopCursorWatch w in
  let w := on_ap (set_lastCursor (Some (cursor e))) w in
  on_ap (set_cursorTimer true) w.

Definition unregisterAutopilotHotkey (e : Env) (w : World) : World :=
  let hk := registeredHotkey (ap w) in
  let w := if Js.truthy hk
           then audit (now e) "AUTOPILOT_HOTKEY_UNREGISTERED" (JObj [("accelerator", JStr hk)]) w
           else w in
  on_ap (set_registeredHotkey "") w.

Definition hotkey_tries : list string := ["Space"; "CommandOrControl+Space"].

(** The [for (const accel of tries)] loop; [None] when it falls through. *)
Fixpoint try_register (e : Env) (tries : list string) (w : World) : option World :=
  match tries with
  | [] => None
  | accel :: rest =>
      if shortcut_free e accel then
        let w := on_ap (set_registeredHotkey accel) w in
        Some (audit (now e) "AUTOPILOT_HOTKEY_REGISTERED" (JObj [("accelerator", JStr accel)]) w)
      else try_register e rest w
  end.

Definition registerAutopilotHotkey (e : Env) (w : World) : bool * World :=
  let w := unregisterAutopilotHotkey e w in
  match try_register e hotkey_tries w with
  | Some w => (true, w)
  | None =>
      (false, audit (now e) "AUTOPILOT_HOTKEY_REGISTER_FAIL"
                (JObj [("tried", JArr (List.map JStr hotkey_tries))]) w)
  end.

Definition arm_state_data (armed : bool) (why : string) : json :=
  JObj [("armed", JBool armed); ("why", JStr why)].

Definition setAutopilotArmed (e : Env) (on : bool) (why : string) (w : World) : World :=
  let w := on_ap (set_autopilotArmed on) w in
  let w :=
    if negb (autopilotArmed (ap w)) then
      stopCursorWatch (unregisterAutopilotHotkey e w)
    else
      let w := on_ap (set_autopilotArmedAt (now e)) w in
      let w := on_ap (fun a => set_ignoreMouseUntil (autopilotArmedAt a + ARM_GRACE_MS) a) w in
      let w := on_ap (set_lastCursor (Some (cursor e))) w in
      let w := snd (registerAutopilotHotkey e w) in
      startCursorWatch e w in
  let w := audit (now e) "AUTOPILOT_ARM_STATE" (arm_state_data (autopilotArmed (ap w)) why) w in
  _setState w.

Definition takeover_line (why : string) : string :=
  "MANUAL TAKEOVER -> PAUSE (" ++ why ++ ")".

Definition triggerManualTakeover (e : Env) (why : string) (w : World) : World :=
  if negb (autopilotArmed (ap w)) then w
  else
    let w := on_ap (set_manualOverride true) w in
    let w := audit (now e) "MANUAL_TAKEOVER" (JObj [("why", JStr why)]) w in
    let w := setAutopilotArmed e false "manual_takeover" w in
    let w := snd (pause (now e) w) in
    let w := _log (now e) (takeover_line why) w in
    let w := _send (LogLine (now e) (takeover_line why)) w in
    _send (StateMsg (state w)) w.

Definition manhattan (p q : Point) : Z :=
  Z.abs (px p - px q) + Z.abs (py p - py q).

(** The callback [startCursorWatch] hands to [setInterval]. *)
Definition cursorTick (e : Env) (w : World) : World :=
  if negb (autopilotArmed (ap w)) then w
  else
    let p := cursor e in
    let armedAt := autopilotArmedAt (ap w) in
    if negb (armedAt =? 0)%Z && (now e - armedAt <? ARM_GRACE_MS)%Z then
      on_ap (set_lastCursor (Some p)) w
    else
      match lastCursor (ap w) with
      | None => on_ap (set_lastCursor (Some p)) w
      | Some q =>
          let dist := manhattan p q in
          let w := on_ap (set_lastCursor (Some p)) w in
          if (now e <? ignoreMouseUntil (ap w))%Z then w
          else if (MOUSE_DIST <=? dist)%Z then triggerManualTakeover e "MOUSE_MOVE" w
          else w
      end.

(** The callback [registerAutopilotHotkey] hands to [globalShortcut]. *)
Definition hotkeyFired (e : Env) (w : World) : World :=
  if autopilotArmed (ap w) then triggerManualTakeover e "SPACE" w else w.

Definition setInjectedIgnoreWindow (e : Env) (ms : Z) (w : World) : World :=
  let v := ms in
  if (0 <? v)%Z then
    let w := on_ap (set_ignoreMouseUntil (now e + Z.min 4000 v)) w in
    audit (now e) "AUTOPILOT_INJECT_IGNORE" (JObj [("ms", JNum v)]) w
  else w.

(** ** Remaining handlers *)

Definition setStoredApiKey (e : Env) (apiKey : string) (w : World) : World :=
  let k := Js.trim apiKey in
  if negb (Js.truthy k) then
    audit (now e) "APIKEY_STORE" (JObj [("action", JStr "cleared")]) w
  else if negb (can_encrypt e) then
    audit (now e) "APIKEY_STORE"
      (JObj [("action", JStr "failed"); ("reason", JStr "ENCRYPTION_UNAVAILABLE")]) w
  else
    audit (now e) "APIKEY_STORE" (JObj [("action", JStr "set")]) w.

Definition showDiagnostics (e : Env) (w : World) : World :=
  let w := audit (now e) "DIAGNOSTICS_OPENED"
             (JObj [("autopilotArmed", JBool (autopilotArmed (ap w)));
                    ("hotkey", JStr (Js.or_else (registeredHotkey (ap w)) ""));
                    ("manualOverride", JBool (manualOverride (ap w)))]) w in
  push DiagnosticsDialog w.

(** The reason the tray handler gives to [permRequest]. *)
Definition tray_why : string := "Enable global hotkey + dead-man switch.".

(** The tray handler after [await permRequest(...)]. *)
Definition trayArm_then (e : Env) (r : PermReply) (w : World) : World :=
  if negb (perm_ok r) || negb (String.eqb (decision r) "allow") then
    _log (now e) "AUTOPILOT_ARM denied by permission." w
  else
    let w := setAutopilotArmed e true "tray_arm" w in
    _log (now e) "AUTOPILOT ARMED. Space or human mouse move -> takeover+pause." w.

Definition trayArm (e : Env) (resp : option Z) (w : World) : World :=
  let '(r, w) := permRequest (now e) "os_control" tray_why resp w in
  trayArm_then e r w.

(** The [jarvis:autopilot:arm] handler after [await permRequest(...)]. *)
Definition ipcArm_then (e : Env) (why : string) (r : PermReply) (w : World) : World :=
  if negb (perm_ok r) || negb (String.eqb (decision r) "allow") then w
  else setAutopilotArmed e true (Js.or_else why "ipc_arm") w.

Definition ipcArm (e : Env) (why : string) (resp : option Z) (w : World) : World :=
  let '(r, w) := permRequest (now e) "os_control" (Js.or_else why "IPC request") resp w in
  ipcArm_then e why r w.

Definition trayPause (e : Env) (w : World) : World :=
  if running (runner w) && negb (paused (runner w)) then snd (pause (now e) w)
  else if running (runner w) && paused (runner w) then snd (resume (now e) w)
  else w.

(** One turn of the event loop.  A callback that is not installed in [w]
    (no registered accelerator, no interval timer, no task in flight)
    cannot run. *)
Definition step (e : Env) (ev : Event) (w : World) : World :=
  match ev with
  | AppReady => audit (now e) "APP_READY" (JObj []) (set_win true w)
  | TrayArm resp => trayArm e resp w
  | TrayDisarm =>
      _log (now e) "AUTOPILOT DISARMED." (setAutopilotArmed e false "tray_disarm" w)
  | TrayDiagnostics => showDiagnostics e w
  | TrayPause => trayPause e w
  | TrayStop => snd (stop (now e) "STOP pressed from tray." w)
  | IpcSetApiKey apiKey => setStoredApiKey e apiKey w
  | IpcStart task apiKey => snd (start (now e) task apiKey w)
  | IpcPause => snd (pause (now e) w)
  | IpcResume => snd (resume (now e) w)
  | IpcStop reason => snd (stop (now e) reason w)
  | IpcState => w
  | IpcArm why resp => ipcArm e why resp w
  | IpcDisarm why => setAutopilotArmed e false (Js.or_else why "ipc_disarm") w
  | IpcInjected ms => setInjectedIgnoreWindow e ms w
  | IpcPermRequest className why resp =>
      snd (permRequest (now e) className (Js.or_else why "") resp w)
  | HotkeyPressed =>
      if Js.truthy (registeredHotkey (ap w)) then hotkeyFired e w else w
  | CursorPoll =>
      if cursorTimer (ap w) then cursorTick e w else w
  | TaskLog line =>
      match inflight w with O => w | S _ => _log (now e) line w end
  | TaskStep title status proof =>
      match inflight w with
      | O => w
      | S _ => _pushStep (now e) title status (Js.or_else proof "") w
      end
  | TaskSettled o =>
      match inflight w with
      | O => w
      | S n => settle (now e) o (set_inflight n w)
      end
  end.

(** A run of the event loop: each turn has its own platform readings. *)
Fixpoint run (evs : list (Env * Event)) (w : World) : World :=
  match evs with
  | [] => w
  | (e, ev) :: rest => run rest (step e ev w)
  end.

(** ** Message boxes that stay open across turns *)

(** What the awaiting handler does with the reply. *)
Definition resumed (e : Env) (k : Caller) (r : PermReply) (w : World) : World :=
  match k with
  | ByTray => trayArm_then e r w
  | ByIpcArm why => ipcArm_then e why r w
  | ByIpcPerm => w
  end.

(** A handler calls [permRequest]: with a persisted decision it goes on at
    once, otherwise it is suspended at the message box. *)
Definition ask (e : Env) (k : Caller) (className why : string) (s : Session) : Session :=
  match permRequest_begin className why (world s) with
  | (Cached r, w) => mkSession (resumed e k r w) (waiting s)
  | (Waiting p, w) => mkSession w (waiting s ++ [(p, k)])%list
  end.

Definition turn (e : Env) (t : Turn) (s : Session) : Session :=
  match t with
  | Callback ev => mkSession (step e ev (world s)) (waiting s)
  | TrayArmClick => ask e ByTray "os_control" tray_why s
  | IpcArmCall why => ask e (ByIpcArm why) "os_control" (Js.or_else why "IPC request") s
  | IpcPermCall className why => ask e ByIpcPerm className (Js.or_else why "") s
  | BoxAnswered i resp =>
      match waiting s !! i with
      | None => s
      | Some (p, k) =>
          let '(r, w) := permRequest_resume (now e) p resp (world s) in
          mkSession (resumed e k r w) (delete i (waiting s))
      end
  end.

Fixpoint turns (ts : list (Env * Turn)) (s : Session) : Session :=
  match ts with
  | [] => s
  | (e, t) :: rest => turns rest (turn e t s)
  end.

(** ** Audit chain: linkage and recomputation *)

(** A sequence of [auditEvent(type, data)] calls, each at its own clock
    reading. *)
Definition appends (ops : list (Z * string * json)) (d : Disk) : Disk :=
  fold_left (fun d op => auditEvent op.1.1 op.1.2 op.2 d) ops d.

(** The hash recomputed from the other four fields of a stored record. *)
Definition recomputed (r : AuditRecord) : string :=
  sha256Hex (core (ts r) (type r) (data r) (prev_hash r)).

(** [log] continues a chain whose newest hash is [prev]. *)
Fixpoint chained (prev : string) (log : list AuditRecord) : Prop :=
  match log with
  | [] => True
  | r :: rest => prev_hash r = prev /\ hash r = recomputed r /\ chained (hash r) rest
  end.

(** The newest hash after [log] has been appended to a chain ending in
    [prev]. *)
Fixpoint tip (prev : string) (log : list AuditRecord) : string :=
  match log with
  | [] => prev
  | r :: rest => tip (hash r) rest
  end.

Definition chain_inv (d : Disk) : Prop :=
  chained "" (audit_log d) /\ readAuditState d = tip "" (audit_log d).

(** ** Runner: rejected starts *)

(** [!String(s || "").trim()] *)
Definition blank (s : string) : bool := negb (Js.truthy (Js.trim s)).

(** ** Permission gate *)

(** No persisted decision for the key: neither "allow" nor "deny". *)
Definition undecided (key : string) (w : World) : Prop :=
  loadCfg w !! key <> Some "allow" /\ loadCfg w !! key <> Some "deny".

(** The button index [permRequest] acts on. *)
Definition answer (resp : option Z) : Z :=
  match resp with Some n => n | None => 0 end.

Definition cached_reply (dec : string) : PermReply := mkPermReply true dec true false.

(** ** Frame facts: which handler touches which part of the world *)

(** The part of the world outside the runner and the output trace. *)
Definition ctl (w : World) : Disk * Autopilot * bool := (disk w, ap w, win w).

(** ** Counting audit records *)

(** How many records of the log satisfy [p], a test on [type] and [data]. *)
Definition tally (p : string -> json -> bool) (w : World) : nat :=
  length (List.filter (fun r => p (type r) (data r)) (audit_log (disk w))).

Definition is_takeover (ty : string) (d : json) : bool :=
  String.eqb ty "MANUAL_TAKEOVER".

(** An [AUTOPILOT_ARM_STATE] record with [armed: false]. *)
Definition is_disarm (ty : string) (d : json) : bool :=
  String.eqb ty "AUTOPILOT_ARM_STATE" &&
  match d with
  | JObj fs => match field "armed" fs with Some (JBool false) => true | _ => false end
  | _ => false
  end.

(** [p] does not count the hotkey bookkeeping records. *)
Definition hotkey_blind (p : string -> json -> bool) : Prop :=
  forall d, p "AUTOPILOT_HOTKEY_UNREGISTERED" d = false
            /\ p "AUTOPILOT_HOTKEY_REGISTERED" d = false
            /\ p "AUTOPILOT_HOTKEY_REGISTER_FAIL" d = false.

(** ** Hotkey bookkeeping *)

(** [w'] differs from [w] at most in [registeredHotkey] and in hotkey
    bookkeeping records of the audit log. *)
Record hotkey_step (w w' : World) : Prop := {
  hk_runner : runner w' = runner w;
  hk_win : win w' = win w;
  hk_inflight : inflight w' = inflight w;
  hk_out : out w' = out w;
  hk_cfg : loadCfg w' = loadCfg w;
  hk_ap : set_registeredHotkey "" (ap w') = set_registeredHotkey "" (ap w);
  hk_tally : forall p, hotkey_blind p -> tally p w' = tally p w
}.

(** The grace test of the poll callback:
    [autopilotArmedAt && (now - autopilotArmedAt) < ARM_GRACE_MS]. *)
Definition in_grace (e : Env) (w : World) : bool :=
  negb (autopilotArmedAt (ap w) =? 0)%Z
  && (now e - autopilotArmedAt (ap w) <? ARM_GRACE_MS)%Z.

Definition is_arm (ev : Event) : bool :=
  match ev with TrayArm _ | IpcArm _ _ => true | _ => false end.

Definition b2n (b : bool) : nat := if b then 1%nat else 0%nat.

(** Takeovers written so far, plus one if a takeover can still fire. *)
Definition takeover_budget (w : World) : nat :=
  (tally is_takeover w + b2n (autopilotArmed (ap w)))%nat.

(** The [mode] written for a prompt answer. *)
Definition mode_of (resp : option Z) : string :=
  if (answer resp =? 1)%Z then "once" else "always".

(** ** Stop and the late result *)

(** How many emitted outputs satisfy [p]. *)
Definition emitted (p : Output -> bool) (w : World) : nat :=
  length (List.filter p (out w)).

Definition is_stop_report (o : Output) : bool :=
  match o with StopReportDialog _ => true | _ => false end.

Definition is_report_msg (o : Output) : bool :=
  match o with Send (ReportMsg _ _) => true | _ => false end.

Definition is_answer (o : Output) : bool :=
  match o with Send (AnswerMsg _ _ _ _) => true | _ => false end.


(** ** Vocabulary of the whole-program properties *)

(** [d'] is reached from [d] by [auditEvent] calls and rewrites of
    [jarvis_cfg.json] only. *)
Inductive audited : Disk -> Disk -> Prop :=
| audited_refl (d : Disk) : audited d d
| audited_event (d d' : Disk) (t : Z) (ty : string) (dat : json) :
    audited d d' -> audited d (auditEvent t ty dat d')
| audited_cfg (d d' : Disk) (cfg : gmap string string) :
    audited d d' -> audited d (mkDisk cfg (audit_log d') (audit_state d')).

(** A stored record has a non-empty [type] and an object (or array) as
    [data]. *)
Definition record_ok (r : AuditRecord) : Prop :=
  Js.truthy (type r) = true
  /\ match data r with JObj _ | JArr _ => True | _ => False end.


(** How one turn of the event loop can change the autopilot variables. *)
Inductive ap_move (a : Autopilot) : Autopilot -> Prop :=
| ap_same : ap_move a a
| ap_ignore (v : Z) : ap_move a (set_ignoreMouseUntil v a)
| ap_sample (p : Point) :
    autopilotArmed a = true -> ap_move a (set_lastCursor (Some p) a)
| ap_disarm :
    ap_move a (mkAutopilot false (manualOverride a) (autopilotArmedAt a) false
                 (lastCursor a) (ignoreMouseUntil a) "")
| ap_takeover (lc : option Point) :
    autopilotArmed a = true ->
    ap_move a (mkAutopilot false true (autopilotArmedAt a) false lc (ignoreMouseUntil a) "")
| ap_arm (t : Z) (p : Point) (hk : string) :
    ap_move a (mkAutopilot true (manualOverride a) t true (Some p) (t + ARM_GRACE_MS) hk).

(** The poll timer runs exactly while armed, a hotkey is registered only
    while armed, and an armed autopilot has a baseline sample. *)
Definition ap_ok (a : Autopilot) : Prop :=
  cursorTimer a = autopilotArmed a
  /\ (autopilotArmed a = false -> registeredHotkey a = "")
  /\ (autopilotArmed a = true -> lastCursor a <> None).

Definition is_prompt (o : Output) : bool :=
  match o with PermissionDialog _ _ => true | _ => false end.

Definition is_hotkey_registered (ty : string) (d : json) : bool :=
  String.eqb ty "AUTOPILOT_HOTKEY_REGISTERED".

Definition is_register_fail (ty : string) (d : json) : bool :=
  String.eqb ty "AUTOPILOT_HOTKEY_REGISTER_FAIL".

(** The accelerator [registerAutopilotHotkey] ends up with. *)
Definition granted_hotkey (e : Env) : string :=
  if shortcut_free e "Space" then "Space"
  else if shortcut_free e "CommandOrControl+Space" then "CommandOrControl+Space"
  else "".


(** The runner after [stop(reason)], field by field. *)
Definition stopped_runner (reason : string) (r : Runner) : Runner :=
  let r0 := set_nextAction
              (Js.or_else (nextAction r)
                 "If you want me to proceed, re-run with explicit authorization where needed.")
              (set_error (Js.or_else (error r) (Js.or_else reason "STOP pressed by user."))
                 (set_stopRequested true r)) in
  let r1 := if running r then set_paused false (set_running false r0) else r0 in
  set_lastReport (stop_report_text (error r1) r1) r1.

(** The error text recorded for a call that failed. *)
Definition failure_error (o : Outcome) : string :=
  match o with
  | Resolved (Some res) => Js.or_else (res_error res) "RUN_FAILED"
  | Resolved None => "RUN_FAILED"
  | Threw message => Js.or_else message "EXCEPTION"
  end.

(** The outcome is a result object with [ok] set. *)
Definition succeeded (o : Outcome) : bool :=
  match o with
  | Resolved (Some res) => res_ok res
  | _ => false
  end.

(** While paused the runner is running, and while running a call is in
    flight. *)
Definition runner_ok (w : World) : Prop :=
  (paused (runner w) = true -> running (runner w) = true)
  /\ (running (runner w) = true -> (0 < inflight w)%nat).


(** The log line a takeover sends to the window. *)
Definition is_takeover_line (why : string) (o : Output) : bool :=
  match o with
  | Send (LogLine _ line) => String.eqb line (takeover_line why)
  | _ => false
  end.


(** ** A settled denial *)

(** "deny" is settled for "os_control": it is persisted, the autopilot is
    disarmed, and every call still waiting at its message box loaded a
    configuration that holds the denial, asks for another key and was made
    by the [jarvis:perm:request] handler. *)
Definition deny_settled (s : Session) : Prop :=
  loadCfg (world s) !! "os_control" = Some "deny"
  /\ autopilotArmed (ap (world s)) = false
  /\ Forall (fun pk : Prompt * Caller =>
               p_cfg (fst pk) !! "os_control" = Some "deny"
               /\ p_key (fst pk) <> "os_control"
               /\ snd pk = ByIpcPerm) (waiting s).

(** * Properties *)

Lemma or_else_empty (s : string) : Js.or_else s "" = s.
Proof. destruct s; reflexivity. Qed.

Lemma chained_snoc (prev : string) (log : list AuditRecord) (r : AuditRecord) :
  chained prev log -> prev_hash r = tip prev log -> hash r = recomputed r ->
  chained prev (log ++ [r])%list.
Proof.
  revert prev. induction log as [|q log IH]; intros prev Hc Hp Hh; simpl in *.
  - auto.
  - destruct Hc as (Hq & Hhq & Hrest). repeat split; auto.
Qed.

Lemma tip_snoc (prev : string) (log : list AuditRecord) (r : AuditRecord) :
  tip prev (log ++ [r])%list = hash r.
Proof. revert prev. induction log as [|q log IH]; intros prev; simpl; auto. Qed.

Lemma auditEvent_log (t : Z) (ty : string) (dat : json) (d : Disk) :
  exists r, audit_log (auditEvent t ty dat d) = (audit_log d ++ [r])%list
    /\ ts r = t /\ type r = Js.or_else ty "UNKNOWN" /\ data r = auditData dat
    /\ prev_hash r = readAuditState d /\ hash r = recomputed r
    /\ readAuditState (auditEvent t ty dat d) = hash r.
Proof.
  assert (Hrd : forall h d', readAuditState (writeAuditState h d') = h).
  { intros h d'. unfold readAuditState, writeAuditState. simpl.
    now rewrite !or_else_empty. }
  exists (make_payload t ty dat d). split; [reflexivity|].
  unfold auditEvent. rewrite Hrd. unfold recomputed, make_payload, seal. simpl.
  rewrite !or_else_empty. repeat split; reflexivity.
Qed.

Lemma auditEvent_inv (t : Z) (ty : string) (dat : json) (d : Disk) :
  chain_inv d -> chain_inv (auditEvent t ty dat d).
Proof.
  intros [Hc Ht].
  destruct (auditEvent_log t ty dat d) as (r & Hlog & _ & _ & _ & Hp & Hh & Hs).
  unfold chain_inv. rewrite Hlog, Hs, tip_snoc. split; [|reflexivity].
  apply chained_snoc; auto. congruence.
Qed.

Lemma appends_inv (ops : list (Z * string * json)) (d : Disk) :
  chain_inv d -> chain_inv (appends ops d).
Proof.
  revert d. induction ops as [|op ops IH]; intros d Hd; simpl; auto.
  apply IH, auditEvent_inv, Hd.
Qed.

Lemma appends_length (ops : list (Z * string * json)) (d : Disk) :
  length (audit_log (appends ops d)) = (length (audit_log d) + length ops)%nat.
Proof.
  revert d. induction ops as [|op ops IH]; intros d; simpl.
  - lia.
  - rewrite IH. simpl. rewrite length_app. simpl. lia.
Qed.

Lemma chained_head (prev : string) (log : list AuditRecord) (r : AuditRecord) :
  chained prev log -> log !! 0%nat = Some r -> prev_hash r = prev.
Proof. destruct log; simpl; [discriminate|]. intros (H & _) [= <-]. exact H. Qed.

Lemma chained_link (prev : string) (log : list AuditRecord) (i : nat) (p r : AuditRecord) :
  chained prev log -> log !! i = Some p -> log !! S i = Some r -> prev_hash r = hash p.
Proof.
  revert prev i. induction log as [|q log IH]; intros prev i Hc Hp Hr; [discriminate|].
  destruct Hc as (_ & _ & Hrest). destruct i as [|i]; simpl in *.
  - injection Hp as <-. eapply chained_head; eauto.
  - eapply IH; eauto.
Qed.

Lemma chained_hash (prev : string) (log : list AuditRecord) (i : nat) (r : AuditRecord) :
  chained prev log -> log !! i = Some r -> hash r = recomputed r.
Proof.
  revert prev i. induction log as [|q log IH]; intros prev i Hc Hr; [discriminate|].
  destruct Hc as (_ & Hq & Hrest). destruct i as [|i]; simpl in *.
  - injection Hr as <-. exact Hq.
  - eapply IH; eauto.
Qed.

(** C2.  After any sequence of [auditEvent] calls on an empty chain (no log,
    no pointer file) the log holds one record per call; the first record
    has [prev_hash = ""]; every later record's [prev_hash] is the [hash] of
    the record just before it; and every record's [hash] is SHA-256 of
    [ts|type|JSON.stringify(data)|prev_hash] recomputed from its own
    fields. *)
Theorem audit_chain_valid (perms : gmap string string) (ops : list (Z * string * json)) :
  let log := audit_log (appends ops (mkDisk perms [] None)) in
  length log = length ops
  /\ (forall r, log !! 0%nat = Some r -> prev_hash r = "")
  /\ (forall i p r, log !! i = Some p -> log !! S i = Some r -> prev_hash r = hash p)
  /\ (forall i r, log !! i = Some r ->
        hash r = sha256 (Js.string_of_Z (ts r) ++ "|" ++ type r ++ "|" ++
                         JSON_stringify (data r) ++ "|" ++ prev_hash r)).
Proof.
  intros log.
  assert (Hinv : chain_inv (appends ops (mkDisk perms [] None))).
  { apply appends_inv. split; simpl; auto. }
  destruct Hinv as [Hc _]. fold log in Hc.
  split; [|split; [|split]].
  - subst log. rewrite appends_length. reflexivity.
  - intros r. apply chained_head, Hc.
  - intros i p r. apply chained_link with (prev := ""), Hc.
  - intros i r Hr. rewrite (chained_hash _ _ _ _ Hc Hr).
    unfold recomputed, sha256Hex, core.
    destruct (Js.string_of_Z (ts r)); reflexivity.
Qed.

Lemma start_cases (t : Z) (task apiKey : string) (w : World) :
  start t task apiKey w =
    if blank task then (Err "EMPTY_TASK", _log t "No task text provided." w)
    else if blank apiKey then (Err "NO_API_KEY", _log t "API key missing." w)
    else if running (runner w) then (Err "ALREADY_RUNNING", _log t "Already running." w)
    else (Ok, snd (start t task apiKey w)).
Proof.
  unfold start, blank.
  destruct (Js.truthy (Js.trim task)); simpl; [|reflexivity].
  destruct (Js.truthy (Js.trim apiKey)); simpl; [|reflexivity].
  destruct (running (runner w)); reflexivity.
Qed.

(** [_send] (and so [_log]) only adds to what the window receives. *)
Lemma _send_frame (p : Payload) (w : World) :
  disk (_send p w) = disk w /\ ap (_send p w) = ap w
  /\ runner (_send p w) = runner w /\ win (_send p w) = win w
  /\ inflight (_send p w) = inflight w.
Proof. unfold _send. destruct (win w) eqn:Hw; simpl; rewrite ?Hw; repeat split; reflexivity. Qed.

(** C8.  [runner.start] checks, in this order, the trimmed task text, the
    trimmed credential and the [running] flag: a blank task is rejected
    with EMPTY_TASK, otherwise a blank credential with NO_API_KEY,
    otherwise a running task with ALREADY_RUNNING; and a rejected start
    leaves every field of the runner (running, paused, stopRequested,
    taskText, steps, error, nextAction, lastReport, proofJsonPath), the
    autopilot variables and the files as they were. *)
Theorem start_rejections (t : Z) (task apiKey : string) (w : World) :
  (blank task = true -> fst (start t task apiKey w) = Err "EMPTY_TASK")
  /\ (blank task = false -> blank apiKey = true ->
        fst (start t task apiKey w) = Err "NO_API_KEY")
  /\ (blank task = false -> blank apiKey = false -> running (runner w) = true ->
        fst (start t task apiKey w) = Err "ALREADY_RUNNING")
  /\ (fst (start t task apiKey w) <> Ok ->
        runner (snd (start t task apiKey w)) = runner w
        /\ ap (snd (start t task apiKey w)) = ap w
        /\ disk (snd (start t task apiKey w)) = disk w
        /\ inflight (snd (start t task apiKey w)) = inflight w).
Proof.
  rewrite start_cases.
  destruct (blank task) eqn:Ht; [|destruct (blank apiKey) eqn:Hk;
    [|destruct (running (runner w)) eqn:Hr]]; simpl;
    (split; [|split; [|split]]); try congruence; intros _;
    match goal with
    | |- context [_log ?a ?b w] =>
        destruct (_send_frame (LogLine a b) w) as (Hd & Ha & Hrn & _ & Hi);
        unfold _log; repeat split; assumption
    end.
Qed.

Lemma begin_cached (c why dec : string) (w : World) :
  loadCfg w !! perm_key c = Some dec -> dec = "allow" \/ dec = "deny" ->
  permRequest_begin c why w = (Cached (cached_reply dec), w).
Proof.
  intros Hk Hdec. unfold permRequest_begin. rewrite Hk.
  destruct Hdec as [-> | ->].
  - destruct (decide (Some "allow" = Some "allow")); [reflexivity | congruence].
  - destruct (decide (Some "deny" = Some "allow")); [discriminate|].
    destruct (decide (Some "deny" = Some "deny")); [reflexivity | congruence].
Qed.

Lemma begin_fresh (c why : string) (w : World) :
  undecided (perm_key c) w ->
  permRequest_begin c why w
  = (Waiting (mkPrompt (loadCfg w) (perm_key c)),
     push (PermissionDialog (perm_key c) (Js.trim why)) w).
Proof.
  intros [Ha Hd]. unfold permRequest_begin.
  destruct (decide (loadCfg w !! perm_key c = Some "allow")); [contradiction|].
  destruct (decide (loadCfg w !! perm_key c = Some "deny")); [contradiction|].
  reflexivity.
Qed.

Lemma resume_cases (t : Z) (p : Prompt) (resp : option Z) (w : World) :
  permRequest_resume t p resp w =
    if (answer resp =? 2)%Z then
      (mkPermReply true "allow" false false,
       audit t "PERMISSION_DECISION" (permission_data (p_key p) "allow" "always")
         (saveCfg (set_permission (p_key p) "allow" (p_cfg p)) w))
    else if (answer resp =? 1)%Z then
      (mkPermReply true "allow" false true,
       audit t "PERMISSION_DECISION" (permission_data (p_key p) "allow" "once") w)
    else
      (mkPermReply true "deny" false false,
       audit t "PERMISSION_DECISION" (permission_data (p_key p) "deny" "always")
         (saveCfg (set_permission (p_key p) "deny" (p_cfg p)) w)).
Proof. reflexivity. Qed.

Lemma permRequest_cached (t : Z) (c why dec : string) (resp : option Z) (w : World) :
  loadCfg w !! perm_key c = Some dec -> dec = "allow" \/ dec = "deny" ->
  permRequest t c why resp w = (cached_reply dec, w).
Proof.
  intros Hk Hdec. unfold permRequest. rewrite (begin_cached c why dec w Hk Hdec).
  reflexivity.
Qed.

Lemma permRequest_fresh (t : Z) (c why : string) (resp : option Z) (w : World) :
  undecided (perm_key c) w ->
  permRequest t c why resp w =
    let key := perm_key c in
    let w0 := push (PermissionDialog key (Js.trim why)) w in
    if (answer resp =? 2)%Z then
      (mkPermReply true "allow" false false,
       audit t "PERMISSION_DECISION" (permission_data key "allow" "always")
         (saveCfg (set_permission key "allow" (loadCfg w)) w0))
    else if (answer resp =? 1)%Z then
      (mkPermReply true "allow" false true,
       audit t "PERMISSION_DECISION" (permission_data key "allow" "once") w0)
    else
      (mkPermReply true "deny" false false,
       audit t "PERMISSION_DECISION" (permission_data key "deny" "always")
         (saveCfg (set_permission key "deny" (loadCfg w)) w0)).
Proof.
  intros Hu. unfold permRequest. rewrite (begin_fresh c why w Hu).
  rewrite resume_cases. reflexivity.
Qed.

Lemma undecided_dec (key : string) (w : World) :
  undecided key w \/ loadCfg w !! key = Some "allow" \/ loadCfg w !! key = Some "deny".
Proof.
  unfold undecided.
  destruct (decide (loadCfg w !! key = Some "allow")); [auto|].
  destruct (decide (loadCfg w !! key = Some "deny")); auto.
Qed.

(** [cfg.permissions[key] = v] leaves every other key as it was. *)
Lemma set_permission_ne (key v k : string) (cfg : gmap string string) :
  key <> k -> set_permission key v cfg !! k = cfg !! k.
Proof.
  intros Hne. unfold set_permission.
  destruct (decide (key = "__proto__")); [destruct (cfg !! key)|];
    rewrite ?lookup_insert_ne by exact Hne; reflexivity.
Qed.

(** On any key but ["__proto__"] the assignment stores. *)
Lemma set_permission_eq (key v : string) (cfg : gmap string string) :
  key <> "__proto__" -> set_permission key v cfg !! key = Some v.
Proof.
  intros Hne. unfold set_permission.
  destruct (decide (key = "__proto__")); [contradiction|]. apply lookup_insert_eq.
Qed.

(** It never removes an entry. *)
Lemma set_permission_some (key v k : string) (cfg : gmap string string) :
  is_Some (cfg !! k) -> is_Some (set_permission key v cfg !! k).
Proof.
  intros Hk. destruct (decide (key = k)) as [->|Hne].
  - unfold set_permission. destruct (decide (k = "__proto__")).
    + destruct (cfg !! k) eqn:E; [rewrite lookup_insert_eq; eauto|].
      destruct Hk; discriminate.
    + rewrite lookup_insert_eq; eauto.
  - rewrite set_permission_ne by exact Hne. exact Hk.
Qed.

(** A persisted "allow" or "deny" is never overwritten by a call of
    [permRequest] whose message box is answered at once. *)
Lemma permRequest_keeps (t : Z) (c why : string) (resp : option Z) (w : World)
    (k dec : string) :
  loadCfg w !! k = Some dec -> dec = "allow" \/ dec = "deny" ->
  loadCfg (snd (permRequest t c why resp w)) !! k = Some dec.
Proof.
  intros Hk Hdec.
  destruct (undecided_dec (perm_key c) w) as [Hu | Hc].
  - assert (Hne : perm_key c <> k).
    { intros E. rewrite E in Hu. destruct Hu, Hdec; subst; congruence. }
    rewrite permRequest_fresh by exact Hu. cbv zeta.
    destruct (answer resp =? 2)%Z; [|destruct (answer resp =? 1)%Z];
      simpl; unfold loadCfg; simpl; rewrite ?set_permission_ne by exact Hne; exact Hk.
  - destruct Hc as [Hc | Hc];
      erewrite permRequest_cached by eauto; exact Hk.
Qed.

Lemma ctl_send (p : Payload) (w : World) : ctl (_send p w) = ctl w.
Proof.
  destruct (_send_frame p w) as (Hd & Ha & _ & Hw & _). unfold ctl. congruence.
Qed.

Lemma ctl_on_runner (f : Runner -> Runner) (w : World) : ctl (on_runner f w) = ctl w.
Proof. reflexivity. Qed.

Lemma ctl_push (o : Output) (w : World) : ctl (push o w) = ctl w.
Proof. reflexivity. Qed.

Lemma ctl_set_inflight (n : nat) (w : World) : ctl (set_inflight n w) = ctl w.
Proof. reflexivity. Qed.

Create Rewrite HintDb ctl.

Hint Rewrite ctl_send ctl_on_runner ctl_push ctl_set_inflight : ctl.

Ltac case_goal :=
  repeat match goal with
         | |- context [if ?b then _ else _] => destruct b
         | |- context [match ?x with _ => _ end] => destruct x
         end.

Ltac ctl_tac := case_goal; cbn [fst snd]; autorewrite with ctl; reflexivity.

Lemma ctl_log (t : Z) (line : string) (w : World) : ctl (_log t line w) = ctl w.
Proof. apply ctl_send. Qed.

Lemma ctl_pushStep (t : Z) (ti st pr : string) (w : World) :
  ctl (_pushStep t ti st pr w) = ctl w.
Proof. unfold _pushStep. ctl_tac. Qed.

Lemma ctl_setState (w : World) : ctl (_setState w) = ctl w.
Proof. apply ctl_send. Qed.

Lemma ctl_showStopReport (t : Z) (reason : string) (w : World) :
  ctl (_showStopReport t reason w) = ctl w.
Proof. unfold _showStopReport, _makeStopReport. ctl_tac. Qed.

Hint Rewrite ctl_log ctl_pushStep ctl_setState ctl_showStopReport : ctl.

Lemma ctl_start (t : Z) (task apiKey : string) (w : World) :
  ctl (snd (start t task apiKey w)) = ctl w.
Proof. unfold start. ctl_tac. Qed.

Lemma ctl_pause (t : Z) (w : World) : ctl (snd (pause t w)) = ctl w.
Proof. unfold pause. ctl_tac. Qed.

Lemma ctl_resume (t : Z) (w : World) : ctl (snd (resume t w)) = ctl w.
Proof. unfold resume. ctl_tac. Qed.

Lemma ctl_stop (t : Z) (reason : string) (w : World) : ctl (snd (stop t reason w)) = ctl w.
Proof. unfold stop. ctl_tac. Qed.

Lemma ctl_finish_stopped (t : Z) (w : World) : ctl (finish_stopped t w) = ctl w.
Proof. unfold finish_stopped. ctl_tac. Qed.

Lemma ctl_finish_failed (t : Z) (err next : string) (w : World) :
  ctl (finish_failed t err next w) = ctl w.
Proof. unfold finish_failed. ctl_tac. Qed.

Hint Rewrite ctl_start ctl_pause ctl_resume ctl_stop ctl_finish_stopped
  ctl_finish_failed : ctl.

Lemma ctl_settle (t : Z) (o : Outcome) (w : World) : ctl (settle t o w) = ctl w.
Proof. unfold settle. ctl_tac. Qed.

Lemma ctl_trayPause (e : Env) (w : World) : ctl (trayPause e w) = ctl w.
Proof. unfold trayPause. ctl_tac. Qed.

Hint Rewrite ctl_settle ctl_trayPause : ctl.

Lemma ctl_disk (w w' : World) : ctl w' = ctl w -> disk w' = disk w.
Proof. unfold ctl. congruence. Qed.

Lemma ctl_ap (w w' : World) : ctl w' = ctl w -> ap w' = ap w.
Proof. unfold ctl. congruence. Qed.

Lemma ctl_win (w w' : World) : ctl w' = ctl w -> win w' = win w.
Proof. unfold ctl. congruence. Qed.

Lemma disk_send (p : Payload) (w : World) : disk (_send p w) = disk w.
Proof. apply _send_frame. Qed.

Lemma ap_send (p : Payload) (w : World) : ap (_send p w) = ap w.
Proof. apply _send_frame. Qed.

Lemma runner_send (p : Payload) (w : World) : runner (_send p w) = runner w.
Proof. apply _send_frame. Qed.

Lemma win_send (p : Payload) (w : World) : win (_send p w) = win w.
Proof. apply _send_frame. Qed.

Lemma inflight_send (p : Payload) (w : World) : inflight (_send p w) = inflight w.
Proof. apply _send_frame. Qed.

Lemma loadCfg_send (p : Payload) (w : World) : loadCfg (_send p w) = loadCfg w.
Proof. unfold loadCfg. now rewrite disk_send. Qed.

Lemma ap_audit (t : Z) (ty : string) (d : json) (w : World) : ap (audit t ty d w) = ap w.
Proof. reflexivity. Qed.

Lemma runner_audit (t : Z) (ty : string) (d : json) (w : World) :
  runner (audit t ty d w) = runner w.
Proof. reflexivity. Qed.

Lemma win_audit (t : Z) (ty : string) (d : json) (w : World) : win (audit t ty d w) = win w.
Proof. reflexivity. Qed.

Lemma inflight_audit (t : Z) (ty : string) (d : json) (w : World) :
  inflight (audit t ty d w) = inflight w.
Proof. reflexivity. Qed.

Lemma loadCfg_audit (t : Z) (ty : string) (d : json) (w : World) :
  loadCfg (audit t ty d w) = loadCfg w.
Proof. reflexivity. Qed.

Lemma is_takeover_blind : hotkey_blind is_takeover.
Proof. intros d. repeat split; reflexivity. Qed.

Lemma is_disarm_blind : hotkey_blind is_disarm.
Proof. intros d. repeat split; reflexivity. Qed.

Lemma tally_audit (p : string -> json -> bool) (t : Z) (ty : string) (d : json) (w : World) :
  tally p (audit t ty d w)
  = (tally p w + if p (Js.or_else ty "UNKNOWN") (auditData d) then 1 else 0)%nat.
Proof.
  unfold tally, audit, on_disk, auditEvent, writeAuditState. cbn.
  rewrite List.filter_app, length_app. cbn.
  destruct (p (Js.or_else ty "UNKNOWN") (auditData d)); reflexivity.
Qed.

Lemma tally_audit_other (p : string -> json -> bool) (t : Z) (ty : string) (d : json)
    (w : World) :
  p (Js.or_else ty "UNKNOWN") (auditData d) = false -> tally p (audit t ty d w) = tally p w.
Proof. intros H. rewrite tally_audit, H. lia. Qed.

Lemma tally_disk (p : string -> json -> bool) (w w' : World) :
  disk w' = disk w -> tally p w' = tally p w.
Proof. unfold tally. now intros ->. Qed.

Lemma tally_log (p : string -> json -> bool) (w w' : World) :
  audit_log (disk w') = audit_log (disk w) -> tally p w' = tally p w.
Proof. unfold tally. now intros ->. Qed.

Lemma tally_ctl (p : string -> json -> bool) (w w' : World) :
  ctl w' = ctl w -> tally p w' = tally p w.
Proof. intros H. apply tally_disk, ctl_disk, H. Qed.

Lemma hotkey_step_refl (w : World) : hotkey_step w w.
Proof. split; auto. Qed.

Lemma hotkey_step_trans (w1 w2 w3 : World) :
  hotkey_step w1 w2 -> hotkey_step w2 w3 -> hotkey_step w1 w3.
Proof.
  intros [r1 v1 i1 o1 c1 a1 t1] [r2 v2 i2 o2 c2 a2 t2].
  split; [congruence .. |].
  intros p Hp. rewrite t2, t1; auto.
Qed.

Lemma hotkey_step_set (hk : string) (w : World) :
  hotkey_step w (on_ap (set_registeredHotkey hk) w).
Proof. split; auto. Qed.

Lemma hotkey_step_audit (t : Z) (ty : string) (d : json) (w : World) :
  (forall p, hotkey_blind p -> p ty d = false) ->
  Js.truthy ty = true -> auditData d = d ->
  hotkey_step w (audit t ty d w).
Proof.
  intros Hb Hty Hd. split; auto.
  intros p Hp. rewrite tally_audit. unfold Js.or_else. rewrite Hty, Hd, (Hb p Hp). lia.
Qed.

Lemma unregister_hotkey_step (e : Env) (w : World) :
  hotkey_step w (unregisterAutopilotHotkey e w).
Proof.
  unfold unregisterAutopilotHotkey.
  eapply hotkey_step_trans; [|apply hotkey_step_set].
  destruct (Js.truthy (registeredHotkey (ap w))); [|apply hotkey_step_refl].
  apply hotkey_step_audit; auto. intros p Hp. apply Hp.
Qed.

Lemma try_register_hotkey_step (e : Env) (tries : list string) (w w' : World) :
  try_register e tries w = Some w' -> hotkey_step w w'.
Proof.
  induction tries as [|accel rest IH]; simpl; [discriminate|].
  destruct (shortcut_free e accel); [|exact IH].
  intros [= <-].
  eapply hotkey_step_trans; [apply hotkey_step_set|].
  apply hotkey_step_audit; auto. intros p Hp. apply Hp.
Qed.

Lemma register_hotkey_step (e : Env) (w : World) :
  hotkey_step w (snd (registerAutopilotHotkey e w)).
Proof.
  unfold registerAutopilotHotkey.
  eapply hotkey_step_trans; [apply unregister_hotkey_step|].
  destruct (try_register e hotkey_tries (unregisterAutopilotHotkey e w)) as [w'|] eqn:Ht; simpl.
  - eapply try_register_hotkey_step, Ht.
  - apply hotkey_step_audit; auto. intros p Hp. apply Hp.
Qed.

Lemma unregister_hotkey (e : Env) (w : World) :
  registeredHotkey (ap (unregisterAutopilotHotkey e w)) = "".
Proof. reflexivity. Qed.

Lemma hotkey_fields (a a' : Autopilot) :
  set_registeredHotkey "" a' = set_registeredHotkey "" a ->
  autopilotArmed a' = autopilotArmed a /\ manualOverride a' = manualOverride a
  /\ autopilotArmedAt a' = autopilotArmedAt a /\ cursorTimer a' = cursorTimer a
  /\ lastCursor a' = lastCursor a /\ ignoreMouseUntil a' = ignoreMouseUntil a.
Proof. destruct a, a'. unfold set_registeredHotkey. simpl. intros [= -> -> -> -> -> ->]. auto 10. Qed.

Lemma stopCursorWatch_ap (w : World) :
  ap (stopCursorWatch w) = set_cursorTimer false (ap w).
Proof.
  unfold stopCursorWatch. simpl. destruct (ap w) as [a b c [] l i h]; reflexivity.
Qed.

(** ** Arming and disarming *)

(** [setAutopilotArmed(false, why)]: the flag, the timer and the hotkey are
    cleared, one [AUTOPILOT_ARM_STATE {armed:false}] record is written, and
    the runner is only read (for the state message). *)
Lemma disarm_spec (e : Env) (why : string) (w : World) :
  let w' := setAutopilotArmed e false why w in
  ap w' = mkAutopilot false (manualOverride (ap w)) (autopilotArmedAt (ap w)) false
            (lastCursor (ap w)) (ignoreMouseUntil (ap w)) ""
  /\ runner w' = runner w /\ loadCfg w' = loadCfg w
  /\ win w' = win w /\ inflight w' = inflight w
  /\ forall p, hotkey_blind p ->
       tally p w' = (tally p w + if p "AUTOPILOT_ARM_STATE" (arm_state_data false why)
                                  then 1 else 0)%nat.
Proof.
  intros w'. subst w'. unfold setAutopilotArmed, _setState.
  set (w0 := on_ap (set_autopilotArmed false) w).
  change (negb (autopilotArmed (ap w0))) with true. cbv iota.
  pose proof (unregister_hotkey_step e w0) as Hu.
  pose proof (unregister_hotkey e w0) as Hk.
  set (wu := unregisterAutopilotHotkey e w0) in *.
  destruct Hu as [Hr Hw Hi Ho Hc Ha Ht].
  destruct (hotkey_fields _ _ Ha) as (F1 & F2 & F3 & F4 & F5 & F6).
  rewrite ap_send, runner_send, win_send, inflight_send, loadCfg_send.
  rewrite ap_audit, runner_audit, win_audit, inflight_audit, loadCfg_audit.
  split; [|split; [|split; [|split; [|split]]]].
  - rewrite stopCursorWatch_ap. destruct (ap wu); simpl in *. subst. reflexivity.
  - exact Hr.
  - unfold stopCursorWatch, loadCfg in *. simpl. exact Hc.
  - exact Hw.
  - exact Hi.
  - intros p Hp. erewrite tally_disk by apply disk_send. rewrite tally_audit.
    assert (Hoff : autopilotArmed (ap (stopCursorWatch wu)) = false).
    { rewrite stopCursorWatch_ap.
      transitivity (autopilotArmed (ap wu)); [reflexivity|]. now rewrite F1. }
    rewrite Hoff.
    erewrite (tally_disk p wu) by reflexivity. rewrite (Ht p Hp). reflexivity.
Qed.

(** [setAutopilotArmed(true, why)]: the flag is set, the arm time and the
    ignore window are stamped, the baseline is the current pointer
    position, the poll runs. *)
Lemma arm_spec (e : Env) (why : string) (w : World) :
  let w' := setAutopilotArmed e true why w in
  autopilotArmed (ap w') = true /\ autopilotArmedAt (ap w') = now e
  /\ ignoreMouseUntil (ap w') = now e + ARM_GRACE_MS
  /\ lastCursor (ap w') = Some (cursor e) /\ cursorTimer (ap w') = true
  /\ manualOverride (ap w') = manualOverride (ap w)
  /\ runner w' = runner w /\ loadCfg w' = loadCfg w
  /\ forall p, hotkey_blind p ->
       tally p w' = (tally p w + if p "AUTOPILOT_ARM_STATE" (arm_state_data true why)
                                  then 1 else 0)%nat.
Proof.
  intros w'. subst w'. unfold setAutopilotArmed, _setState.
  set (w0 := on_ap (set_autopilotArmed true) w).
  change (negb (autopilotArmed (ap w0))) with false. cbv iota.
  set (w1 := on_ap (set_lastCursor (Some (cursor e)))
               (on_ap (fun a => set_ignoreMouseUntil (autopilotArmedAt a + ARM_GRACE_MS) a)
                  (on_ap (set_autopilotArmedAt (now e)) w0))).
  cbv zeta.
  pose proof (register_hotkey_step e w1) as Hu.
  set (wu := snd (registerAutopilotHotkey e w1)) in *.
  destruct Hu as [Hr Hw Hi Ho Hc Ha Ht].
  destruct (hotkey_fields _ _ Ha) as (F1 & F2 & F3 & F4 & F5 & F6).
  rewrite ap_send, runner_send, loadCfg_send.
  rewrite ap_audit, runner_audit, loadCfg_audit.
  unfold startCursorWatch.
  assert (Hap : ap (on_ap (set_cursorTimer true)
                  (on_ap (set_lastCursor (Some (cursor e))) (stopCursorWatch wu)))
                = set_cursorTimer true (set_lastCursor (Some (cursor e))
                    (set_cursorTimer false (ap wu)))).
  { cbn [ap on_ap]. now rewrite stopCursorWatch_ap. }
  rewrite Hap. cbn [autopilotArmed autopilotArmedAt ignoreMouseUntil lastCursor
                    cursorTimer manualOverride set_cursorTimer set_lastCursor].
  rewrite F1, F2, F3, F6.
  split; [reflexivity|]. split; [reflexivity|]. split; [reflexivity|].
  split; [reflexivity|]. split; [reflexivity|]. split; [reflexivity|].
  split; [exact Hr|]. split; [exact Hc|].
  intros p Hp. erewrite tally_disk by apply disk_send. rewrite tally_audit.
    erewrite (tally_disk p wu) by reflexivity. rewrite (Ht p Hp). reflexivity.
Qed.

(** ** Takeover *)

Lemma pause_runner (t : Z) (w : World) :
  runner (snd (pause t w))
  = if running (runner w) then set_paused true (runner w) else runner w.
Proof.
  unfold pause, _setState, _log. destruct (running (runner w)); simpl; [|reflexivity].
  now rewrite !runner_send.
Qed.

(** [triggerManualTakeover(why)] on an armed autopilot. *)
Lemma takeover_spec (e : Env) (why : string) (w : World) :
  autopilotArmed (ap w) = true ->
  let w' := triggerManualTakeover e why w in
  ap w' = mkAutopilot false true (autopilotArmedAt (ap w)) false
            (lastCursor (ap w)) (ignoreMouseUntil (ap w)) ""
  /\ runner w' = (if running (runner w) then set_paused true (runner w) else runner w)
  /\ loadCfg w' = loadCfg w
  /\ forall p, hotkey_blind p ->
       tally p w' = (tally p w
                     + (if p "MANUAL_TAKEOVER" (JObj [("why", JStr why)]) then 1 else 0)
                     + (if p "AUTOPILOT_ARM_STATE" (arm_state_data false "manual_takeover")
                        then 1 else 0))%nat.
Proof.
  intros Harmed w'. subst w'. unfold triggerManualTakeover. rewrite Harmed. cbv iota beta delta [negb].
  set (w2 := audit (now e) "MANUAL_TAKEOVER" (JObj [("why", JStr why)])
               (on_ap (set_manualOverride true) w)).
  cbv zeta.
  destruct (disarm_spec e "manual_takeover" w2) as (Ha & Hr & Hc & Hw & Hi & Ht).
  set (w3 := setAutopilotArmed e false "manual_takeover" w2) in *.
  assert (Hctl : ctl (_send (StateMsg (state (_send (LogLine (now e) (takeover_line why))
                   (_log (now e) (takeover_line why) (snd (pause (now e) w3))))))
                   (_send (LogLine (now e) (takeover_line why))
                      (_log (now e) (takeover_line why) (snd (pause (now e) w3)))))
                 = ctl w3).
  { now rewrite !ctl_send, ctl_log, ctl_pause. }
  split; [|split; [|split]].
  - rewrite (ctl_ap _ _ Hctl), Ha. reflexivity.
  - rewrite !runner_send. unfold _log. rewrite runner_send, pause_runner, Hr. reflexivity.
  - unfold loadCfg in *. rewrite (ctl_disk _ _ Hctl). exact Hc.
  - intros p Hp. rewrite (tally_ctl p _ _ Hctl), (Ht p Hp).
    unfold w2. rewrite tally_audit. erewrite (tally_disk p w) by reflexivity. reflexivity.
Qed.

Lemma takeover_disarmed (e : Env) (why : string) (w : World) :
  autopilotArmed (ap w) = false -> triggerManualTakeover e why w = w.
Proof. intros H. unfold triggerManualTakeover. now rewrite H. Qed.

(** The poll callback, case by case. *)
Lemma cursorTick_cases (e : Env) (w : World) :
  cursorTick e w =
    if negb (autopilotArmed (ap w)) then w
    else
      let w1 := on_ap (set_lastCursor (Some (cursor e))) w in
      if in_grace e w then w1
      else match lastCursor (ap w) with
           | None => w1
           | Some q =>
               if (now e <? ignoreMouseUntil (ap w))%Z then w1
               else if (MOUSE_DIST <=? manhattan (cursor e) q)%Z
                    then triggerManualTakeover e "MOUSE_MOVE" w1
                    else w1
           end.
Proof. reflexivity. Qed.

Lemma grace_elapsed (e : Env) (w : World) :
  ARM_GRACE_MS <= now e - autopilotArmedAt (ap w) -> in_grace e w = false.
Proof.
  intros H. unfold in_grace. apply andb_false_iff. right. apply Z.ltb_ge, H.
Qed.

(** C6.  In an armed state every poll makes the current sample the new
    baseline.  With the grace period elapsed and the ignore window expired,
    a sample at Manhattan distance at least 46 from the previous sample
    fires exactly one takeover (one MANUAL_TAKEOVER record) and exactly one
    disarm (one AUTOPILOT_ARM_STATE record with armed:false) and leaves the
    autopilot disarmed; a sample at distance 45 or less changes nothing
    but the baseline. *)
Theorem poll_threshold (e : Env) (w : World) :
  autopilotArmed (ap w) = true ->
  lastCursor (ap (cursorTick e w)) = Some (cursor e)
  /\ forall q,
       lastCursor (ap w) = Some q ->
       ARM_GRACE_MS <= now e - autopilotArmedAt (ap w) ->
       ignoreMouseUntil (ap w) <= now e ->
       (46 <= manhattan (cursor e) q ->
          tally is_takeover (cursorTick e w) = S (tally is_takeover w)
          /\ tally is_disarm (cursorTick e w) = S (tally is_disarm w)
          /\ autopilotArmed (ap (cursorTick e w)) = false
          /\ manualOverride (ap (cursorTick e w)) = true)
       /\ (manhattan (cursor e) q <= 45 ->
             cursorTick e w = on_ap (set_lastCursor (Some (cursor e))) w
             /\ tally is_takeover (cursorTick e w) = tally is_takeover w
             /\ tally is_disarm (cursorTick e w) = tally is_disarm w
             /\ autopilotArmed (ap (cursorTick e w)) = true).
Proof.
  intros Harmed.
  set (w1 := on_ap (set_lastCursor (Some (cursor e))) w).
  assert (Harmed1 : autopilotArmed (ap w1) = true) by exact Harmed.
  destruct (takeover_spec e "MOUSE_MOVE" w1 Harmed1) as (Hap & _ & _ & Ht).
  split.
  - rewrite cursorTick_cases, Harmed. cbv zeta. fold w1. simpl negb. cbv iota.
    destruct (in_grace e w); [reflexivity|].
    destruct (lastCursor (ap w)) as [q|]; [|reflexivity].
    destruct (now e <? ignoreMouseUntil (ap w))%Z; [reflexivity|].
    destruct (MOUSE_DIST <=? manhattan (cursor e) q)%Z; [|reflexivity].
    rewrite Hap. reflexivity.
  - intros q Hq Hgrace Hign.
    rewrite cursorTick_cases, Harmed, (grace_elapsed e w Hgrace), Hq.
    cbv zeta. fold w1. simpl negb. cbv iota.
    replace (now e <? ignoreMouseUntil (ap w))%Z with false
      by (symmetry; apply Z.ltb_ge, Hign).
    split.
    + intros Hd. replace (MOUSE_DIST <=? manhattan (cursor e) q)%Z with true
        by (symmetry; apply Z.leb_le, Hd).
      rewrite (Ht is_takeover is_takeover_blind), (Ht is_disarm is_disarm_blind), Hap.
      simpl. repeat split.
      * erewrite (tally_disk is_takeover w w1) by reflexivity. lia.
      * erewrite (tally_disk is_disarm w w1) by reflexivity. lia.
    + intros Hd. replace (MOUSE_DIST <=? manhattan (cursor e) q)%Z with false
        by (symmetry; apply Z.leb_gt; unfold MOUSE_DIST; lia).
      repeat split. exact Harmed.
Qed.

(** C7.  While the autopilot is armed (at a non-zero clock reading) and
    fewer than 1500 ms have passed since arming, a poll only records the
    sample as the new baseline, whatever the pointer position: no takeover
    is written, the autopilot stays armed, nothing else changes. *)
Theorem grace_no_takeover (e : Env) (w : World) :
  autopilotArmed (ap w) = true ->
  autopilotArmedAt (ap w) <> 0 ->
  now e - autopilotArmedAt (ap w) < ARM_GRACE_MS ->
  cursorTick e w = on_ap (set_lastCursor (Some (cursor e))) w
  /\ tally is_takeover (cursorTick e w) = tally is_takeover w
  /\ autopilotArmed (ap (cursorTick e w)) = true
  /\ manualOverride (ap (cursorTick e w)) = manualOverride (ap w)
  /\ lastCursor (ap (cursorTick e w)) = Some (cursor e).
Proof.
  intros Harmed Hat Hlt.
  assert (Hg : in_grace e w = true).
  { unfold in_grace. apply andb_true_iff. split.
    - apply negb_true_iff, Z.eqb_neq, Hat.
    - apply Z.ltb_lt, Hlt. }
  assert (Heq : cursorTick e w = on_ap (set_lastCursor (Some (cursor e))) w).
  { rewrite cursorTick_cases, Harmed, Hg. reflexivity. }
  rewrite Heq. repeat split. exact Harmed.
Qed.

(** ** Which turns of the event loop can arm *)

Lemma permRequest_frame (t : Z) (c why : string) (resp : option Z) (w : World) :
  let w' := snd (permRequest t c why resp w) in
  ap w' = ap w /\ runner w' = runner w /\ win w' = win w /\ inflight w' = inflight w
  /\ forall p, (forall d, p "PERMISSION_DECISION" d = false) -> tally p w' = tally p w.
Proof.
  intros w'. subst w'.
  destruct (undecided_dec (perm_key c) w) as [Hu | [Hc | Hc]].
  - rewrite permRequest_fresh by exact Hu. cbv zeta.
    destruct (answer resp =? 2)%Z; [|destruct (answer resp =? 1)%Z];
      cbn [snd]; repeat split; intros p Hp; rewrite tally_audit;
      cbn [Js.or_else Js.truthy auditData permission_data]; rewrite Hp;
      (erewrite tally_log; [apply Nat.add_0_r | reflexivity]).
  - erewrite permRequest_cached by eauto. repeat split.
  - erewrite permRequest_cached by eauto. repeat split.
Qed.

Lemma budget_same (w w' : World) :
  autopilotArmed (ap w') = autopilotArmed (ap w) ->
  tally is_takeover w' = tally is_takeover w ->
  (autopilotArmed (ap w') = true -> autopilotArmed (ap w) = true)
  /\ (takeover_budget w' <= takeover_budget w)%nat.
Proof. unfold takeover_budget. intros -> ->. split; [auto | lia]. Qed.

Lemma budget_ctl (w w' : World) :
  ctl w' = ctl w ->
  (autopilotArmed (ap w') = true -> autopilotArmed (ap w) = true)
  /\ (takeover_budget w' <= takeover_budget w)%nat.
Proof.
  intros H. apply budget_same; [f_equal; apply ctl_ap, H | apply tally_ctl, H].
Qed.

Lemma budget_audit (t : Z) (ty : string) (d : json) (w : World) :
  is_takeover (Js.or_else ty "UNKNOWN") (auditData d) = false ->
  (autopilotArmed (ap (audit t ty d w)) = true -> autopilotArmed (ap w) = true)
  /\ (takeover_budget (audit t ty d w) <= takeover_budget w)%nat.
Proof.
  intros H. apply budget_same; [reflexivity|]. rewrite tally_audit, H. lia.
Qed.

Lemma budget_disarm (e : Env) (why : string) (w : World) :
  (autopilotArmed (ap (setAutopilotArmed e false why w)) = true ->
     autopilotArmed (ap w) = true)
  /\ (takeover_budget (setAutopilotArmed e false why w) <= takeover_budget w)%nat.
Proof.
  destruct (disarm_spec e why w) as (Ha & _ & _ & _ & _ & Ht).
  unfold takeover_budget. rewrite Ha, (Ht is_takeover is_takeover_blind). simpl.
  split; [discriminate | lia].
Qed.

Lemma budget_takeover (e : Env) (why : string) (w : World) :
  (autopilotArmed (ap (triggerManualTakeover e why w)) = true ->
     autopilotArmed (ap w) = true)
  /\ (takeover_budget (triggerManualTakeover e why w) <= takeover_budget w)%nat.
Proof.
  destruct (autopilotArmed (ap w)) eqn:Harmed.
  - destruct (takeover_spec e why w Harmed) as (Ha & _ & _ & Ht).
    unfold takeover_budget. rewrite Ha, (Ht is_takeover is_takeover_blind), Harmed.
    simpl. split; [auto | lia].
  - rewrite takeover_disarmed by exact Harmed. rewrite Harmed. split; [auto | lia].
Qed.

Lemma budget_cursorTick (e : Env) (w : World) :
  (autopilotArmed (ap (cursorTick e w)) = true -> autopilotArmed (ap w) = true)
  /\ (takeover_budget (cursorTick e w) <= takeover_budget w)%nat.
Proof.
  rewrite cursorTick_cases. cbv zeta.
  set (w1 := on_ap (set_lastCursor (Some (cursor e))) w).
  assert (H1 : (autopilotArmed (ap w1) = true -> autopilotArmed (ap w) = true)
               /\ (takeover_budget w1 <= takeover_budget w)%nat).
  { apply budget_same; reflexivity. }
  destruct (negb (autopilotArmed (ap w))); [split; [auto | lia]|].
  destruct (in_grace e w); [exact H1|].
  destruct (lastCursor (ap w)) as [q|]; [|exact H1].
  destruct (now e <? ignoreMouseUntil (ap w))%Z; [exact H1|].
  destruct (MOUSE_DIST <=? manhattan (cursor e) q)%Z; [|exact H1].
  destruct (budget_takeover e "MOUSE_MOVE" w1) as [Ha Hb].
  destruct H1 as [Ha1 Hb1]. split; [auto | lia].
Qed.

(** A turn that is not an arm request never arms, and never raises the
    takeover budget. *)
Lemma step_no_arm (e : Env) (ev : Event) (w : World) :
  is_arm ev = false ->
  (autopilotArmed (ap (step e ev w)) = true -> autopilotArmed (ap w) = true)
  /\ (takeover_budget (step e ev w) <= takeover_budget w)%nat.
Proof.
  intros Hev. destruct ev; try discriminate Hev; unfold step.
  - (* AppReady *)
    apply budget_same; [reflexivity|].
    rewrite tally_audit_other by reflexivity. apply tally_disk. reflexivity.
  - (* TrayDisarm *)
    destruct (budget_disarm e "tray_disarm" w) as [Ha Hb].
    destruct (budget_ctl (setAutopilotArmed e false "tray_disarm" w)
                (_log (now e) "AUTOPILOT DISARMED." (setAutopilotArmed e false "tray_disarm" w)))
      as [Ha' Hb']; [apply ctl_log|].
    split; [auto | lia].
  - (* TrayDiagnostics *)
    unfold showDiagnostics. apply budget_same; [reflexivity|].
    erewrite tally_disk by reflexivity. apply tally_audit_other. reflexivity.
  - apply budget_ctl, ctl_trayPause.
  - apply budget_ctl, ctl_stop.
  - (* IpcSetApiKey *)
    unfold setStoredApiKey.
    destruct (negb (Js.truthy (Js.trim apiKey))); [|destruct (negb (can_encrypt e))];
      apply budget_audit; reflexivity.
  - apply budget_ctl, ctl_start.
  - apply budget_ctl, ctl_pause.
  - apply budget_ctl, ctl_resume.
  - apply budget_ctl, ctl_stop.
  - split; [auto | lia].
  - apply budget_disarm.
  - (* IpcInjected *)
    unfold setInjectedIgnoreWindow. destruct (0 <? ms)%Z; [|split; [auto | lia]].
    apply budget_same; [reflexivity|].
    rewrite tally_audit_other by reflexivity. apply tally_disk. reflexivity.
  - (* IpcPermRequest *)
    destruct (permRequest_frame (now e) className (Js.or_else why "") resp w)
      as (Ha & _ & _ & _ & Ht).
    apply budget_same; [f_equal; exact Ha | apply Ht; reflexivity].
  - (* HotkeyPressed *)
    destruct (Js.truthy (registeredHotkey (ap w))); [|split; [auto | lia]].
    unfold hotkeyFired. generalize (budget_takeover e "SPACE" w).
    destruct (autopilotArmed (ap w)) eqn:Harmed; [auto | intros _; split; [congruence | lia]].
  - (* CursorPoll *)
    destruct (cursorTimer (ap w)); [apply budget_cursorTick | split; [auto | lia]].
  - destruct (inflight w); [split; [auto | lia] | apply budget_ctl, ctl_log].
  - destruct (inflight w); [split; [auto | lia] | apply budget_ctl, ctl_pushStep].
  - destruct (inflight w) as [|n]; [split; [auto | lia]|].
    apply budget_ctl. rewrite ctl_settle. reflexivity.
Qed.

(** The [!r.ok || r.decision !== "allow"] test of both arm handlers. *)
Lemma arm_gate (r : PermReply) :
  perm_ok r = true ->
  (negb (perm_ok r) || negb (String.eqb (decision r) "allow") = false
     <-> decision r = "allow").
Proof.
  intros ->. simpl. rewrite negb_false_iff. apply String.eqb_eq.
Qed.

Lemma permRequest_ok (t : Z) (c why : string) (resp : option Z) (w : World) :
  perm_ok (fst (permRequest t c why resp w)) = true.
Proof.
  destruct (undecided_dec (perm_key c) w) as [Hu | [Hc | Hc]].
  - rewrite permRequest_fresh by exact Hu. cbv zeta.
    destruct (answer resp =? 2)%Z; [|destruct (answer resp =? 1)%Z]; reflexivity.
  - erewrite permRequest_cached by eauto. reflexivity.
  - erewrite permRequest_cached by eauto. reflexivity.
Qed.

Lemma trayArm_cases (e : Env) (resp : option Z) (w : World) :
  let r := fst (permRequest (now e) "os_control" tray_why resp w) in
  let w1 := snd (permRequest (now e) "os_control" tray_why resp w) in
  (decision r = "allow" /\
     trayArm e resp w =
       _log (now e) "AUTOPILOT ARMED. Space or human mouse move -> takeover+pause."
         (setAutopilotArmed e true "tray_arm" w1))
  \/ (decision r <> "allow" /\
        trayArm e resp w = _log (now e) "AUTOPILOT_ARM denied by permission." w1).
Proof.
  intros r w1. unfold trayArm, trayArm_then. fold tray_why.
  pose proof (permRequest_ok (now e) "os_control" tray_why resp w) as Hok.
  pose proof (arm_gate r Hok) as Hg. subst r w1.
  destruct (permRequest (now e) "os_control" tray_why resp w) as [r w1]. simpl in *.
  destruct (negb (perm_ok r) || negb (String.eqb (decision r) "allow")).
  - right. split; [|reflexivity]. intros H. apply Hg in H. discriminate.
  - left. split; [|reflexivity]. apply Hg. reflexivity.
Qed.

Lemma ipcArm_cases (e : Env) (why : string) (resp : option Z) (w : World) :
  let r := fst (permRequest (now e) "os_control" (Js.or_else why "IPC request") resp w) in
  let w1 := snd (permRequest (now e) "os_control" (Js.or_else why "IPC request") resp w) in
  (decision r = "allow" /\
     ipcArm e why resp w = setAutopilotArmed e true (Js.or_else why "ipc_arm") w1)
  \/ (decision r <> "allow" /\ ipcArm e why resp w = w1).
Proof.
  intros r w1. unfold ipcArm, ipcArm_then.
  pose proof (permRequest_ok (now e) "os_control" (Js.or_else why "IPC request") resp w) as Hok.
  pose proof (arm_gate r Hok) as Hg. subst r w1.
  destruct (permRequest (now e) "os_control" (Js.or_else why "IPC request") resp w) as [r w1].
  simpl in *.
  destruct (negb (perm_ok r) || negb (String.eqb (decision r) "allow")).
  - right. split; [|reflexivity]. intros H. apply Hg in H. discriminate.
  - left. split; [|reflexivity]. apply Hg. reflexivity.
Qed.

(** C3.  A turn of the event loop that takes [autopilotArmed] from false to
    true is one of the two arm handlers (tray menu or IPC), and its
    [permRequest("os_control", _)] returned the decision "allow" just
    before [setAutopilotArmed(true, _)] ran; and an arm handler whose
    permission request does not return "allow" leaves the autopilot
    variables untouched. *)
Theorem armed_only_by_grant (e : Env) (ev : Event) (w : World) :
  (autopilotArmed (ap w) = false ->
   autopilotArmed (ap (step e ev w)) = true ->
   exists why resp,
     (ev = TrayArm resp /\ why = tray_why
      \/ exists why0, ev = IpcArm why0 resp /\ why = Js.or_else why0 "IPC request")
     /\ decision (fst (permRequest (now e) "os_control" why resp w)) = "allow")
  /\ (forall resp,
        decision (fst (permRequest (now e) "os_control" tray_why resp w)) <> "allow" ->
        ap (step e (TrayArm resp) w) = ap w)
  /\ (forall why0 resp,
        decision (fst (permRequest (now e) "os_control"
                         (Js.or_else why0 "IPC request") resp w)) <> "allow" ->
        ap (step e (IpcArm why0 resp) w) = ap w).
Proof.
  split; [|split].
  - intros Hoff Hon. destruct (is_arm ev) eqn:Hev.
    + destruct ev; try discriminate Hev; simpl in Hon.
      * exists tray_why, resp. split; [left; auto|].
        destruct (trayArm_cases e resp w) as [[Hd _] | [_ Heq]]; [exact Hd|].
        rewrite Heq in Hon. unfold _log in Hon. rewrite ap_send in Hon.
        destruct (permRequest_frame (now e) "os_control" tray_why resp w) as (Ha & _).
        rewrite Ha in Hon. congruence.
      * exists (Js.or_else why "IPC request"), resp. split; [right; eauto|].
        destruct (ipcArm_cases e why resp w) as [[Hd _] | [_ Heq]]; [exact Hd|].
        rewrite Heq in Hon.
        destruct (permRequest_frame (now e) "os_control"
                    (Js.or_else why "IPC request") resp w) as (Ha & _).
        rewrite Ha in Hon. congruence.
    + destruct (step_no_arm e ev w Hev) as [Hmono _]. apply Hmono in Hon. congruence.
  - intros resp Hd. simpl.
    destruct (trayArm_cases e resp w) as [[Hd' _] | [_ Heq]]; [contradiction|].
    rewrite Heq. unfold _log. rewrite ap_send.
    apply (permRequest_frame (now e) "os_control" tray_why resp w).
  - intros why0 resp Hd. simpl.
    destruct (ipcArm_cases e why0 resp w) as [[Hd' _] | [_ Heq]]; [contradiction|].
    rewrite Heq.
    apply (permRequest_frame (now e) "os_control" (Js.or_else why0 "IPC request") resp w).
Qed.

(** C10.  [triggerManualTakeover] on a disarmed autopilot returns the world
    unchanged (no override flag, no audit record, no pause), and so do the
    hotkey callback and the poll callback.  On an armed one the disarm has
    taken effect, with the runner still untouched, before [runner.pause()]
    is called, and the autopilot is disarmed when it returns.  So along any
    run without an arm request the number of MANUAL_TAKEOVER records grows
    by at most one, and by none if the run starts disarmed. *)
Theorem takeover_at_most_once (e : Env) (why : string) (w : World) :
  (autopilotArmed (ap w) = false ->
     triggerManualTakeover e why w = w /\ hotkeyFired e w = w /\ cursorTick e w = w)
  /\ (autopilotArmed (ap w) = true ->
        let w2 := audit (now e) "MANUAL_TAKEOVER" (JObj [("why", JStr why)])
                    (on_ap (set_manualOverride true) w) in
        let w3 := setAutopilotArmed e false "manual_takeover" w2 in
        autopilotArmed (ap w3) = false /\ runner w3 = runner w
        /\ autopilotArmed (ap (triggerManualTakeover e why w)) = false
        /\ tally is_takeover (triggerManualTakeover e why w) = S (tally is_takeover w))
  /\ (forall evs : list (Env * Event),
        Forall (fun x => is_arm (snd x) = false) evs ->
        (tally is_takeover (run evs w)
         <= tally is_takeover w + b2n (autopilotArmed (ap w)))%nat).
Proof.
  split; [|split].
  - intros Hoff. split; [apply takeover_disarmed, Hoff|].
    unfold hotkeyFired. rewrite cursorTick_cases, Hoff. split; reflexivity.
  - intros Harmed w2 w3.
    destruct (disarm_spec e "manual_takeover" w2) as (Ha & Hr & _).
    destruct (takeover_spec e why w Harmed) as (Ha' & _ & _ & Ht).
    fold w3 in Ha, Hr. rewrite Ha, Hr, Ha', (Ht is_takeover is_takeover_blind).
    repeat split. simpl. lia.
  - intros evs Hevs. change (tally is_takeover (run evs w) <= takeover_budget w)%nat.
    revert w. induction Hevs as [|[e' ev] evs Hev _ IH]; intros w; simpl.
    + unfold takeover_budget. lia.
    + destruct (step_no_arm e' ev w Hev) as [_ Hb].
      specialize (IH (step e' ev w)). lia.
Qed.

(** ** Permission gate: what is persisted and what is audited *)

Lemma loadCfg_ctl (w w' : World) : ctl w' = ctl w -> loadCfg w' = loadCfg w.
Proof. intros H. unfold loadCfg. now rewrite (ctl_disk _ _ H). Qed.

Lemma cursorTick_cfg (e : Env) (w : World) : loadCfg (cursorTick e w) = loadCfg w.
Proof.
  rewrite cursorTick_cases. cbv zeta.
  set (w1 := on_ap (set_lastCursor (Some (cursor e))) w).
  destruct (negb (autopilotArmed (ap w))) eqn:Harmed; [reflexivity|].
  destruct (in_grace e w); [reflexivity|].
  destruct (lastCursor (ap w)) as [q|]; [|reflexivity].
  destruct (now e <? ignoreMouseUntil (ap w))%Z; [reflexivity|].
  destruct (MOUSE_DIST <=? manhattan (cursor e) q)%Z; [|reflexivity].
  apply negb_false_iff in Harmed.
  apply (takeover_spec e "MOUSE_MOVE" w1 Harmed).
Qed.

(** A persisted "allow" or "deny" survives every callback of [step], in
    which a message box is answered at once. *)
Lemma step_keeps_decided (e : Env) (ev : Event) (w : World) (k dec : string) :
  loadCfg w !! k = Some dec -> dec = "allow" \/ dec = "deny" ->
  loadCfg (step e ev w) !! k = Some dec.
Proof.
  intros Hk Hdec.
  assert (Hsame : forall w', loadCfg w' = loadCfg w -> loadCfg w' !! k = Some dec)
    by (intros w' ->; exact Hk).
  destruct ev; unfold step.
  - apply Hsame. reflexivity.
  - (* TrayArm *)
    pose proof (permRequest_keeps (now e) "os_control" tray_why resp w k dec Hk Hdec) as Hp.
    destruct (trayArm_cases e resp w) as [[_ Heq] | [_ Heq]]; rewrite Heq; unfold _log;
      rewrite loadCfg_send; [|exact Hp].
    destruct (arm_spec e "tray_arm" (snd (permRequest (now e) "os_control" tray_why resp w)))
      as (_ & _ & _ & _ & _ & _ & _ & Hc & _).
    rewrite Hc. exact Hp.
  - apply Hsame. unfold _log. rewrite loadCfg_send. apply (disarm_spec e "tray_disarm" w).
  - apply Hsame. reflexivity.
  - apply Hsame, loadCfg_ctl, ctl_trayPause.
  - apply Hsame, loadCfg_ctl, ctl_stop.
  - apply Hsame. unfold setStoredApiKey.
    destruct (negb (Js.truthy (Js.trim apiKey))); [|destruct (negb (can_encrypt e))];
      reflexivity.
  - apply Hsame, loadCfg_ctl, ctl_start.
  - apply Hsame, loadCfg_ctl, ctl_pause.
  - apply Hsame, loadCfg_ctl, ctl_resume.
  - apply Hsame, loadCfg_ctl, ctl_stop.
  - exact Hk.
  - (* IpcArm *)
    pose proof (permRequest_keeps (now e) "os_control" (Js.or_else why "IPC request")
                  resp w k dec Hk Hdec) as Hp.
    destruct (ipcArm_cases e why resp w) as [[_ Heq] | [_ Heq]]; rewrite Heq; [|exact Hp].
    destruct (arm_spec e (Js.or_else why "ipc_arm")
                (snd (permRequest (now e) "os_control" (Js.or_else why "IPC request") resp w)))
      as (_ & _ & _ & _ & _ & _ & _ & Hc & _).
    rewrite Hc. exact Hp.
  - apply Hsame. apply (disarm_spec e (Js.or_else why "ipc_disarm") w).
  - apply Hsame. unfold setInjectedIgnoreWindow. destruct (0 <? ms)%Z; reflexivity.
  - apply permRequest_keeps; assumption.
  - apply Hsame. destruct (Js.truthy (registeredHotkey (ap w))); [|reflexivity].
    unfold hotkeyFired. destruct (autopilotArmed (ap w)) eqn:Harmed; [|reflexivity].
    apply (takeover_spec e "SPACE" w Harmed).
  - apply Hsame. destruct (cursorTimer (ap w)); [apply cursorTick_cfg | reflexivity].
  - apply Hsame. destruct (inflight w); [reflexivity | apply loadCfg_ctl, ctl_log].
  - apply Hsame. destruct (inflight w); [reflexivity | apply loadCfg_ctl, ctl_pushStep].
  - apply Hsame. destruct (inflight w); [reflexivity|].
    apply loadCfg_ctl. rewrite ctl_settle. reflexivity.
Qed.

(** C5 as the code has it.  A request that is resolved by the prompt appends
    exactly one PERMISSION_DECISION record holding the class, the decision
    returned and the mode; a request served from the persisted decisions
    returns [cached = true] and appends nothing (the world is unchanged). *)
Theorem fresh_request_audited (t : Z) (c why : string) (resp : option Z) (w : World) :
  (undecided (perm_key c) w ->
     exists r,
       audit_log (disk (snd (permRequest t c why resp w))) = (audit_log (disk w) ++ [r])%list
       /\ ts r = t /\ type r = "PERMISSION_DECISION"
       /\ data r = JObj [("class", JStr (perm_key c));
                         ("decision", JStr (decision (fst (permRequest t c why resp w))));
                         ("mode", JStr (mode_of resp))]
       /\ cached (fst (permRequest t c why resp w)) = false)
  /\ (~ undecided (perm_key c) w ->
        cached (fst (permRequest t c why resp w)) = true
        /\ snd (permRequest t c why resp w) = w).
Proof.
  split.
  - intros Hu. rewrite permRequest_fresh by exact Hu. cbv zeta. unfold mode_of.
    destruct (answer resp =? 2)%Z eqn:H2.
    + apply Z.eqb_eq in H2. rewrite H2. eexists. repeat split.
    + destruct (answer resp =? 1)%Z; eexists; repeat split.
  - intros Hn. destruct (undecided_dec (perm_key c) w) as [Hu | [Hc | Hc]];
      [contradiction | |]; erewrite permRequest_cached by eauto; split; reflexivity.
Qed.

Lemma emitted_push (p : Output -> bool) (o : Output) (w : World) :
  emitted p (push o w) = (emitted p w + b2n (p o))%nat.
Proof.
  unfold emitted, push. simpl. rewrite List.filter_app, length_app. simpl.
  destruct (p o); reflexivity.
Qed.

Lemma emitted_send (p : Output -> bool) (m : Payload) (w : World) :
  emitted p (_send m w) = (emitted p w + b2n (win w && p (Send m)))%nat.
Proof.
  unfold _send. destruct (win w); simpl; [apply emitted_push | lia].
Qed.

Lemma emitted_on_runner (p : Output -> bool) (f : Runner -> Runner) (w : World) :
  emitted p (on_runner f w) = emitted p w.
Proof. reflexivity. Qed.

Lemma runner_showStopReport (t : Z) (reason : string) (w : World) :
  runner (_showStopReport t reason w)
  = set_lastReport (stop_report_text reason (runner w)) (runner w).
Proof. unfold _showStopReport, _makeStopReport. simpl. now rewrite runner_send. Qed.

(** [_showStopReport] shows one dialog and one notification, and sends one
    report message when the window exists; it sends no answer. *)
Lemma emitted_showStopReport (t : Z) (reason : string) (w : World) :
  emitted is_stop_report (_showStopReport t reason w) = S (emitted is_stop_report w)
  /\ emitted is_report_msg (_showStopReport t reason w)
     = (emitted is_report_msg w + b2n (win w))%nat
  /\ emitted is_answer (_showStopReport t reason w) = emitted is_answer w.
Proof.
  unfold _showStopReport, _makeStopReport. cbv zeta. cbn [fst snd].
  rewrite !emitted_send, !emitted_push, !emitted_on_runner. simpl.
  rewrite andb_true_r, andb_false_r. simpl. repeat split; lia.
Qed.

Lemma emitted_setState (p : Output -> bool) (w : World) :
  (forall s, p (Send (StateMsg s)) = false) -> emitted p (_setState w) = emitted p w.
Proof.
  intros H. unfold _setState. rewrite emitted_send, H, andb_false_r. simpl. lia.
Qed.

Lemma emitted_log (p : Output -> bool) (t : Z) (line : string) (w : World) :
  (forall t' l, p (Send (LogLine t' l)) = false) -> emitted p (_log t line w) = emitted p w.
Proof.
  intros H. unfold _log. rewrite emitted_send, H, andb_false_r. simpl. lia.
Qed.

Lemma or_else_truthy (s d : string) : Js.truthy d = true -> Js.truthy (Js.or_else s d) = true.
Proof. unfold Js.or_else. destruct (Js.truthy s) eqn:H; auto. Qed.

Lemma or_else_id (s d : string) : Js.truthy s = true -> Js.or_else s d = s.
Proof. unfold Js.or_else. now intros ->. Qed.

(** [finish_stopped]: the branch taken when the task settles after STOP. *)
Lemma finish_stopped_spec (t : Z) (w : World) :
  emitted is_stop_report (finish_stopped t w) = S (emitted is_stop_report w)
  /\ emitted is_report_msg (finish_stopped t w) = (emitted is_report_msg w + b2n (win w))%nat
  /\ emitted is_answer (finish_stopped t w) = emitted is_answer w
  /\ runner (finish_stopped t w)
     = set_lastReport
         (stop_report_text (Js.or_else (error (runner w)) "STOP requested by user.")
            (set_paused false (set_running false (runner w))))
         (set_paused false (set_running false (runner w))).
Proof.
  unfold finish_stopped. cbv zeta.
  set (w1 := on_runner (fun r => set_paused false (set_running false r)) w).
  destruct (emitted_showStopReport t
              (Js.or_else (error (runner (_setState w1))) "STOP requested by user.")
              (_setState w1)) as (H1 & H2 & H3).
  rewrite H1, H2, H3, runner_showStopReport.
  rewrite !emitted_setState by reflexivity.
  unfold _setState. rewrite win_send, runner_send. repeat split.
Qed.

(** [settle] when [stopRequested] is set, for a result and for an
    exception alike. *)
Lemma settle_after_stop (t : Z) (o : Outcome) (w : World) :
  stopRequested (runner w) = true ->
  emitted is_stop_report (settle t o w) = S (emitted is_stop_report w)
  /\ emitted is_report_msg (settle t o w) = (emitted is_report_msg w + b2n (win w))%nat
  /\ emitted is_answer (settle t o w) = emitted is_answer w
  /\ runner (settle t o w)
     = set_lastReport
         (stop_report_text (Js.or_else (error (runner w)) "STOP requested by user.")
            (set_paused false (set_running false (runner w))))
         (set_paused false (set_running false (runner w))).
Proof.
  intros Hs. unfold settle. rewrite Hs. destruct o as [res | msg].
  - cbv zeta.
    destruct (finish_stopped_spec t (_log t "Result ignored because STOP was requested." w))
      as (H1 & H2 & H3 & H4).
    rewrite H1, H2, H3, H4. rewrite !emitted_log by reflexivity.
    unfold _log. rewrite win_send, runner_send. repeat split.
  - apply finish_stopped_spec.
Qed.

(** C1 as the code has it.  [stop] on a running task clears [running] at
    once, sets [stopRequested] and shows exactly one stop report.  When the
    task settles right afterwards (with a result or an exception), the
    result is discarded: no answer is sent and no field of the runner
    changes; but the stop report is shown a second time, with the same
    text.  In any later world where [stopRequested] is still set, settling
    likewise shows one more stop report, sends no answer, and keeps the
    task text, the steps, the error, the next action and the proof path. *)
Theorem stop_then_late_result (t : Z) (reason : string) (w : World) :
  running (runner w) = true ->
  let w1 := snd (stop t reason w) in
  running (runner w1) = false
  /\ stopRequested (runner w1) = true
  /\ emitted is_stop_report w1 = S (emitted is_stop_report w)
  /\ emitted is_report_msg w1 = (emitted is_report_msg w + b2n (win w))%nat
  /\ forall t' o,
       emitted is_stop_report (settle t' o w1) = S (emitted is_stop_report w1)
       /\ emitted is_report_msg (settle t' o w1) = (emitted is_report_msg w1 + b2n (win w))%nat
       /\ emitted is_answer (settle t' o w1) = emitted is_answer w1
       /\ runner (settle t' o w1) = runner w1
       /\ forall w',
            stopRequested (runner w') = true ->
            emitted is_stop_report (settle t' o w') = S (emitted is_stop_report w')
            /\ emitted is_answer (settle t' o w') = emitted is_answer w'
            /\ running (runner (settle t' o w')) = false
            /\ taskText (runner (settle t' o w')) = taskText (runner w')
            /\ steps (runner (settle t' o w')) = steps (runner w')
            /\ error (runner (settle t' o w')) = error (runner w')
            /\ nextAction (runner (settle t' o w')) = nextAction (runner w')
            /\ proofJsonPath (runner (settle t' o w')) = proofJsonPath (runner w').
Proof.
  intros Hrun w1.
  set (r0 := set_nextAction
               (Js.or_else (nextAction (runner w))
                  "If you want me to proceed, re-run with explicit authorization where needed.")
               (set_error (Js.or_else (error (runner w))
                             (Js.or_else reason "STOP pressed by user."))
                  (set_stopRequested true (runner w)))).
  set (wa := _setState
               (on_runner (fun r => set_paused false (set_running false r))
                  (_log t "STOP requested. If an API call is running, it will finish then be ignored."
                     (on_runner (fun _ => r0) w)))).
  assert (Hw1 : w1 = _showStopReport t (error (runner wa)) wa).
  { subst w1 wa r0. unfold stop. cbn [runner on_runner running set_nextAction set_error
      set_stopRequested negb]. rewrite Hrun. reflexivity. }
  assert (Hra : runner wa = set_paused false (set_running false r0)).
  { subst wa. unfold _setState, _log. rewrite runner_send. cbn [runner on_runner].
    rewrite runner_send. reflexivity. }
  assert (Hwin : win wa = win w).
  { subst wa. unfold _setState, _log. rewrite win_send. cbn [win on_runner].
    rewrite win_send. reflexivity. }
  assert (Hem : forall p, (forall s, p (Send (StateMsg s)) = false) ->
                  (forall t' l, p (Send (LogLine t' l)) = false) ->
                  emitted p wa = emitted p w).
  { intros p Hs Hl. subst wa. rewrite emitted_setState by exact Hs.
    rewrite emitted_on_runner, emitted_log by exact Hl. reflexivity. }
  assert (Herr : Js.truthy (error (runner wa)) = true).
  { rewrite Hra. subst r0. cbn. apply or_else_truthy, or_else_truthy. reflexivity. }
  destruct (emitted_showStopReport t (error (runner wa)) wa) as (E1 & E2 & E3).
  assert (Hr1 : runner w1
                = set_lastReport (stop_report_text (error (runner wa)) (runner wa)) (runner wa)).
  { rewrite Hw1. apply runner_showStopReport. }
  assert (Hwin1 : win w1 = win w).
  { rewrite Hw1. rewrite (ctl_win _ _ (ctl_showStopReport t _ wa)). exact Hwin. }
  split; [rewrite Hr1, Hra; reflexivity|].
  split; [rewrite Hr1, Hra; reflexivity|].
  split; [rewrite Hw1, E1, Hem by reflexivity; reflexivity|].
  split; [rewrite Hw1, E2, Hem, Hwin by reflexivity; reflexivity|].
  intros t' o.
  assert (Hs1 : stopRequested (runner w1) = true) by (rewrite Hr1, Hra; reflexivity).
  destruct (settle_after_stop t' o w1 Hs1) as (S1 & S2 & S3 & S4).
  rewrite S1, S2, S3, S4, Hwin1.
  split; [reflexivity|]. split; [reflexivity|]. split; [reflexivity|]. split.
  - rewrite Hr1. rewrite Hra in *. clear - Herr.
    set (r := set_paused false (set_running false r0)) in *.
    assert (Hid : forall x, set_paused false (set_running false (set_lastReport x r))
                            = set_lastReport x r) by reflexivity.
    rewrite Hid.
    assert (Htxt : forall a b x,
               stop_report_text a (set_lastReport x r) = stop_report_text b r).
    { intros a b x. unfold stop_report_text.
      cbn [taskText steps error nextAction proofJsonPath set_lastReport].
      rewrite !(or_else_id (error r)) by exact Herr. reflexivity. }
    rewrite (Htxt _ (error r)). reflexivity.
  - intros w' Hs'.
    destruct (settle_after_stop t' o w' Hs') as (G1 & _ & G3 & G4).
    rewrite G1, G3, G4. repeat split.
Qed.


(** * Whole-program properties *)

(** ** The audit files along a run *)

Lemma audited_trans (d1 d2 d3 : Disk) : audited d1 d2 -> audited d2 d3 -> audited d1 d3.
Proof.
  intros H12 H23. induction H23 as [|d d' t ty dat _ IH|d d' cfg _ IH].
  - exact H12.
  - apply audited_event, IH, H12.
  - apply audited_cfg, IH, H12.
Qed.

Lemma audited_eq (d d' : Disk) : d' = d -> audited d d'.
Proof. intros ->. apply audited_refl. Qed.

Lemma audited_audit (t : Z) (ty : string) (dat : json) (w : World) :
  audited (disk w) (disk (audit t ty dat w)).
Proof. apply (audited_event (disk w) (disk w)), audited_refl. Qed.

Lemma audited_ctl (w w' : World) : ctl w' = ctl w -> audited (disk w) (disk w').
Proof. intros H. apply audited_eq, ctl_disk, H. Qed.

Lemma audited_send (p : Payload) (w : World) : audited (disk w) (disk (_send p w)).
Proof. apply audited_eq, disk_send. Qed.

Lemma audited_permRequest (t : Z) (c why : string) (resp : option Z) (w : World) :
  audited (disk w) (disk (snd (permRequest t c why resp w))).
Proof.
  destruct (undecided_dec (perm_key c) w) as [Hu | [Hc | Hc]].
  - rewrite permRequest_fresh by exact Hu. cbv zeta.
    destruct (answer resp =? 2)%Z; [|destruct (answer resp =? 1)%Z]; cbn [snd].
    + eapply audited_trans; [|apply audited_audit].
      apply (audited_cfg (disk w) (disk w)), audited_refl.
    + eapply audited_trans; [|apply audited_audit]. apply audited_refl.
    + eapply audited_trans; [|apply audited_audit].
      apply (audited_cfg (disk w) (disk w)), audited_refl.
  - erewrite permRequest_cached by eauto. apply audited_refl.
  - erewrite permRequest_cached by eauto. apply audited_refl.
Qed.

Lemma audited_unregister (e : Env) (w : World) :
  audited (disk w) (disk (unregisterAutopilotHotkey e w)).
Proof.
  unfold unregisterAutopilotHotkey.
  destruct (Js.truthy (registeredHotkey (ap w))); [apply audited_audit | apply audited_refl].
Qed.

Lemma audited_try_register (e : Env) (tries : list string) (w w' : World) :
  try_register e tries w = Some w' -> audited (disk w) (disk w').
Proof.
  induction tries as [|accel rest IH]; simpl; [discriminate|].
  destruct (shortcut_free e accel); [|exact IH].
  intros [= <-]. apply (audited_audit _ _ _ (on_ap (set_registeredHotkey accel) w)).
Qed.

Lemma audited_register (e : Env) (w : World) :
  audited (disk w) (disk (snd (registerAutopilotHotkey e w))).
Proof.
  unfold registerAutopilotHotkey.
  eapply audited_trans; [apply audited_unregister|].
  destruct (try_register e hotkey_tries (unregisterAutopilotHotkey e w)) as [w'|] eqn:Ht;
    cbn [snd]; [eapply audited_try_register, Ht | apply audited_audit].
Qed.

Lemma audited_setAutopilotArmed (e : Env) (on : bool) (why : string) (w : World) :
  audited (disk w) (disk (setAutopilotArmed e on why w)).
Proof.
  unfold setAutopilotArmed, _setState.
  eapply audited_trans; [|apply audited_send].
  eapply audited_trans; [|apply audited_audit].
  set (w0 := on_ap (set_autopilotArmed on) w).
  change (disk w) with (disk w0).
  destruct (negb (autopilotArmed (ap w0))).
  - apply (audited_unregister e w0).
  - cbv zeta. unfold startCursorWatch, stopCursorWatch. cbn [disk on_ap].
    apply (audited_register e
             (on_ap (set_lastCursor (Some (cursor e)))
                (on_ap (fun a => set_ignoreMouseUntil (autopilotArmedAt a + ARM_GRACE_MS) a)
                   (on_ap (set_autopilotArmedAt (now e)) w0)))).
Qed.

Lemma audited_takeover (e : Env) (why : string) (w : World) :
  audited (disk w) (disk (triggerManualTakeover e why w)).
Proof.
  unfold triggerManualTakeover.
  destruct (negb (autopilotArmed (ap w))); [apply audited_refl|]. cbv zeta.
  eapply audited_trans; [|apply audited_send].
  eapply audited_trans; [|apply audited_send].
  eapply audited_trans; [|apply audited_ctl, ctl_log].
  eapply audited_trans; [|apply audited_ctl, ctl_pause].
  eapply audited_trans; [|apply audited_setAutopilotArmed].
  apply (audited_audit _ _ _ (on_ap (set_manualOverride true) w)).
Qed.

Lemma audited_cursorTick (e : Env) (w : World) : audited (disk w) (disk (cursorTick e w)).
Proof.
  rewrite cursorTick_cases. cbv zeta.
  destruct (negb (autopilotArmed (ap w))); [apply audited_refl|].
  destruct (in_grace e w); [apply audited_refl|].
  destruct (lastCursor (ap w)) as [q|]; [|apply audited_refl].
  destruct (now e <? ignoreMouseUntil (ap w))%Z; [apply audited_refl|].
  destruct (MOUSE_DIST <=? manhattan (cursor e) q)%Z; [|apply audited_refl].
  apply (audited_takeover e "MOUSE_MOVE" (on_ap (set_lastCursor (Some (cursor e))) w)).
Qed.

(** Every turn of the event loop changes the audit files through
    [auditEvent] only. *)
Lemma audited_step (e : Env) (ev : Event) (w : World) :
  audited (disk w) (disk (step e ev w)).
Proof.
  destruct ev; unfold step.
  - apply (audited_audit _ _ _ (set_win true w)).
  - destruct (trayArm_cases e resp w) as [[_ Heq] | [_ Heq]]; rewrite Heq;
      (eapply audited_trans; [|apply audited_ctl, ctl_log]).
    + eapply audited_trans; [apply audited_permRequest | apply audited_setAutopilotArmed].
    + apply audited_permRequest.
  - eapply audited_trans; [apply audited_setAutopilotArmed | apply audited_ctl, ctl_log].
  - unfold showDiagnostics. apply (audited_audit (now e) "DIAGNOSTICS_OPENED").
  - apply audited_ctl, ctl_trayPause.
  - apply audited_ctl, ctl_stop.
  - unfold setStoredApiKey.
    destruct (negb (Js.truthy (Js.trim apiKey))); [|destruct (negb (can_encrypt e))];
      apply audited_audit.
  - apply audited_ctl, ctl_start.
  - apply audited_ctl, ctl_pause.
  - apply audited_ctl, ctl_resume.
  - apply audited_ctl, ctl_stop.
  - apply audited_refl.
  - destruct (ipcArm_cases e why resp w) as [[_ Heq] | [_ Heq]]; rewrite Heq.
    + eapply audited_trans; [apply audited_permRequest | apply audited_setAutopilotArmed].
    + apply audited_permRequest.
  - apply audited_setAutopilotArmed.
  - unfold setInjectedIgnoreWindow. destruct (0 <? ms)%Z; [|apply audited_refl].
    apply (audited_audit _ _ _ (on_ap (set_ignoreMouseUntil (now e + Z.min 4000 ms)) w)).
  - apply audited_permRequest.
  - destruct (Js.truthy (registeredHotkey (ap w))); [|apply audited_refl].
    unfold hotkeyFired. destruct (autopilotArmed (ap w));
      [apply audited_takeover | apply audited_refl].
  - destruct (cursorTimer (ap w)); [apply audited_cursorTick | apply audited_refl].
  - destruct (inflight w); [apply audited_refl | apply audited_ctl, ctl_log].
  - destruct (inflight w); [apply audited_refl | apply audited_ctl, ctl_pushStep].
  - destruct (inflight w); [apply audited_refl|].
    apply audited_ctl. rewrite ctl_settle. reflexivity.
Qed.

Lemma audited_run (evs : list (Env * Event)) (w : World) :
  audited (disk w) (disk (run evs w)).
Proof.
  revert w. induction evs as [|[e ev] evs IH]; intros w; simpl; [apply audited_refl|].
  eapply audited_trans; [apply audited_step | apply IH].
Qed.

Lemma audited_prefix (d d' : Disk) :
  audited d d' -> exists new, audit_log d' = (audit_log d ++ new)%list.
Proof.
  induction 1 as [d|d d' t ty dat _ [new IH]|d d' cfg _ [new IH]].
  - exists []. now rewrite app_nil_r.
  - exists (new ++ [make_payload t ty dat d'])%list.
    unfold auditEvent, writeAuditState. cbn [audit_log]. rewrite IH. now rewrite <- app_assoc.
  - exists new. exact IH.
Qed.

Lemma audited_chain (d d' : Disk) : audited d d' -> chain_inv d -> chain_inv d'.
Proof.
  induction 1 as [d|d d' t ty dat _ IH|d d' cfg _ IH]; intros Hd.
  - exact Hd.
  - apply auditEvent_inv, IH, Hd.
  - apply IH in Hd. exact Hd.
Qed.

Lemma make_payload_ok (t : Z) (ty : string) (dat : json) (d : Disk) :
  record_ok (make_payload t ty dat d).
Proof.
  unfold record_ok, make_payload, seal. cbn [type data]. split.
  - apply or_else_truthy. reflexivity.
  - destruct dat; exact I.
Qed.

Lemma audited_records (d d' : Disk) :
  audited d d' -> Forall record_ok (audit_log d) -> Forall record_ok (audit_log d').
Proof.
  induction 1 as [d|d d' t ty dat _ IH|d d' cfg _ IH]; intros Hd.
  - exact Hd.
  - unfold auditEvent, writeAuditState. cbn [audit_log].
    apply Forall_app. split; [apply IH, Hd|]. constructor; [apply make_payload_ok | constructor].
  - apply IH, Hd.
Qed.

(** X1.  The audit log is append-only: after any run of the event loop,
    from any world, the log that was there is an unchanged prefix of the log
    that is there. *)
Theorem audit_log_append_only (evs : list (Env * Event)) (w : World) :
  exists new, audit_log (disk (run evs w)) = (audit_log (disk w) ++ new)%list.
Proof. apply audited_prefix, audited_run. Qed.

(** X2.  Started on an empty chain (no log, no pointer file), every run of
    the whole program leaves a valid hash chain: the first record has
    [prev_hash = ""], each later record's [prev_hash] is the [hash] of the
    record before it, each [hash] recomputes from the record's other fields,
    and the pointer file holds the newest hash. *)
Theorem run_keeps_chain (perms : gmap string string) (evs : list (Env * Event)) :
  let d := disk (run evs (initial_world (mkDisk perms [] None))) in
  (forall r, audit_log d !! 0%nat = Some r -> prev_hash r = "")
  /\ (forall i p r, audit_log d !! i = Some p -> audit_log d !! S i = Some r ->
        prev_hash r = hash p)
  /\ (forall i r, audit_log d !! i = Some r -> hash r = recomputed r)
  /\ readAuditState d = tip "" (audit_log d).
Proof.
  intros d.
  assert (Hinv : chain_inv d).
  { apply (audited_chain (mkDisk perms [] None)).
    - apply (audited_run evs (initial_world (mkDisk perms [] None))).
    - split; simpl; auto. }
  destruct Hinv as [Hc Ht]. split; [|split; [|split]].
  - intros r. apply chained_head, Hc.
  - intros i p r. apply chained_link with (prev := ""), Hc.
  - intros i r. apply chained_hash with (prev := ""), Hc.
  - exact Ht.
Qed.

(** X3.  Every record the program ever writes has a non-empty [type] and an
    object (or array) as [data]: an empty type is stored as "UNKNOWN" and a
    primitive datum is wrapped as [{ value }].  A log whose records are
    well formed stays so along any run. *)
Theorem run_keeps_records (evs : list (Env * Event)) (w : World) :
  Forall record_ok (audit_log (disk w)) ->
  Forall record_ok (audit_log (disk (run evs w))).
Proof. apply audited_records, audited_run. Qed.


(** ** The autopilot variables along a run *)

Lemma ap_eta (a : Autopilot) :
  a = mkAutopilot (autopilotArmed a) (manualOverride a) (autopilotArmedAt a) (cursorTimer a)
        (lastCursor a) (ignoreMouseUntil a) (registeredHotkey a).
Proof. destruct a; reflexivity. Qed.

Lemma ap_move_eq (a a' : Autopilot) : a' = a -> ap_move a a'.
Proof. intros ->. apply ap_same. Qed.

Lemma ap_move_ctl (w w' : World) : ctl w' = ctl w -> ap_move (ap w) (ap w').
Proof. intros H. apply ap_move_eq, ctl_ap, H. Qed.

Lemma ap_move_disarm (e : Env) (why : string) (w : World) :
  ap_move (ap w) (ap (setAutopilotArmed e false why w)).
Proof. destruct (disarm_spec e why w) as (Ha & _). rewrite Ha. apply ap_disarm. Qed.

Lemma ap_move_arm (e : Env) (why : string) (w w0 : World) :
  ap w0 = ap w -> ap_move (ap w) (ap (setAutopilotArmed e true why w0)).
Proof.
  intros H0.
  destruct (arm_spec e why w0) as (H1 & H2 & H3 & H4 & H5 & H6 & _).
  rewrite (ap_eta (ap (setAutopilotArmed e true why w0))), H1, H2, H3, H4, H5, H6, H0.
  apply ap_arm.
Qed.

Lemma ap_move_takeover (e : Env) (why : string) (w : World) :
  ap_move (ap w) (ap (triggerManualTakeover e why w)).
Proof.
  destruct (autopilotArmed (ap w)) eqn:Harmed.
  - destruct (takeover_spec e why w Harmed) as (Ha & _). rewrite Ha.
    apply ap_takeover, Harmed.
  - rewrite takeover_disarmed by exact Harmed. apply ap_same.
Qed.

Lemma ap_move_cursorTick (e : Env) (w : World) : ap_move (ap w) (ap (cursorTick e w)).
Proof.
  rewrite cursorTick_cases. cbv zeta.
  set (w1 := on_ap (set_lastCursor (Some (cursor e))) w).
  destruct (autopilotArmed (ap w)) eqn:Harmed; cbn [negb]; [|apply ap_same].
  assert (H1 : ap_move (ap w) (ap w1)) by (apply ap_sample, Harmed).
  destruct (in_grace e w); [exact H1|].
  destruct (lastCursor (ap w)) as [q|]; [|exact H1].
  destruct (now e <? ignoreMouseUntil (ap w))%Z; [exact H1|].
  destruct (MOUSE_DIST <=? manhattan (cursor e) q)%Z; [|exact H1].
  assert (Harmed1 : autopilotArmed (ap w1) = true) by exact Harmed.
  destruct (takeover_spec e "MOUSE_MOVE" w1 Harmed1) as (Ha & _). rewrite Ha.
  apply (ap_takeover (ap w) (Some (cursor e))), Harmed.
Qed.

(** Every turn of the event loop moves the autopilot variables in one of
    the six ways of [ap_move]. *)
Lemma step_ap_move (e : Env) (ev : Event) (w : World) : ap_move (ap w) (ap (step e ev w)).
Proof.
  destruct ev; unfold step.
  - apply ap_same.
  - destruct (permRequest_frame (now e) "os_control" tray_why resp w) as (Ha & _).
    destruct (trayArm_cases e resp w) as [[_ Heq] | [_ Heq]]; rewrite Heq;
      unfold _log; rewrite ap_send.
    + apply ap_move_arm, Ha.
    + apply ap_move_eq, Ha.
  - unfold _log. rewrite ap_send. apply ap_move_disarm.
  - apply ap_same.
  - apply ap_move_ctl, ctl_trayPause.
  - apply ap_move_ctl, ctl_stop.
  - unfold setStoredApiKey.
    destruct (negb (Js.truthy (Js.trim apiKey))); [|destruct (negb (can_encrypt e))];
      apply ap_same.
  - apply ap_move_ctl, ctl_start.
  - apply ap_move_ctl, ctl_pause.
  - apply ap_move_ctl, ctl_resume.
  - apply ap_move_ctl, ctl_stop.
  - apply ap_same.
  - destruct (permRequest_frame (now e) "os_control" (Js.or_else why "IPC request") resp w)
      as (Ha & _).
    destruct (ipcArm_cases e why resp w) as [[_ Heq] | [_ Heq]]; rewrite Heq.
    + apply ap_move_arm, Ha.
    + apply ap_move_eq, Ha.
  - apply ap_move_disarm.
  - unfold setInjectedIgnoreWindow. destruct (0 <? ms)%Z; [|apply ap_same].
    apply (ap_ignore (ap w)).
  - apply ap_move_eq. apply (permRequest_frame (now e) className (Js.or_else why "") resp w).
  - destruct (Js.truthy (registeredHotkey (ap w))); [|apply ap_same].
    unfold hotkeyFired. generalize (ap_move_takeover e "SPACE" w).
    destruct (autopilotArmed (ap w)); [auto | intros _; apply ap_same].
  - destruct (cursorTimer (ap w)); [apply ap_move_cursorTick | apply ap_same].
  - destruct (inflight w); [apply ap_same | apply ap_move_ctl, ctl_log].
  - destruct (inflight w); [apply ap_same | apply ap_move_ctl, ctl_pushStep].
  - destruct (inflight w); [apply ap_same|].
    apply ap_move_ctl. rewrite ctl_settle. reflexivity.
Qed.

Lemma ap_move_ok (a a' : Autopilot) : ap_move a a' -> ap_ok a -> ap_ok a'.
Proof.
  intros Hm (Ht & Hk & Hl).
  destruct Hm; unfold ap_ok; cbn; repeat split; auto; try discriminate.
Qed.

Lemma ap_move_override (a a' : Autopilot) :
  ap_move a a' -> manualOverride a = true -> manualOverride a' = true.
Proof. intros Hm H. destruct Hm; cbn; auto. Qed.

(** X4.  In every world reachable from the initial one the poll timer is
    installed exactly while the autopilot is armed, a hotkey is registered
    only while it is armed, and an armed autopilot always has a baseline
    pointer sample (the platform's pointer query answers with a point, as
    [cursor] of [Env] has it). *)
Theorem autopilot_consistent (d : Disk) (evs : list (Env * Event)) :
  let a := ap (run evs (initial_world d)) in
  cursorTimer a = autopilotArmed a
  /\ (autopilotArmed a = false -> registeredHotkey a = "")
  /\ (autopilotArmed a = true -> lastCursor a <> None).
Proof.
  assert (H : forall w, ap_ok (ap w) -> ap_ok (ap (run evs w))).
  { induction evs as [|[e ev] evs IH]; intros w Hw; simpl; [exact Hw|].
    apply IH. eapply ap_move_ok; [apply step_ap_move | exact Hw]. }
  apply (H (initial_world d)). repeat split; try reflexivity. discriminate.
Qed.

(** X5.  The manual-override flag is never cleared: once a takeover has set
    it, it stays set along every run, through disarming and re-arming. *)
Theorem manual_override_sticky (evs : list (Env * Event)) (w : World) :
  manualOverride (ap w) = true -> manualOverride (ap (run evs w)) = true.
Proof.
  revert w. induction evs as [|[e ev] evs IH]; intros w Hw; simpl; [exact Hw|].
  apply IH. eapply ap_move_override; [apply step_ap_move | exact Hw].
Qed.


(** ** Arming against the persisted decision *)

Lemma os_control_key : perm_key "os_control" = "os_control".
Proof. reflexivity. Qed.

Lemma step_denied_stays_disarmed (e : Env) (ev : Event) (w : World) :
  loadCfg w !! "os_control" = Some "deny" ->
  autopilotArmed (ap w) = false ->
  autopilotArmed (ap (step e ev w)) = false.
Proof.
  intros Hdeny Hoff.
  assert (Hreq : forall why resp,
             permRequest (now e) "os_control" why resp w = (cached_reply "deny", w)).
  { intros why resp. apply permRequest_cached; [rewrite os_control_key; exact Hdeny | auto]. }
  destruct (is_arm ev) eqn:Hev.
  - destruct ev; try discriminate Hev; simpl.
    + destruct (trayArm_cases e resp w) as [[Hd _] | [_ Heq]].
      * rewrite Hreq in Hd. discriminate Hd.
      * rewrite Heq, Hreq. unfold _log. rewrite ap_send. exact Hoff.
    + destruct (ipcArm_cases e why resp w) as [[Hd _] | [_ Heq]].
      * rewrite Hreq in Hd. discriminate Hd.
      * rewrite Heq, Hreq. exact Hoff.
  - destruct (step_no_arm e ev w Hev) as [Hmono _].
    destruct (autopilotArmed (ap (step e ev w))); [|reflexivity].
    rewrite Hmono in Hoff by reflexivity. discriminate Hoff.
Qed.

(** What the second half of [permRequest] leaves alone. *)
Lemma resume_frame (t : Z) (p : Prompt) (resp : option Z) (w : World) :
  let w' := snd (permRequest_resume t p resp w) in
  ap w' = ap w /\ runner w' = runner w /\ win w' = win w /\ inflight w' = inflight w
  /\ out w' = out w.
Proof.
  cbv zeta. rewrite resume_cases.
  destruct (answer resp =? 2)%Z; [|destruct (answer resp =? 1)%Z]; repeat split.
Qed.

(** What it saves: nothing for Allow Once, otherwise the configuration
    loaded before the [await] with the decision assigned to its key. *)
Lemma resume_cfg (t : Z) (p : Prompt) (resp : option Z) (w : World) :
  loadCfg (snd (permRequest_resume t p resp w))
  = if (answer resp =? 1)%Z then loadCfg w
    else set_permission (p_key p) (if (answer resp =? 2)%Z then "allow" else "deny")
           (p_cfg p).
Proof.
  rewrite resume_cases.
  destruct (answer resp =? 2)%Z eqn:H2.
  - apply Z.eqb_eq in H2. rewrite H2. reflexivity.
  - destruct (answer resp =? 1)%Z; reflexivity.
Qed.

Lemma begin_frame (c why : string) (w : World) :
  let w' := snd (permRequest_begin c why w) in
  disk w' = disk w /\ ap w' = ap w /\ runner w' = runner w /\ win w' = win w
  /\ inflight w' = inflight w.
Proof.
  cbv zeta. destruct (undecided_dec (perm_key c) w) as [Hu | [Hc | Hc]].
  - rewrite begin_fresh by exact Hu. repeat split.
  - erewrite begin_cached by eauto. repeat split.
  - erewrite begin_cached by eauto. repeat split.
Qed.

Lemma deny_settled_turn (e : Env) (t : Turn) (s : Session) :
  deny_settled s -> deny_settled (turn e t s).
Proof.
  intros (Hdeny & Hoff & Hall).
  assert (Hreq : forall why,
             permRequest_begin "os_control" why (world s)
             = (Cached (cached_reply "deny"), world s)).
  { intros why. apply begin_cached; [rewrite os_control_key; exact Hdeny | auto]. }
  destruct t as [ev | | why | c why | i resp]; unfold turn.
  - split; [|split]; cbn [world waiting].
    + apply step_keeps_decided; auto.
    + apply step_denied_stays_disarmed; assumption.
    + exact Hall.
  - unfold ask. rewrite Hreq. cbn [resumed].
    change (trayArm_then e (cached_reply "deny") (world s))
      with (_log (now e) "AUTOPILOT_ARM denied by permission." (world s)).
    unfold _log. split; [|split]; cbn [world waiting]; [| |exact Hall].
    + rewrite loadCfg_send. exact Hdeny.
    + rewrite ap_send. exact Hoff.
  - unfold ask. rewrite Hreq. split; [|split]; cbn [world waiting resumed]; [| |exact Hall];
      assumption.
  - unfold ask. destruct (undecided_dec (perm_key c) (world s)) as [Hu | Hc].
    + rewrite begin_fresh by exact Hu. split; [|split]; cbn [world waiting]; auto.
      apply Forall_app. split; [exact Hall|]. constructor; [|constructor].
      cbn [fst snd p_cfg p_key]. split; [exact Hdeny|]. split; [|reflexivity].
      intros E. destruct Hu as [_ Hu]. rewrite E in Hu. contradiction.
    + assert (Hb : exists dec, permRequest_begin c (Js.or_else why "") (world s)
                               = (Cached (cached_reply dec), world s)).
      { destruct Hc as [Hc | Hc]; eexists; apply begin_cached; eauto. }
      destruct Hb as (dec & ->). split; [|split]; cbn [world waiting resumed]; auto.
  - destruct (waiting s !! i) as [[p k]|] eqn:Hi; [|split; [|split]; assumption].
    destruct (proj1 (Forall_lookup _ _) Hall i (p, k) Hi) as (Hp & Hk & Hby).
    cbn [fst snd] in Hp, Hk, Hby. subst k.
    destruct (resume_frame (now e) p resp (world s)) as (Ha & _).
    pose proof (resume_cfg (now e) p resp (world s)) as Hc.
    destruct (permRequest_resume (now e) p resp (world s)) as [r w'].
    cbn [snd] in Ha, Hc. split; [|split]; cbn [world waiting resumed].
    + rewrite Hc. destruct (answer resp =? 1)%Z; [exact Hdeny|].
      rewrite set_permission_ne by exact Hk. exact Hp.
    + rewrite Ha. exact Hoff.
    + apply Forall_delete, Hall.
Qed.

(** X6.  Once "deny" is persisted for "os_control" and no message box is
    open, a disarmed autopilot can never be armed again by the program: it
    stays disarmed along every run of the event loop, also when message
    boxes of later requests stay open across turns and are answered in any
    order. *)
Theorem denied_never_arms (ts : list (Env * Turn)) (s : Session) :
  loadCfg (world s) !! "os_control" = Some "deny" ->
  autopilotArmed (ap (world s)) = false ->
  waiting s = [] ->
  autopilotArmed (ap (world (turns ts s))) = false.
Proof.
  intros Hdeny Hoff Hnone.
  assert (Hs : deny_settled s).
  { split; [exact Hdeny|]. split; [exact Hoff|]. rewrite Hnone. constructor. }
  clear Hdeny Hoff Hnone. revert s Hs.
  induction ts as [|[e t] ts IH]; intros s Hs; simpl; [apply Hs|].
  apply IH, deny_settled_turn, Hs.
Qed.

Lemma out_unregister (e : Env) (w : World) : out (unregisterAutopilotHotkey e w) = out w.
Proof. apply (unregister_hotkey_step e w). Qed.

Lemma emitted_out (p : Output -> bool) (w w' : World) :
  out w' = out w -> emitted p w' = emitted p w.
Proof. unfold emitted. now intros ->. Qed.

Lemma emitted_setAutopilotArmed (p : Output -> bool) (e : Env) (on : bool) (why : string)
    (w : World) :
  (forall s, p (Send (StateMsg s)) = false) ->
  emitted p (setAutopilotArmed e on why w) = emitted p w.
Proof.
  intros Hp. unfold setAutopilotArmed. rewrite emitted_setState by exact Hp.
  apply emitted_out. unfold audit. cbn [out on_disk].
  set (w0 := on_ap (set_autopilotArmed on) w). change (out w) with (out w0).
  destruct (negb (autopilotArmed (ap w0))).
  - unfold stopCursorWatch. cbn [out on_ap]. apply out_unregister.
  - cbv zeta. unfold startCursorWatch, stopCursorWatch. cbn [out on_ap].
    apply (hk_out _ _ (register_hotkey_step e
             (on_ap (set_lastCursor (Some (cursor e)))
                (on_ap (fun a => set_ignoreMouseUntil (autopilotArmedAt a + ARM_GRACE_MS) a)
                   (on_ap (set_autopilotArmedAt (now e)) w0))))).
Qed.

(** X7.  With "allow" persisted for "os_control", both arm handlers arm
    without showing a permission prompt, whatever answer a prompt would have
    got, and leave the persisted decisions as they are. *)
Theorem cached_allow_arms (e : Env) (why : string) (resp : option Z) (w : World) :
  loadCfg w !! "os_control" = Some "allow" ->
  (autopilotArmed (ap (step e (TrayArm resp) w)) = true
   /\ emitted is_prompt (step e (TrayArm resp) w) = emitted is_prompt w
   /\ loadCfg (step e (TrayArm resp) w) = loadCfg w)
  /\ (autopilotArmed (ap (step e (IpcArm why resp) w)) = true
      /\ emitted is_prompt (step e (IpcArm why resp) w) = emitted is_prompt w
      /\ loadCfg (step e (IpcArm why resp) w) = loadCfg w).
Proof.
  intros Hallow.
  assert (Hreq : forall why' resp',
             permRequest (now e) "os_control" why' resp' w = (cached_reply "allow", w)).
  { intros why' resp'. apply permRequest_cached; [rewrite os_control_key; exact Hallow | auto]. }
  split; simpl.
  - destruct (trayArm_cases e resp w) as [[_ Heq] | [Hd _]];
      [|rewrite Hreq in Hd; contradiction Hd; reflexivity].
    rewrite Heq, Hreq. cbn [snd].
    destruct (arm_spec e "tray_arm" w) as (H1 & _ & _ & _ & _ & _ & _ & Hc & _).
    unfold _log. rewrite ap_send, loadCfg_send, emitted_send. cbn.
    rewrite andb_false_r, emitted_setAutopilotArmed by reflexivity.
    repeat split; [exact H1 | apply Nat.add_0_r | exact Hc].
  - destruct (ipcArm_cases e why resp w) as [[_ Heq] | [Hd _]];
      [|rewrite Hreq in Hd; contradiction Hd; reflexivity].
    rewrite Heq, Hreq. cbn [snd].
    destruct (arm_spec e (Js.or_else why "ipc_arm") w) as (H1 & _ & _ & _ & _ & _ & _ & Hc & _).
    rewrite emitted_setAutopilotArmed by reflexivity.
    repeat split; [exact H1 | exact Hc].
Qed.


(** ** Hotkey registration, disarm, takeover, ignore window *)

Lemma tally_unregister (p : string -> json -> bool) (e : Env) (w : World) :
  (forall d, p "AUTOPILOT_HOTKEY_UNREGISTERED" d = false) ->
  tally p (unregisterAutopilotHotkey e w) = tally p w.
Proof.
  intros Hp. unfold unregisterAutopilotHotkey.
  erewrite tally_disk by reflexivity.
  destruct (Js.truthy (registeredHotkey (ap w))); [|reflexivity].
  apply tally_audit_other, Hp.
Qed.

Lemma tally_on_ap (p : string -> json -> bool) (f : Autopilot -> Autopilot) (w : World) :
  tally p (on_ap f w) = tally p w.
Proof. reflexivity. Qed.

Lemma tally_send (p : string -> json -> bool) (m : Payload) (w : World) :
  tally p (_send m w) = tally p w.
Proof. apply tally_disk, disk_send. Qed.

Lemma register_result (e : Env) (w : World) :
  registeredHotkey (ap (snd (registerAutopilotHotkey e w))) = granted_hotkey e
  /\ tally is_hotkey_registered (snd (registerAutopilotHotkey e w))
     = (tally is_hotkey_registered w + b2n (Js.truthy (granted_hotkey e)))%nat
  /\ tally is_register_fail (snd (registerAutopilotHotkey e w))
     = (tally is_register_fail w + b2n (negb (Js.truthy (granted_hotkey e))))%nat.
Proof.
  unfold registerAutopilotHotkey, hotkey_tries, granted_hotkey. cbn [try_register].
  pose proof (tally_unregister is_hotkey_registered e w (fun _ => eq_refl)) as T1.
  pose proof (tally_unregister is_register_fail e w (fun _ => eq_refl)) as T2.
  pose proof (unregister_hotkey e w) as Hk.
  set (wu := unregisterAutopilotHotkey e w) in *.
  destruct (shortcut_free e "Space"); [|destruct (shortcut_free e "CommandOrControl+Space")];
    cbn [snd]; rewrite !tally_audit; cbn [Js.or_else Js.truthy auditData is_hotkey_registered
      is_register_fail String.eqb Ascii.eqb Bool.eqb b2n negb andb];
    (split; [first [reflexivity | exact Hk] |]);
    rewrite ?tally_on_ap, T1, T2; split; reflexivity.
Qed.

(** X8.  Arming registers the first accelerator the platform grants, trying
    "Space" and then "CommandOrControl+Space", and writes one
    AUTOPILOT_HOTKEY_REGISTERED record; when neither is granted it writes one
    AUTOPILOT_HOTKEY_REGISTER_FAIL record and the autopilot is armed all the
    same, with no hotkey. *)
Theorem arm_registers_first_granted (e : Env) (why : string) (w : World) :
  autopilotArmed (ap (setAutopilotArmed e true why w)) = true
  /\ registeredHotkey (ap (setAutopilotArmed e true why w)) = granted_hotkey e
  /\ tally is_hotkey_registered (setAutopilotArmed e true why w)
     = (tally is_hotkey_registered w + b2n (Js.truthy (granted_hotkey e)))%nat
  /\ tally is_register_fail (setAutopilotArmed e true why w)
     = (tally is_register_fail w + b2n (negb (Js.truthy (granted_hotkey e))))%nat.
Proof.
  destruct (arm_spec e why w) as (Harm & _).
  split; [exact Harm|].
  unfold setAutopilotArmed, _setState.
  set (w0 := on_ap (set_autopilotArmed true) w).
  change (negb (autopilotArmed (ap w0))) with false. cbv iota zeta.
  set (w1 := on_ap (set_lastCursor (Some (cursor e)))
               (on_ap (fun a => set_ignoreMouseUntil (autopilotArmedAt a + ARM_GRACE_MS) a)
                  (on_ap (set_autopilotArmedAt (now e)) w0))).
  destruct (register_result e w1) as (Hk & T1 & T2).
  set (wr := snd (registerAutopilotHotkey e w1)) in *.
  rewrite ap_send, ap_audit, !tally_send.
  rewrite !tally_audit_other by reflexivity.
  unfold startCursorWatch, stopCursorWatch. rewrite !tally_on_ap, T1, T2.
  split; [|split; reflexivity].
  cbn [ap on_ap]. destruct (cursorTimer (ap wr)); exact Hk.
Qed.

(** X9.  An explicit disarm (tray or IPC) clears the armed flag, the poll
    timer and the hotkey, keeps the manual-override flag as it was, writes
    exactly one AUTOPILOT_ARM_STATE record with armed:false and no
    MANUAL_TAKEOVER record, and does not touch the runner: unlike a takeover
    it never pauses a running task. *)
Theorem explicit_disarm (e : Env) (why : string) (w : World) :
  let a' := mkAutopilot false (manualOverride (ap w)) (autopilotArmedAt (ap w)) false
              (lastCursor (ap w)) (ignoreMouseUntil (ap w)) "" in
  (ap (step e TrayDisarm w) = a'
   /\ runner (step e TrayDisarm w) = runner w
   /\ tally is_disarm (step e TrayDisarm w) = S (tally is_disarm w)
   /\ tally is_takeover (step e TrayDisarm w) = tally is_takeover w)
  /\ (ap (step e (IpcDisarm why) w) = a'
      /\ runner (step e (IpcDisarm why) w) = runner w
      /\ tally is_disarm (step e (IpcDisarm why) w) = S (tally is_disarm w)
      /\ tally is_takeover (step e (IpcDisarm why) w) = tally is_takeover w).
Proof.
  intros a'. split; cbn [step].
  - destruct (disarm_spec e "tray_disarm" w) as (Ha & Hr & _ & _ & _ & Ht).
    unfold _log. rewrite ap_send, runner_send, !tally_send.
    rewrite (Ht is_disarm is_disarm_blind), (Ht is_takeover is_takeover_blind).
    repeat split; [exact Ha | exact Hr | cbn; lia | cbn; lia].
  - destruct (disarm_spec e (Js.or_else why "ipc_disarm") w) as (Ha & Hr & _ & _ & _ & Ht).
    rewrite (Ht is_disarm is_disarm_blind), (Ht is_takeover is_takeover_blind).
    repeat split; [exact Ha | exact Hr | cbn; lia | cbn; lia].
Qed.

Lemma inflight_pause (t : Z) (w : World) : inflight (snd (pause t w)) = inflight w.
Proof.
  unfold pause, _setState, _log. destruct (negb (running (runner w))); cbn [snd]; [reflexivity|].
  now rewrite !inflight_send.
Qed.

Lemma takeover_inflight (e : Env) (why : string) (w : World) :
  inflight (triggerManualTakeover e why w) = inflight w.
Proof.
  unfold triggerManualTakeover. destruct (negb (autopilotArmed (ap w))); [reflexivity|].
  cbv zeta. unfold _log. rewrite !inflight_send, inflight_pause.
  destruct (disarm_spec e "manual_takeover"
              (audit (now e) "MANUAL_TAKEOVER" (JObj [("why", JStr why)])
                 (on_ap (set_manualOverride true) w))) as (_ & _ & _ & _ & Hi & _).
  exact Hi.
Qed.

(** X10.  When the registered hotkey fires on an armed autopilot, the
    takeover runs whatever the grace period and the ignore window say: the
    autopilot is disarmed with the manual-override flag set, one
    MANUAL_TAKEOVER record is written, a running task is marked paused (an
    idle runner is left alone) and the call in flight is not touched. *)
Theorem hotkey_takeover (e : Env) (w : World) :
  autopilotArmed (ap w) = true ->
  Js.truthy (registeredHotkey (ap w)) = true ->
  ap (step e HotkeyPressed w)
  = mkAutopilot false true (autopilotArmedAt (ap w)) false (lastCursor (ap w))
      (ignoreMouseUntil (ap w)) ""
  /\ runner (step e HotkeyPressed w)
     = (if running (runner w) then set_paused true (runner w) else runner w)
  /\ inflight (step e HotkeyPressed w) = inflight w
  /\ tally is_takeover (step e HotkeyPressed w) = S (tally is_takeover w).
Proof.
  intros Harmed Hhk. cbn [step]. rewrite Hhk. unfold hotkeyFired. rewrite Harmed.
  destruct (takeover_spec e "SPACE" w Harmed) as (Ha & Hr & _ & Ht).
  rewrite Ha, Hr, takeover_inflight, (Ht is_takeover is_takeover_blind).
  repeat split. cbn. lia.
Qed.

(** X11.  [setInjectedIgnoreWindow(ms)] does nothing for [ms <= 0]; for
    [ms > 0] it moves only the end of the ignore window, to [now + ms] but
    never further than 4000 ms ahead.  Until that time a poll on an armed
    autopilot only records its sample, however far the pointer moved: no
    takeover, still armed. *)
Theorem injected_ignore_window (e e' : Env) (ms : Z) (w : World) :
  (ms <= 0 -> setInjectedIgnoreWindow e ms w = w)
  /\ (0 < ms ->
        ap (setInjectedIgnoreWindow e ms w)
        = set_ignoreMouseUntil (now e + Z.min 4000 ms) (ap w)
        /\ ignoreMouseUntil (ap (setInjectedIgnoreWindow e ms w)) <= now e + 4000
        /\ (autopilotArmed (ap w) = true ->
            now e' < now e + Z.min 4000 ms ->
            cursorTick e' (setInjectedIgnoreWindow e ms w)
            = on_ap (set_lastCursor (Some (cursor e'))) (setInjectedIgnoreWindow e ms w))).
Proof.
  unfold setInjectedIgnoreWindow. split.
  - intros Hms. replace (0 <? ms)%Z with false by (symmetry; apply Z.ltb_ge, Hms). reflexivity.
  - intros Hms. replace (0 <? ms)%Z with true by (symmetry; apply Z.ltb_lt, Hms).
    rewrite ap_audit. cbn [ap on_ap ignoreMouseUntil set_ignoreMouseUntil].
    split; [reflexivity|]. split; [lia|].
    intros Harmed Hlt. rewrite cursorTick_cases. cbv zeta.
    rewrite ap_audit. cbn [ap on_ap autopilotArmed lastCursor ignoreMouseUntil
      set_ignoreMouseUntil]. rewrite Harmed. cbn [negb].
    destruct (in_grace e' _); [reflexivity|].
    destruct (lastCursor (ap w)); [|reflexivity].
    replace (now e' <? now e + Z.min 4000 ms)%Z with true
      by (symmetry; apply Z.ltb_lt, Hlt).
    reflexivity.
Qed.


(** ** The runner, handler by handler *)

Lemma runner_log (t : Z) (line : string) (w : World) : runner (_log t line w) = runner w.
Proof. apply runner_send. Qed.

Lemma runner_setState (w : World) : runner (_setState w) = runner w.
Proof. apply runner_send. Qed.

Lemma runner_pushStep (t : Z) (ti st pr : string) (w : World) :
  runner (_pushStep t ti st pr w)
  = set_steps (steps (runner w) ++ [mkStep t ti st (Js.or_else pr "")]) (runner w).
Proof. unfold _pushStep. cbv zeta. now rewrite runner_send. Qed.

Lemma inflight_log (t : Z) (line : string) (w : World) : inflight (_log t line w) = inflight w.
Proof. apply inflight_send. Qed.

Lemma inflight_setState (w : World) : inflight (_setState w) = inflight w.
Proof. apply inflight_send. Qed.

Lemma inflight_pushStep (t : Z) (ti st pr : string) (w : World) :
  inflight (_pushStep t ti st pr w) = inflight w.
Proof. unfold _pushStep. cbv zeta. now rewrite inflight_send. Qed.

Lemma inflight_showStopReport (t : Z) (reason : string) (w : World) :
  inflight (_showStopReport t reason w) = inflight w.
Proof. unfold _showStopReport, _makeStopReport. cbv zeta. cbn [fst snd]. now rewrite inflight_send. Qed.

Lemma win_showStopReport (t : Z) (reason : string) (w : World) :
  win (_showStopReport t reason w) = win w.
Proof. apply (ctl_win _ _ (ctl_showStopReport t reason w)). Qed.

Lemma stop_reply (t : Z) (reason : string) (w : World) : fst (stop t reason w) = Ok.
Proof. unfold stop. cbv zeta. destruct (negb _); reflexivity. Qed.

Lemma stop_runner (t : Z) (reason : string) (w : World) :
  runner (snd (stop t reason w)) = stopped_runner reason (runner w).
Proof.
  unfold stop, stopped_runner. cbv zeta.
  cbn [runner on_runner running set_nextAction set_error set_stopRequested].
  destruct (running (runner w)); cbn [negb snd].
  - rewrite runner_showStopReport, runner_setState. cbn [runner on_runner].
    rewrite runner_log. reflexivity.
  - rewrite runner_setState, runner_showStopReport, runner_log. reflexivity.
Qed.

Lemma stop_inflight (t : Z) (reason : string) (w : World) :
  inflight (snd (stop t reason w)) = inflight w.
Proof.
  unfold stop. cbv zeta. destruct (negb _); cbn [snd].
  - now rewrite inflight_setState, inflight_showStopReport, inflight_log.
  - rewrite inflight_showStopReport, inflight_setState. cbn [inflight on_runner].
    now rewrite inflight_log.
Qed.

Lemma stop_emitted (t : Z) (reason : string) (w : World) :
  emitted is_stop_report (snd (stop t reason w)) = S (emitted is_stop_report w)
  /\ emitted is_answer (snd (stop t reason w)) = emitted is_answer w.
Proof.
  unfold stop. cbv zeta. destruct (negb _); cbn [snd].
  - rewrite !emitted_setState by reflexivity.
    destruct (emitted_showStopReport t
                (error (runner (_log t "STOP (no active run)."
                   (on_runner (fun r => set_nextAction (Js.or_else (nextAction r)
                       "If you want me to proceed, re-run with explicit authorization where needed.") r)
                      (on_runner (fun r => set_error (Js.or_else (error r)
                          (Js.or_else reason "STOP pressed by user.")) r)
                         (on_runner (set_stopRequested true) w))))))
                (_log t "STOP (no active run)."
                   (on_runner (fun r => set_nextAction (Js.or_else (nextAction r)
                       "If you want me to proceed, re-run with explicit authorization where needed.") r)
                      (on_runner (fun r => set_error (Js.or_else (error r)
                          (Js.or_else reason "STOP pressed by user.")) r)
                         (on_runner (set_stopRequested true) w))))) as (E1 & _ & E3).
    rewrite E1, E3, !emitted_log by reflexivity. split; reflexivity.
  - match goal with
    | |- context [_showStopReport t ?r ?x] =>
        destruct (emitted_showStopReport t r x) as (E1 & _ & E3)
    end.
    rewrite E1, E3, !emitted_setState by reflexivity.
    rewrite !emitted_on_runner, !emitted_log by reflexivity. split; reflexivity.
Qed.

Lemma stopped_runner_facts (reason : string) (r : Runner) :
  running (stopped_runner reason r) = false
  /\ stopRequested (stopped_runner reason r) = true
  /\ Js.truthy (error (stopped_runner reason r)) = true
  /\ Js.truthy (nextAction (stopped_runner reason r)) = true
  /\ error (stopped_runner reason r)
     = Js.or_else (error r) (Js.or_else reason "STOP pressed by user.")
  /\ taskText (stopped_runner reason r) = taskText r
  /\ steps (stopped_runner reason r) = steps r
  /\ proofJsonPath (stopped_runner reason r) = proofJsonPath r
  /\ paused (stopped_runner reason r) = (if running r then false else paused r).
Proof.
  unfold stopped_runner. cbv zeta. destruct (running r) eqn:Hr; cbn;
    rewrite ?Hr; repeat split;
    first [reflexivity | apply or_else_truthy; first [reflexivity | apply or_else_truthy; reflexivity]].
Qed.


Lemma win_setState (w : World) : win (_setState w) = win w.
Proof. apply win_send. Qed.

Lemma finish_failed_spec (t : Z) (err next : string) (w : World) :
  emitted is_stop_report (finish_failed t err next w) = S (emitted is_stop_report w)
  /\ emitted is_report_msg (finish_failed t err next w)
     = (emitted is_report_msg w + b2n (win w))%nat
  /\ emitted is_answer (finish_failed t err next w) = emitted is_answer w
  /\ inflight (finish_failed t err next w) = inflight w
  /\ runner (finish_failed t err next w)
     = set_lastReport
         (stop_report_text err
            (set_paused false (set_running false (set_nextAction next (set_error err (runner w))))))
         (set_paused false (set_running false (set_nextAction next (set_error err (runner w))))).
Proof.
  unfold finish_failed. cbv zeta.
  set (w1 := on_runner (fun r => set_paused false (set_running false
                                   (set_nextAction next (set_error err r)))) w).
  destruct (emitted_showStopReport t (error (runner (_setState w1))) (_setState w1))
    as (H1 & H2 & H3).
  rewrite H1, H2, H3, runner_showStopReport, inflight_showStopReport.
  rewrite !emitted_setState by reflexivity.
  unfold _setState. rewrite win_send, runner_send, inflight_send. repeat split.
Qed.

Lemma finish_stopped_inflight (t : Z) (w : World) : inflight (finish_stopped t w) = inflight w.
Proof.
  unfold finish_stopped. cbv zeta.
  now rewrite inflight_showStopReport, inflight_setState.
Qed.

(** [settle] on a successful result while no stop is requested. *)
Lemma settle_success (t : Z) (res : TaskResult) (w : World) :
  stopRequested (runner w) = false -> res_ok res = true ->
  let pj := Js.or_else (res_proofJsonPath res) "" in
  let r1 := set_steps (steps (runner w)
                       ++ [mkStep t "Answer ready" "ok"
                             (Js.or_else (if Js.truthy pj then "proof=" ++ pj else "") "")])
              (set_proofJsonPath pj (runner w)) in
  let r2 := set_paused false (set_running false r1) in
  runner (settle t (Resolved (Some res)) w)
  = set_lastReport (done_report_text (taskText r2) pj (res_answer res)) r2
  /\ emitted is_stop_report (settle t (Resolved (Some res)) w) = emitted is_stop_report w
  /\ emitted is_answer (settle t (Resolved (Some res)) w)
     = (emitted is_answer w + b2n (win w))%nat
  /\ emitted is_report_msg (settle t (Resolved (Some res)) w)
     = (emitted is_report_msg w + b2n (win w))%nat
  /\ inflight (settle t (Resolved (Some res)) w) = inflight w.
Proof.
  intros Hs Hok pj r1 r2. unfold settle. rewrite Hs, Hok. cbv zeta.
  set (w1 := on_runner (set_proofJsonPath (Js.or_else (res_proofJsonPath res) "")) w).
  change (proofJsonPath (runner w1)) with pj.
  set (w2 := _pushStep t "Answer ready" "ok" (if Js.truthy pj then "proof=" ++ pj else "") w1).
  assert (Hr2 : runner w2 = r1) by (unfold w2; rewrite runner_pushStep; reflexivity).
  assert (Hw2 : win w2 = win w) by (apply (ctl_win _ _ (ctl_pushStep _ _ _ _ w1))).
  assert (Hi2 : inflight w2 = inflight w) by (unfold w2; rewrite inflight_pushStep; reflexivity).
  assert (He2 : forall p, (forall s, p (Send (StepMsg s)) = false) ->
                  emitted p w2 = emitted p w).
  { intros p Hp. unfold w2, _pushStep. cbv zeta.
    rewrite emitted_send, Hp, andb_false_r. cbn. apply Nat.add_0_r. }
  set (w3 := _send (AnswerMsg t (taskText (runner w2)) (res_answer res) pj) w2).
  set (w4 := if Js.truthy (res_answer res)
             then _log t (Js.slice_to 2500 (res_answer res)) (_log t "ANSWER (top):" w3)
             else w3).
  assert (Hr4 : runner w4 = r1).
  { unfold w4. destruct (Js.truthy (res_answer res)); rewrite ?runner_log;
      unfold w3; rewrite runner_send; exact Hr2. }
  assert (Hw4 : win w4 = win w).
  { unfold w4, _log. destruct (Js.truthy (res_answer res)); rewrite ?win_send;
      unfold w3; rewrite win_send; exact Hw2. }
  assert (Hi4 : inflight w4 = inflight w).
  { unfold w4. destruct (Js.truthy (res_answer res)); rewrite ?inflight_log;
      unfold w3; rewrite inflight_send; exact Hi2. }
  assert (He4 : forall p, (forall s, p (Send (StepMsg s)) = false) ->
                  (forall t' l, p (Send (LogLine t' l)) = false) ->
                  emitted p w4
                  = (emitted p w
                     + b2n (win w && p (Send (AnswerMsg t (taskText (runner w2))
                                                (res_answer res) pj))))%nat).
  { intros p Hp Hl. unfold w4.
    destruct (Js.truthy (res_answer res)); rewrite ?emitted_log by exact Hl;
      unfold w3; rewrite emitted_send, He2, Hw2 by exact Hp; reflexivity. }
  set (w6 := _setState (on_runner (fun r => set_paused false (set_running false r)) w4)).
  assert (Hr6 : runner w6 = r2).
  { unfold w6. rewrite runner_setState. cbn [runner on_runner]. now rewrite Hr4. }
  assert (Hw6 : win w6 = win w) by (unfold w6; rewrite win_setState; exact Hw4).
  assert (Hi6 : inflight w6 = inflight w) by (unfold w6; rewrite inflight_setState; exact Hi4).
  assert (He6 : forall p, (forall s, p (Send (StepMsg s)) = false) ->
                  (forall t' l, p (Send (LogLine t' l)) = false) ->
                  (forall s, p (Send (StateMsg s)) = false) ->
                  emitted p w6
                  = (emitted p w
                     + b2n (win w && p (Send (AnswerMsg t (taskText (runner w2))
                                                (res_answer res) pj))))%nat).
  { intros p Hp Hl Hst. unfold w6. rewrite emitted_setState by exact Hst.
    rewrite emitted_on_runner. apply He4; assumption. }
  set (report := done_report_text (taskText (runner w6)) pj (res_answer res)).
  rewrite runner_send, inflight_send, !emitted_send.
  cbn [runner on_runner inflight win]. rewrite !emitted_on_runner, Hr6, Hw6, Hi6.
  rewrite (He6 is_stop_report), (He6 is_answer), (He6 is_report_msg) by reflexivity.
  cbn [is_stop_report is_answer is_report_msg]. rewrite !andb_false_r, !andb_true_r.
  cbn [b2n]. unfold report. rewrite Hr6.
  split; [reflexivity|]. repeat split; lia.
Qed.

(** [settle] on a failure while no stop is requested. *)
Lemma settle_failure (t : Z) (o : Outcome) (w : World) :
  stopRequested (runner w) = false -> succeeded o = false ->
  exists next,
    settle t o w = finish_failed t (failure_error o) next w
    /\ Js.truthy next = true.
Proof.
  intros Hs Ho. unfold settle. rewrite Hs. destruct o as [[res|]|msg]; cbn in Ho |- *.
  - rewrite Ho. eexists. split; reflexivity.
  - eexists. split; reflexivity.
  - eexists. split; reflexivity.
Qed.

(** The three branches of the completion handler, taken together. *)
Lemma settle_spec (t : Z) (o : Outcome) (w : World) :
  running (runner (settle t o w)) = false
  /\ paused (runner (settle t o w)) = false
  /\ taskText (runner (settle t o w)) = taskText (runner w)
  /\ stopRequested (runner (settle t o w)) = stopRequested (runner w)
  /\ emitted is_report_msg (settle t o w) = (emitted is_report_msg w + b2n (win w))%nat
  /\ inflight (settle t o w) = inflight w.
Proof.
  destruct (stopRequested (runner w)) eqn:Hs.
  - assert (Hi : inflight (settle t o w) = inflight w).
    { unfold settle. rewrite Hs. destruct o; rewrite finish_stopped_inflight;
        [apply inflight_log | reflexivity]. }
    destruct (settle_after_stop t o w Hs) as (_ & H2 & _ & H4).
    rewrite H4, H2, Hi. cbn. repeat split. exact Hs.
  - destruct (succeeded o) eqn:Ho.
    + destruct o as [[res|]|msg]; try discriminate Ho. cbn in Ho.
      destruct (settle_success t res w Hs Ho) as (Hr & _ & _ & Hm & Hi).
      rewrite Hr, Hm, Hi. repeat split. cbn. exact Hs.
    + destruct (settle_failure t o w Hs Ho) as (next & Heq & _). rewrite Heq.
      destruct (finish_failed_spec t (failure_error o) next w) as (_ & Hm & _ & Hi & Hr).
      rewrite Hr, Hm, Hi. repeat split. cbn. exact Hs.
Qed.

(** X12.  Whatever the outcome and whatever the state, the completion
    handler ends the run: [running] and [paused] are cleared, the task text
    and the stop request are kept, and exactly one report message goes to
    the window (none if there is no window). *)
Theorem settle_ends_run (t : Z) (o : Outcome) (w : World) :
  running (runner (settle t o w)) = false
  /\ paused (runner (settle t o w)) = false
  /\ taskText (runner (settle t o w)) = taskText (runner w)
  /\ stopRequested (runner (settle t o w)) = stopRequested (runner w)
  /\ emitted is_report_msg (settle t o w) = (emitted is_report_msg w + b2n (win w))%nat
  /\ inflight (settle t o w) = inflight w.
Proof. exact (settle_spec t o w). Qed.

(** X13.  With no stop requested, a failed call (no result object, a result
    without [ok], or an exception) records the error text of the result, or
    RUN_FAILED, or the exception message, or EXCEPTION when these are empty,
    sets a suggested next action, shows exactly one stop report and sends no
    answer; the steps and the proof path are left as they were. *)
Theorem settle_failure_reported (t : Z) (o : Outcome) (w : World) :
  stopRequested (runner w) = false ->
  succeeded o = false ->
  error (runner (settle t o w)) = failure_error o
  /\ Js.truthy (error (runner (settle t o w))) = true
  /\ Js.truthy (nextAction (runner (settle t o w))) = true
  /\ steps (runner (settle t o w)) = steps (runner w)
  /\ proofJsonPath (runner (settle t o w)) = proofJsonPath (runner w)
  /\ emitted is_stop_report (settle t o w) = S (emitted is_stop_report w)
  /\ emitted is_answer (settle t o w) = emitted is_answer w.
Proof.
  intros Hs Ho. destruct (settle_failure t o w Hs Ho) as (next & Heq & Hnext). rewrite Heq.
  destruct (finish_failed_spec t (failure_error o) next w) as (H1 & _ & H3 & _ & Hr).
  rewrite Hr, H1, H3. cbn. repeat split; [|exact Hnext].
  destruct o as [[res|]|msg]; cbn; first [reflexivity | apply or_else_truthy; reflexivity].
Qed.

(** X14.  With no stop requested, a successful result records its proof
    path, appends exactly one "Answer ready" step, sends exactly one answer
    (carrying the current task text) and one completion report, shows no
    stop report, and leaves [error] and [nextAction] as they were. *)
Theorem settle_success_reported (t : Z) (res : TaskResult) (w : World) :
  stopRequested (runner w) = false ->
  res_ok res = true ->
  proofJsonPath (runner (settle t (Resolved (Some res)) w)) = res_proofJsonPath res
  /\ (exists s, steps (runner (settle t (Resolved (Some res)) w)) = (steps (runner w) ++ [s])%list
                /\ title s = "Answer ready" /\ status s = "ok")
  /\ error (runner (settle t (Resolved (Some res)) w)) = error (runner w)
  /\ nextAction (runner (settle t (Resolved (Some res)) w)) = nextAction (runner w)
  /\ lastReport (runner (settle t (Resolved (Some res)) w))
     = done_report_text (taskText (runner w)) (res_proofJsonPath res) (res_answer res)
  /\ emitted is_answer (settle t (Resolved (Some res)) w)
     = (emitted is_answer w + b2n (win w))%nat
  /\ emitted is_stop_report (settle t (Resolved (Some res)) w) = emitted is_stop_report w.
Proof.
  intros Hs Hok. destruct (settle_success t res w Hs Hok) as (Hr & H1 & H2 & _ & _).
  rewrite Hr, H1, H2. cbn. rewrite !or_else_empty.
  repeat split. eexists. repeat split.
Qed.


Lemma start_accepted (t : Z) (task apiKey : string) (w : World) :
  blank task = false -> blank apiKey = false -> running (runner w) = false ->
  fst (start t task apiKey w) = Ok
  /\ runner (snd (start t task apiKey w))
     = mkRunner true false false (Js.trim task)
         [mkStep t "Input received" "ok" "api_key_present=true"] "" "" "" ""
  /\ inflight (snd (start t task apiKey w)) = S (inflight w).
Proof.
  intros Ht Hk Hr. unfold blank in Ht, Hk. apply negb_false_iff in Ht, Hk.
  unfold start. cbv zeta. rewrite Ht, Hk, Hr. cbn [negb fst snd].
  split; [reflexivity|]. split.
  - cbn [runner set_inflight]. rewrite runner_setState, runner_pushStep, runner_log.
    reflexivity.
  - cbn [inflight set_inflight].
    now rewrite inflight_setState, inflight_pushStep, inflight_log.
Qed.

(** X15.  [runner.start] is accepted exactly when the trimmed task text and
    the trimmed credential are non-empty and no task is running.  An
    accepted start begins a fresh run: [running] set, [paused] and
    [stopRequested] cleared, the trimmed task text stored, the step list
    reset to the single step "Input received", the error, next action, last
    report and proof path emptied, and one more backend call in flight. *)
Theorem start_accepted_iff (t : Z) (task apiKey : string) (w : World) :
  (fst (start t task apiKey w) = Ok
   <-> blank task = false /\ blank apiKey = false /\ running (runner w) = false)
  /\ (fst (start t task apiKey w) = Ok ->
        runner (snd (start t task apiKey w))
        = mkRunner true false false (Js.trim task)
            [mkStep t "Input received" "ok" "api_key_present=true"] "" "" "" ""
        /\ inflight (snd (start t task apiKey w)) = S (inflight w)
        /\ ctl (snd (start t task apiKey w)) = ctl w).
Proof.
  assert (Hiff : fst (start t task apiKey w) = Ok
                 <-> blank task = false /\ blank apiKey = false
                     /\ running (runner w) = false).
  { split.
    - rewrite start_cases.
      destruct (blank task); [discriminate|]. destruct (blank apiKey); [discriminate|].
      destruct (running (runner w)); [discriminate|]. auto.
    - intros (Ht & Hk & Hr). apply start_accepted; assumption. }
  split; [exact Hiff|].
  intros Hok. apply Hiff in Hok. destruct Hok as (Ht & Hk & Hr).
  destruct (start_accepted t task apiKey w Ht Hk Hr) as (_ & H1 & H2).
  split; [exact H1|]. split; [exact H2 | apply ctl_start].
Qed.

Lemma resume_runner (t : Z) (w : World) :
  runner (snd (resume t w))
  = if running (runner w) then set_paused false (runner w) else runner w.
Proof.
  unfold resume, _setState, _log. destruct (running (runner w)); simpl; [|reflexivity].
  now rewrite !runner_send.
Qed.

Lemma inflight_resume (t : Z) (w : World) : inflight (snd (resume t w)) = inflight w.
Proof.
  unfold resume, _setState, _log. destruct (negb (running (runner w))); cbn [snd]; [reflexivity|].
  now rewrite !inflight_send.
Qed.

(** X16.  [pause] and [resume] on an idle runner answer NOT_RUNNING and
    change nothing.  On a running one, [pause] sets only the [paused] flag
    and [resume] clears it again; neither touches [running], the stop
    request, the steps or the call in flight, so pausing and resuming brings
    the runner back to where it was (unpaused). *)
Theorem pause_resume (t t' : Z) (w : World) :
  (running (runner w) = false ->
     pause t w = (Err "NOT_RUNNING", w) /\ resume t w = (Err "NOT_RUNNING", w))
  /\ (running (runner w) = true ->
        fst (pause t w) = Ok
        /\ runner (snd (pause t w)) = set_paused true (runner w)
        /\ fst (resume t' (snd (pause t w))) = Ok
        /\ runner (snd (resume t' (snd (pause t w)))) = set_paused false (runner w)
        /\ inflight (snd (resume t' (snd (pause t w)))) = inflight w
        /\ ctl (snd (resume t' (snd (pause t w)))) = ctl w).
Proof.
  split.
  - intros Hr. unfold pause, resume. rewrite Hr. split; reflexivity.
  - intros Hr.
    assert (Hp : runner (snd (pause t w)) = set_paused true (runner w)).
    { rewrite pause_runner, Hr. reflexivity. }
    split; [unfold pause; rewrite Hr; reflexivity|].
    split; [exact Hp|].
    split; [unfold resume; rewrite Hp; cbn [running set_paused]; rewrite Hr; reflexivity|].
    split; [rewrite resume_runner, Hp; cbn [running set_paused]; rewrite Hr; reflexivity|].
    split; [now rewrite inflight_resume, inflight_pause|].
    now rewrite ctl_resume, ctl_pause.
Qed.

(** X17.  [stop] always answers ok, on a running and on an idle runner
    alike: it sets [stopRequested], clears [running], records a non-empty
    error and next action, and shows exactly one stop report.  The first
    error and next action win: a second [stop], whatever its reason, keeps
    them and only shows one more stop report. *)
Theorem stop_keeps_first_error (t t' : Z) (reason reason' : string) (w : World) :
  let w1 := snd (stop t reason w) in
  let w2 := snd (stop t' reason' w1) in
  fst (stop t reason w) = Ok
  /\ running (runner w1) = false
  /\ stopRequested (runner w1) = true
  /\ Js.truthy (error (runner w1)) = true
  /\ emitted is_stop_report w1 = S (emitted is_stop_report w)
  /\ inflight w1 = inflight w
  /\ error (runner w2) = error (runner w1)
  /\ nextAction (runner w2) = nextAction (runner w1)
  /\ emitted is_stop_report w2 = S (emitted is_stop_report w1).
Proof.
  intros w1 w2. subst w1 w2.
  destruct (stop_emitted t reason w) as (E1 & _).
  destruct (stop_emitted t' reason' (snd (stop t reason w))) as (E2 & _).
  rewrite stop_reply, E2, E1, stop_inflight, !stop_runner.
  destruct (stopped_runner_facts reason (runner w)) as (F1 & F2 & F3 & F4 & _).
  split; [reflexivity|]. split; [exact F1|]. split; [exact F2|]. split; [exact F3|].
  split; [reflexivity|]. split; [reflexivity|].
  set (r1 := stopped_runner reason (runner w)) in *.
  unfold stopped_runner. cbv zeta. rewrite F1.
  cbn [error nextAction set_lastReport set_nextAction set_error set_stopRequested].
  rewrite !or_else_id by assumption. repeat split.
Qed.


Lemma emitted_set_inflight (p : Output -> bool) (n : nat) (w : World) :
  emitted p (set_inflight n w) = emitted p w.
Proof. reflexivity. Qed.

Lemma start_emitted (p : Output -> bool) (t : Z) (task apiKey : string) (w : World) :
  (forall s, p (Send (StepMsg s)) = false) ->
  (forall t' l, p (Send (LogLine t' l)) = false) ->
  (forall s, p (Send (StateMsg s)) = false) ->
  emitted p (snd (start t task apiKey w)) = emitted p w.
Proof.
  intros Hp Hl Hs. rewrite start_cases.
  destruct (blank task); [cbn [snd]; apply emitted_log, Hl|].
  destruct (blank apiKey); [cbn [snd]; apply emitted_log, Hl|].
  destruct (running (runner w)); [cbn [snd]; apply emitted_log, Hl|]. cbn [snd].
  unfold start. cbv zeta.
  destruct (negb (Js.truthy (Js.trim task))); [cbn [snd]; apply emitted_log, Hl|].
  destruct (negb (Js.truthy (Js.trim apiKey))); [cbn [snd]; apply emitted_log, Hl|].
  destruct (running (runner w)); [cbn [snd]; apply emitted_log, Hl|]. cbn [snd].
  rewrite emitted_set_inflight, emitted_setState by exact Hs. unfold _pushStep. cbv zeta.
  rewrite emitted_send, Hp, andb_false_r, emitted_on_runner, emitted_log by exact Hl.
  cbn [b2n]. rewrite ?emitted_on_runner. apply Nat.add_0_r.
Qed.

(** X18.  A result that arrives after [stop] and a new accepted [start] is
    not discarded: the new start has cleared [stopRequested], so the
    completion handler takes the success branch, sends an answer under the
    new task text and clears [running], while the number of calls in flight
    is back to what it was before the stop. *)
Theorem late_result_after_restart (e1 e2 e3 : Env) (reason task apiKey : string)
    (res : TaskResult) (w : World) :
  running (runner w) = true ->
  blank task = false -> blank apiKey = false ->
  res_ok res = true ->
  let w3 := run [(e1, IpcStop reason); (e2, IpcStart task apiKey);
                 (e3, TaskSettled (Resolved (Some res)))] w in
  running (runner w3) = false
  /\ stopRequested (runner w3) = false
  /\ taskText (runner w3) = Js.trim task
  /\ emitted is_answer w3 = (emitted is_answer w + b2n (win w))%nat
  /\ inflight w3 = inflight w.
Proof.
  intros Hrun Ht Hk Hok. cbn [run step].
  set (w1 := snd (stop (now e1) reason w)).
  assert (Hr1 : running (runner w1) = false).
  { unfold w1. rewrite stop_runner. apply stopped_runner_facts. }
  destruct (start_accepted (now e2) task apiKey w1 Ht Hk Hr1) as (_ & Hr2 & Hi2).
  set (w2 := snd (start (now e2) task apiKey w1)) in *.
  rewrite Hi2.
  assert (Hs2 : stopRequested (runner (set_inflight (inflight w1) w2)) = false).
  { cbn [runner set_inflight]. rewrite Hr2. reflexivity. }
  destruct (settle_success (now e3) res (set_inflight (inflight w1) w2) Hs2 Hok)
    as (Hr & _ & Ha & _ & Hi).
  rewrite Hr, Ha, Hi. cbn [runner set_inflight inflight win]. rewrite Hr2.
  split; [reflexivity|]. split; [reflexivity|]. split; [reflexivity|]. split.
  - rewrite emitted_set_inflight. unfold w2. rewrite start_emitted by reflexivity.
    unfold w1. destruct (stop_emitted (now e1) reason w) as (_ & E). rewrite E.
    f_equal. f_equal.
    rewrite (ctl_win _ _ (ctl_start (now e2) task apiKey _)).
    apply (ctl_win _ _ (ctl_stop (now e1) reason w)).
  - unfold w1. apply stop_inflight.
Qed.

Lemma arm_inflight (e : Env) (why : string) (w : World) :
  inflight (setAutopilotArmed e true why w) = inflight w.
Proof.
  unfold setAutopilotArmed, _setState. rewrite inflight_send, inflight_audit.
  set (w0 := on_ap (set_autopilotArmed true) w).
  change (negb (autopilotArmed (ap w0))) with false. cbv iota zeta.
  unfold startCursorWatch, stopCursorWatch. cbn [inflight on_ap].
  apply (hk_inflight _ _ (register_hotkey_step e
           (on_ap (set_lastCursor (Some (cursor e)))
              (on_ap (fun a => set_ignoreMouseUntil (autopilotArmedAt a + ARM_GRACE_MS) a)
                 (on_ap (set_autopilotArmedAt (now e)) w0))))).
Qed.

Lemma runner_ok_same (w w' : World) :
  runner w' = runner w -> inflight w' = inflight w -> runner_ok w -> runner_ok w'.
Proof. unfold runner_ok. intros -> ->. auto. Qed.

Lemma runner_ok_pause (t : Z) (w : World) : runner_ok w -> runner_ok (snd (pause t w)).
Proof.
  unfold runner_ok. rewrite pause_runner, inflight_pause. intros [H1 H2].
  destruct (running (runner w)) eqn:Hr; cbn; rewrite ?Hr; auto.
Qed.

Lemma runner_ok_resume (t : Z) (w : World) : runner_ok w -> runner_ok (snd (resume t w)).
Proof.
  unfold runner_ok. rewrite resume_runner, inflight_resume. intros [H1 H2].
  destruct (running (runner w)) eqn:Hr; cbn; rewrite ?Hr; auto.
Qed.

Lemma runner_ok_stop (t : Z) (reason : string) (w : World) :
  runner_ok w -> runner_ok (snd (stop t reason w)).
Proof.
  unfold runner_ok. rewrite stop_runner, stop_inflight. intros [H1 H2].
  destruct (stopped_runner_facts reason (runner w)) as (F1 & _ & _ & _ & _ & _ & _ & _ & F9).
  rewrite F1, F9. split; [|discriminate].
  destruct (running (runner w)) eqn:Hr; [discriminate|]. intros Hp. apply H1 in Hp. discriminate.
Qed.

Lemma runner_ok_start (t : Z) (task apiKey : string) (w : World) :
  runner_ok w -> runner_ok (snd (start t task apiKey w)).
Proof.
  intros Hw. destruct (blank task) eqn:Ht; [|destruct (blank apiKey) eqn:Hk;
    [|destruct (running (runner w)) eqn:Hr]].
  1-3: rewrite start_cases, Ht, ?Hk, ?Hr; cbn [snd];
    (apply (runner_ok_same w); [apply runner_log | apply inflight_log | exact Hw]).
  destruct (start_accepted t task apiKey w Ht Hk Hr) as (_ & H1 & H2).
  unfold runner_ok. rewrite H1, H2. cbn. split; [discriminate | lia].
Qed.

Lemma runner_ok_takeover (e : Env) (why : string) (w : World) :
  runner_ok w -> runner_ok (triggerManualTakeover e why w).
Proof.
  intros Hw. destruct (autopilotArmed (ap w)) eqn:Harmed.
  - destruct (takeover_spec e why w Harmed) as (_ & Hr & _).
    unfold runner_ok. rewrite Hr, takeover_inflight. destruct Hw as [H1 H2].
    destruct (running (runner w)) eqn:Hrun; cbn; rewrite ?Hrun; auto.
  - rewrite takeover_disarmed by exact Harmed. exact Hw.
Qed.

Lemma runner_ok_cursorTick (e : Env) (w : World) : runner_ok w -> runner_ok (cursorTick e w).
Proof.
  intros Hw. rewrite cursorTick_cases. cbv zeta.
  destruct (negb (autopilotArmed (ap w))); [exact Hw|].
  destruct (in_grace e w); [exact Hw|].
  destruct (lastCursor (ap w)) as [q|]; [|exact Hw].
  destruct (now e <? ignoreMouseUntil (ap w))%Z; [exact Hw|].
  destruct (MOUSE_DIST <=? manhattan (cursor e) q)%Z; [|exact Hw].
  apply runner_ok_takeover. exact Hw.
Qed.

Lemma runner_ok_arm (e : Env) (why : string) (w : World) :
  runner_ok w -> runner_ok (setAutopilotArmed e true why w).
Proof.
  apply (runner_ok_same w); [apply (arm_spec e why w) | apply arm_inflight].
Qed.

Lemma runner_ok_disarm (e : Env) (why : string) (w : World) :
  runner_ok w -> runner_ok (setAutopilotArmed e false why w).
Proof.
  destruct (disarm_spec e why w) as (_ & Hr & _ & _ & Hi & _).
  apply (runner_ok_same w); assumption.
Qed.

Lemma runner_ok_permRequest (t : Z) (c why : string) (resp : option Z) (w : World) :
  runner_ok w -> runner_ok (snd (permRequest t c why resp w)).
Proof.
  destruct (permRequest_frame t c why resp w) as (_ & Hr & _ & Hi & _).
  apply (runner_ok_same w); assumption.
Qed.

Lemma runner_ok_log (t : Z) (line : string) (w : World) : runner_ok w -> runner_ok (_log t line w).
Proof. apply (runner_ok_same w); [apply runner_log | apply inflight_log]. Qed.

Lemma step_runner_ok (e : Env) (ev : Event) (w : World) : runner_ok w -> runner_ok (step e ev w).
Proof.
  intros Hw. destruct ev; unfold step.
  - exact Hw.
  - destruct (trayArm_cases e resp w) as [[_ Heq] | [_ Heq]]; rewrite Heq;
      apply runner_ok_log; [apply runner_ok_arm|]; apply runner_ok_permRequest, Hw.
  - apply runner_ok_log, runner_ok_disarm, Hw.
  - exact Hw.
  - unfold trayPause.
    destruct (running (runner w) && negb (paused (runner w))); [apply runner_ok_pause, Hw|].
    destruct (running (runner w) && paused (runner w)); [apply runner_ok_resume, Hw | exact Hw].
  - apply runner_ok_stop, Hw.
  - unfold setStoredApiKey.
    destruct (negb (Js.truthy (Js.trim apiKey))); [|destruct (negb (can_encrypt e))]; exact Hw.
  - apply runner_ok_start, Hw.
  - apply runner_ok_pause, Hw.
  - apply runner_ok_resume, Hw.
  - apply runner_ok_stop, Hw.
  - exact Hw.
  - destruct (ipcArm_cases e why resp w) as [[_ Heq] | [_ Heq]]; rewrite Heq;
      [apply runner_ok_arm|]; apply runner_ok_permRequest, Hw.
  - apply runner_ok_disarm, Hw.
  - unfold setInjectedIgnoreWindow. destruct (0 <? ms)%Z; exact Hw.
  - apply runner_ok_permRequest, Hw.
  - destruct (Js.truthy (registeredHotkey (ap w))); [|exact Hw].
    unfold hotkeyFired. destruct (autopilotArmed (ap w)); [apply runner_ok_takeover, Hw | exact Hw].
  - destruct (cursorTimer (ap w)); [apply runner_ok_cursorTick, Hw | exact Hw].
  - destruct (inflight w); [exact Hw | apply runner_ok_log, Hw].
  - destruct (inflight w) eqn:Hi; [exact Hw|].
    revert Hw. unfold runner_ok. rewrite runner_pushStep, inflight_pushStep, Hi. cbn. auto.
  - destruct (inflight w) as [|n]; [exact Hw|].
    destruct (settle_spec (now e) o (set_inflight n w)) as (H1 & H2 & _).
    unfold runner_ok. rewrite H1, H2. split; discriminate.
Qed.

(** X19.  In every world reachable from the initial one, [paused] is set
    only while [running] is set, and while [running] is set at least one
    backend call is in flight. *)
Theorem runner_consistent (d : Disk) (evs : list (Env * Event)) :
  let w := run evs (initial_world d) in
  (paused (runner w) = true -> running (runner w) = true)
  /\ (running (runner w) = true -> (0 < inflight w)%nat).
Proof.
  assert (H : forall w, runner_ok w -> runner_ok (run evs w)).
  { induction evs as [|[e ev] evs IH]; intros w Hw; simpl; [exact Hw|].
    apply IH, step_runner_ok, Hw. }
  apply (H (initial_world d)). split; discriminate.
Qed.

Lemma slice_last_app {A : Type} (older recent : list A) :
  Js.slice_last (length recent) (older ++ recent) = recent.
Proof.
  unfold Js.slice_last. rewrite length_app.
  replace (length older + length recent - length recent)%nat with (length older) by lia.
  rewrite List.skipn_app, List.skipn_all, Nat.sub_diag. reflexivity.
Qed.

Lemma slice_last_all {A : Type} (l : list A) : Js.slice_last (length l) l = l.
Proof. apply (slice_last_app [] l). Qed.

(** X20.  The stop report lists the five most recent steps only: when five
    or more steps were recorded, the text of the report does not depend on
    any step before the last five. *)
Theorem stop_report_last_five (reason : string) (r : Runner) (older recent : list Step) :
  length recent = 5%nat ->
  stop_report_text reason (set_steps (older ++ recent) r)
  = stop_report_text reason (set_steps recent r).
Proof.
  intros Hlen. unfold stop_report_text.
  cbn [taskText steps error nextAction proofJsonPath set_steps].
  rewrite <- Hlen, slice_last_app, slice_last_all. reflexivity.
Qed.

(** X21.  What [permRequest] saves after its message box is the
    configuration it loaded before, with at most the entry of its own key
    changed.  So when no decision was persisted while the box was open (the
    file still holds what the call loaded), every other entry is left as it
    was, no entry is removed, and the own entry is untouched or set to
    "allow" or "deny"; but an entry that another call persisted meanwhile,
    and that the loaded configuration lacks, is gone after an answer other
    than Allow Once. *)
Theorem permRequest_own_key (t : Z) (p : Prompt) (resp : option Z) (w : World) :
  (p_cfg p = loadCfg w ->
     (forall k, k <> p_key p ->
        loadCfg (snd (permRequest_resume t p resp w)) !! k = loadCfg w !! k)
     /\ (forall k, is_Some (loadCfg w !! k) ->
           is_Some (loadCfg (snd (permRequest_resume t p resp w)) !! k))
     /\ (loadCfg (snd (permRequest_resume t p resp w)) !! p_key p = loadCfg w !! p_key p
         \/ loadCfg (snd (permRequest_resume t p resp w)) !! p_key p = Some "allow"
         \/ loadCfg (snd (permRequest_resume t p resp w)) !! p_key p = Some "deny"))
  /\ (forall k, k <> p_key p -> answer resp <> 1 -> p_cfg p !! k = None ->
        loadCfg (snd (permRequest_resume t p resp w)) !! k = None).
Proof.
  rewrite resume_cfg. split.
  - intros Hsame. destruct (answer resp =? 1)%Z; [split; [|split]; auto|].
    rewrite Hsame. split; [|split].
    + intros k Hk. apply set_permission_ne. congruence.
    + intros k Hk. apply set_permission_some, Hk.
    + destruct (decide (p_key p = "__proto__")) as [E|E].
      * unfold set_permission. rewrite decide_True by exact E.
        destruct (loadCfg w !! p_key p) eqn:Hcur; [|left; exact Hcur].
        right. rewrite lookup_insert_eq.
        destruct (answer resp =? 2)%Z; [left | right]; reflexivity.
      * right. rewrite set_permission_eq by exact E.
        destruct (answer resp =? 2)%Z; [left | right]; reflexivity.
  - intros k Hk H1 Hnone. apply Z.eqb_neq in H1. rewrite H1.
    rewrite set_permission_ne by congruence. exact Hnone.
Qed.


(** X22.  The tray's PAUSE item toggles: on an idle runner it does nothing;
    on a running one it sets [paused] when clear and clears it when set, so
    two clicks bring the runner back to where it was; it never touches
    [running] or the call in flight. *)
Theorem trayPause_toggles (e e' : Env) (w : World) :
  (running (runner w) = false -> trayPause e w = w)
  /\ (running (runner w) = true ->
        runner (trayPause e w) = set_paused (negb (paused (runner w))) (runner w)
        /\ runner (trayPause e' (trayPause e w)) = runner w
        /\ inflight (trayPause e' (trayPause e w)) = inflight w).
Proof.
  split.
  - intros Hr. unfold trayPause. rewrite Hr. reflexivity.
  - intros Hr.
    assert (H1 : forall e0 w0, running (runner w0) = true ->
               runner (trayPause e0 w0) = set_paused (negb (paused (runner w0))) (runner w0)
               /\ inflight (trayPause e0 w0) = inflight w0).
    { intros e0 w0 Hr0. unfold trayPause. rewrite Hr0.
      destruct (paused (runner w0)); cbn [andb negb].
      - rewrite resume_runner, inflight_resume, Hr0. split; reflexivity.
      - rewrite pause_runner, inflight_pause, Hr0. split; reflexivity. }
    destruct (H1 e w Hr) as [Ha Hb].
    assert (Hr' : running (runner (trayPause e w)) = true) by (rewrite Ha; exact Hr).
    destruct (H1 e' (trayPause e w) Hr') as [Hc Hd].
    split; [exact Ha|]. rewrite Hc, Hd, Ha, Hb. split; [|reflexivity].
    destruct (runner w) as [rn pa sr tt st er na lr pj]. cbn. destruct pa; reflexivity.
Qed.

Lemma takeover_line_not_pause (why : string) :
  String.eqb "PAUSE requested (note: API call cannot be paused in V1)." (takeover_line why)
  = false.
Proof. reflexivity. Qed.

(** X23.  A takeover on an armed autopilot writes its "MANUAL TAKEOVER ->
    PAUSE (why)" line to the window twice (once through [runner._log], once
    through [runner._send]); on a disarmed one it writes nothing. *)
Theorem takeover_logs_twice (e : Env) (why : string) (w : World) :
  emitted (is_takeover_line why) (triggerManualTakeover e why w)
  = (emitted (is_takeover_line why) w
     + (if autopilotArmed (ap w) && win w then 2 else 0))%nat.
Proof.
  destruct (autopilotArmed (ap w)) eqn:Harmed;
    [|rewrite takeover_disarmed by exact Harmed; cbn; lia].
  unfold triggerManualTakeover. rewrite Harmed. cbn [negb andb]. cbv zeta.
  set (w2 := audit (now e) "MANUAL_TAKEOVER" (JObj [("why", JStr why)])
               (on_ap (set_manualOverride true) w)).
  set (w3 := setAutopilotArmed e false "manual_takeover" w2).
  assert (He3 : emitted (is_takeover_line why) w3 = emitted (is_takeover_line why) w).
  { unfold w3. rewrite emitted_setAutopilotArmed by reflexivity. reflexivity. }
  assert (Hw3 : win w3 = win w) by (apply (disarm_spec e "manual_takeover" w2)).
  set (w4 := snd (pause (now e) w3)).
  assert (He4 : emitted (is_takeover_line why) w4 = emitted (is_takeover_line why) w).
  { unfold w4, pause. destruct (negb (running (runner w3))); cbn [snd]; [exact He3|].
    rewrite emitted_setState by reflexivity. unfold _log.
    rewrite emitted_send. cbn [is_takeover_line].
    rewrite takeover_line_not_pause, andb_false_r, emitted_on_runner, He3. cbn. lia. }
  assert (Hw4 : win w4 = win w).
  { unfold w4. rewrite (ctl_win _ _ (ctl_pause (now e) w3)). exact Hw3. }
  unfold _log. rewrite !emitted_send, !win_send, Hw4, He4.
  cbn [is_takeover_line]. rewrite String.eqb_refl, andb_false_r, !andb_true_r.
  destruct (win w); cbn; lia.
Qed.


(** ** The answer given at once *)

(** A call of [permRequest] whose message box, the newest one, is answered
    in the next turn at the same clock reading is the call of [step] that
    takes the answer as an argument. *)
Lemma ask_then_answer (e : Env) (k : Caller) (c why : string) (resp : option Z)
    (s : Session) :
  turn e (BoxAnswered (length (waiting s)) resp) (ask e k c why s)
  = mkSession (resumed e k (fst (permRequest (now e) c why resp (world s)))
                 (snd (permRequest (now e) c why resp (world s))))
      (waiting s).
Proof.
  unfold ask, permRequest, turn.
  destruct (permRequest_begin c why (world s)) as [[r|p] w']; cbn [world waiting fst snd].
  - rewrite lookup_ge_None_2 by lia. reflexivity.
  - rewrite (list_lookup_middle (waiting s) [] (p, k) (length (waiting s)) eq_refl).
    destruct (permRequest_resume (now e) p resp w') as [r w'']. cbn [fst snd].
    rewrite (delete_middle (waiting s) [] (p, k)), app_nil_r. reflexivity.
Qed.

Lemma callback_answers_at_once (e : Env) (resp : option Z) (s : Session) :
  turn e (Callback (TrayArm resp)) s
  = turn e (BoxAnswered (length (waiting s)) resp) (turn e TrayArmClick s)
  /\ (forall why,
        turn e (Callback (IpcArm why resp)) s
        = turn e (BoxAnswered (length (waiting s)) resp) (turn e (IpcArmCall why) s))
  /\ (forall c why,
        turn e (Callback (IpcPermRequest c why resp)) s
        = turn e (BoxAnswered (length (waiting s)) resp) (turn e (IpcPermCall c why) s)).
Proof.
  split; [|split]; intros.
  - change (turn e TrayArmClick s) with (ask e ByTray "os_control" tray_why s).
    rewrite ask_then_answer. cbn [turn step resumed]. unfold trayArm.
    destruct (permRequest (now e) "os_control" tray_why resp (world s)). reflexivity.
  - change (turn e (IpcArmCall why) s)
      with (ask e (ByIpcArm why) "os_control" (Js.or_else why "IPC request") s).
    rewrite ask_then_answer. cbn [turn step resumed]. unfold ipcArm.
    destruct (permRequest (now e) "os_control" (Js.or_else why "IPC request") resp
                (world s)). reflexivity.
  - change (turn e (IpcPermCall c why) s)
      with (ask e ByIpcPerm c (Js.or_else why "") s).
    rewrite ask_then_answer. reflexivity.
Qed.

End Jarvis.

(** ** Concrete runs *)

Example trim_example : Js.trim "  list files   " = "list files" /\ blank "   " = true.
Proof. split; reflexivity. Qed.

Example string_of_Z_example :
  Js.string_of_Z 1700000000123 = "1700000000123" /\ Js.string_of_Z 0 = "0".
Proof. split; reflexivity. Qed.

Example slice_last_example :
  Js.slice_last 5 [1; 2; 3; 4; 5; 6; 7] = [3; 4; 5; 6; 7]
  /\ Js.slice_last 5 [1; 2] = [1; 2].
Proof. split; reflexivity. Qed.

Example demo_armed_reached :
  step demo_digest demo_stringify (demo_env 1000 0 0) (TrayArm (Some 1)) demo_world
  = demo_armed.
Proof. vm_compute. reflexivity. Qed.

Example demo_running_reached :
  start 1000 "list files" "key" demo_world = (Ok, demo_running).
Proof. vm_compute. reflexivity. Qed.

Example demo_ops_log :
  List.map (fun r => (type r, data r, prev_hash r, hash r))
    (audit_log (appends demo_digest demo_stringify demo_ops (mkDisk ∅ [] None)))
  = [("APP_READY", JObj [], "", "h18");
     ("NOTE", JObj [("value", JStr "hello")], "h18", "h27");
     ("UNKNOWN", JObj [("armed", JBool true)], "h27", "h29")].
Proof. vm_compute. reflexivity. Qed.

Lemma audit_chain_valid_witness :
  exists p r,
    audit_log (appends demo_digest demo_stringify demo_ops (mkDisk ∅ [] None)) !! 1%nat = Some p
    /\ audit_log (appends demo_digest demo_stringify demo_ops (mkDisk ∅ [] None)) !! 2%nat
       = Some r
    /\ prev_hash r = hash p.
Proof.
  eexists _, _. split; [vm_compute; reflexivity|]. split; [vm_compute; reflexivity|].
  apply (proj1 (proj2 (proj2 (audit_chain_valid demo_digest demo_stringify ∅ demo_ops)))
           1%nat); vm_compute; reflexivity.
Defined.

(** Counterexample to C1 as stated.  A task is started, STOP is pressed while
    it runs, and the task then resolves successfully: STOP shows one stop
    report, and the late result makes the runner show a second one (and send
    a second report message). *)
Lemma late_result_reports_again :
  running (runner (run demo_digest demo_stringify
                     [(demo_env 1000 0 0, IpcStart "list files" "key")] demo_world)) = true
  /\ emitted is_stop_report
       (run demo_digest demo_stringify
          [(demo_env 1000 0 0, IpcStart "list files" "key");
           (demo_env 2000 0 0, IpcStop "")] demo_world) = 1%nat
  /\ emitted is_stop_report
       (run demo_digest demo_stringify
          [(demo_env 1000 0 0, IpcStart "list files" "key");
           (demo_env 2000 0 0, IpcStop "");
           (demo_env 3000 0 0, TaskSettled (Resolved (Some (mkTaskResult true "" "done" ""))))]
          demo_world) = 2%nat
  /\ emitted is_report_msg
       (run demo_digest demo_stringify
          [(demo_env 1000 0 0, IpcStart "list files" "key");
           (demo_env 2000 0 0, IpcStop "");
           (demo_env 3000 0 0, TaskSettled (Resolved (Some (mkTaskResult true "" "done" ""))))]
          demo_world) = 2%nat.
Proof. vm_compute. repeat split. Qed.

Lemma stop_then_late_result_witness :
  emitted is_stop_report (snd (stop 2000 "" demo_running))
  = S (emitted is_stop_report demo_running)
  /\ runner (settle 3000 (Threw "timeout") (snd (stop 2000 "" demo_running)))
     = runner (snd (stop 2000 "" demo_running)).
Proof.
  destruct (stop_then_late_result 2000 "" demo_running) as (_ & _ & H1 & _ & H2).
  - reflexivity.
  - split; [exact H1 | apply (H2 3000 (Threw "timeout"))].
Defined.

Lemma armed_only_by_grant_witness :
  exists why resp,
    (TrayArm (Some 1) = TrayArm resp /\ why = tray_why
     \/ exists why0, TrayArm (Some 1) = IpcArm why0 resp /\ why = Js.or_else why0 "IPC request")
    /\ decision (fst (permRequest demo_digest demo_stringify 1000 "os_control" why resp
                        demo_world)) = "allow".
Proof.
  apply (proj1 (armed_only_by_grant demo_digest demo_stringify (demo_env 1000 0 0)
                  (TrayArm (Some 1)) demo_world)).
  - reflexivity.
  - vm_compute. reflexivity.
Defined.

Lemma demo_undecided : undecided (perm_key "os_control") demo_world.
Proof. split; vm_compute; discriminate. Defined.

(** Counterexample to C5 as stated.  With "os_control": "allow" persisted, a
    request is served from the cache ([cached = true]) and the audit log,
    empty before the call, is still empty after it. *)
Lemma cached_request_not_audited :
  fst (permRequest demo_digest demo_stringify 1000 "os_control" "arm" None demo_world_allowed)
  = mkPermReply true "allow" true false
  /\ audit_log (disk demo_world_allowed) = []
  /\ audit_log (disk (snd (permRequest demo_digest demo_stringify 1000 "os_control" "arm"
                             None demo_world_allowed))) = [].
Proof. vm_compute. repeat split. Qed.

Lemma fresh_request_audited_witness :
  (exists r,
     audit_log (disk (snd (permRequest demo_digest demo_stringify 1000 "os_control" "arm"
                             (Some 1) demo_world)))
     = (audit_log (disk demo_world) ++ [r])%list
     /\ ts r = 1000 /\ type r = "PERMISSION_DECISION"
     /\ data r = JObj [("class", JStr (perm_key "os_control"));
                       ("decision",
                        JStr (decision (fst (permRequest demo_digest demo_stringify 1000
                                               "os_control" "arm" (Some 1) demo_world))));
                       ("mode", JStr (mode_of (Some 1)))]
     /\ cached (fst (permRequest demo_digest demo_stringify 1000 "os_control" "arm"
                       (Some 1) demo_world)) = false)
  /\ snd (permRequest demo_digest demo_stringify 1000 "os_control" "arm" None
            demo_world_allowed) = demo_world_allowed.
Proof.
  split.
  - apply (proj1 (fresh_request_audited demo_digest demo_stringify 1000 "os_control" "arm"
                    (Some 1) demo_world)), demo_undecided.
  - apply (proj2 (fresh_request_audited demo_digest demo_stringify 1000 "os_control" "arm"
                    None demo_world_allowed)).
    intros [H _]. vm_compute in H. apply H. reflexivity.
Defined.

Lemma poll_threshold_witness :
  tally is_takeover (cursorTick demo_digest demo_stringify (demo_env 3000 40 6) demo_armed)
  = S (tally is_takeover demo_armed)
  /\ cursorTick demo_digest demo_stringify (demo_env 3000 40 5) demo_armed
     = on_ap (set_lastCursor (Some (mkPoint 40 5))) demo_armed.
Proof.
  split.
  - apply (proj2 (poll_threshold demo_digest demo_stringify (demo_env 3000 40 6) demo_armed
                    eq_refl) (mkPoint 0 0)); [reflexivity | vm_compute; discriminate
                    | vm_compute; discriminate | vm_compute; discriminate].
  - apply (proj2 (poll_threshold demo_digest demo_stringify (demo_env 3000 40 5) demo_armed
                    eq_refl) (mkPoint 0 0)); [reflexivity | vm_compute; discriminate
                    | vm_compute; discriminate | vm_compute; discriminate].
Defined.

Lemma grace_no_takeover_witness :
  cursorTick demo_digest demo_stringify (demo_env 2499 900 900) demo_armed
  = on_ap (set_lastCursor (Some (mkPoint 900 900))) demo_armed.
Proof.
  apply (grace_no_takeover demo_digest demo_stringify (demo_env 2499 900 900) demo_armed).
  - reflexivity.
  - vm_compute. discriminate.
  - vm_compute. reflexivity.
Defined.

Lemma start_rejections_witness :
  fst (start 1000 "  " "key" demo_world) = Err "EMPTY_TASK"
  /\ fst (start 1000 "list files" " " demo_world) = Err "NO_API_KEY"
  /\ fst (start 2000 "more" "key" demo_running) = Err "ALREADY_RUNNING"
  /\ runner (snd (start 2000 "more" "key" demo_running)) = runner demo_running.
Proof.
  split; [|split; [|split]].
  - apply (start_rejections 1000 "  " "key" demo_world). reflexivity.
  - apply (start_rejections 1000 "list files" " " demo_world); reflexivity.
  - apply (start_rejections 2000 "more" "key" demo_running); reflexivity.
  - apply (start_rejections 2000 "more" "key" demo_running). vm_compute. discriminate.
Defined.

Lemma takeover_at_most_once_witness :
  triggerManualTakeover demo_digest demo_stringify (demo_env 3000 0 0) "SPACE" demo_world
  = demo_world
  /\ autopilotArmed
       (ap (triggerManualTakeover demo_digest demo_stringify (demo_env 3000 0 0) "SPACE"
              demo_armed)) = false
  /\ (tally is_takeover
        (run demo_digest demo_stringify
           [(demo_env 3000 0 0, HotkeyPressed); (demo_env 3090 200 0, CursorPoll);
            (demo_env 3100 0 0, HotkeyPressed)] demo_armed)
      <= tally is_takeover demo_armed + b2n (autopilotArmed (ap demo_armed)))%nat.
Proof.
  split; [|split].
  - apply (takeover_at_most_once demo_digest demo_stringify (demo_env 3000 0 0) "SPACE"
             demo_world). reflexivity.
  - apply (takeover_at_most_once demo_digest demo_stringify (demo_env 3000 0 0) "SPACE"
             demo_armed). reflexivity.
  - apply (takeover_at_most_once demo_digest demo_stringify (demo_env 3000 0 0) "SPACE"
             demo_armed).
    repeat constructor.
Defined.


(** ** Concrete runs of the whole-program properties *)

Example demo_session_log :
  List.map type (audit_log (disk (run demo_digest demo_stringify demo_session demo_world)))
  = ["APP_READY"; "PERMISSION_DECISION"; "AUTOPILOT_HOTKEY_REGISTERED";
     "AUTOPILOT_ARM_STATE"; "MANUAL_TAKEOVER"; "AUTOPILOT_HOTKEY_UNREGISTERED";
     "AUTOPILOT_ARM_STATE"; "AUTOPILOT_HOTKEY_REGISTERED"; "AUTOPILOT_ARM_STATE"].
Proof. vm_compute. reflexivity. Qed.

Lemma run_keeps_chain_witness :
  exists p r,
    audit_log (disk (run demo_digest demo_stringify demo_session
                       (initial_world (mkDisk ∅ [] None)))) !! 4%nat = Some p
    /\ audit_log (disk (run demo_digest demo_stringify demo_session
                          (initial_world (mkDisk ∅ [] None)))) !! 5%nat = Some r
    /\ prev_hash r = hash p.
Proof.
  eexists _, _. split; [vm_compute; reflexivity|]. split; [vm_compute; reflexivity|].
  apply (proj1 (proj2 (run_keeps_chain demo_digest demo_stringify ∅ demo_session)) 4%nat);
    vm_compute; reflexivity.
Defined.

Lemma run_keeps_records_witness :
  Forall record_ok (audit_log (disk (run demo_digest demo_stringify demo_session demo_world))).
Proof.
  apply (run_keeps_records demo_digest demo_stringify demo_session demo_world).
  constructor.
Defined.

Lemma autopilot_consistent_witness :
  lastCursor (ap (run demo_digest demo_stringify demo_session
                    (initial_world (mkDisk ∅ [] None)))) <> None.
Proof.
  apply (autopilot_consistent demo_digest demo_stringify (mkDisk ∅ [] None) demo_session).
  vm_compute. reflexivity.
Defined.

Lemma manual_override_sticky_witness :
  manualOverride
    (ap (run demo_digest demo_stringify [(demo_env 6000 0 0, TrayArm (Some 1))]
           (step demo_digest demo_stringify (demo_env 5000 0 0) HotkeyPressed demo_armed)))
  = true.
Proof.
  apply (manual_override_sticky demo_digest demo_stringify).
  vm_compute. reflexivity.
Defined.

Lemma denied_never_arms_witness :
  autopilotArmed
    (ap (world (turns demo_digest demo_stringify
                  [(demo_env 1000 0 0, TrayArmClick);
                   (demo_env 1100 0 0, IpcPermCall "files" "read");
                   (demo_env 1200 0 0, IpcArmCall "x");
                   (demo_env 2000 0 0, BoxAnswered 0 (Some 2));
                   (demo_env 3000 0 0, Callback (TrayArm (Some 2)))]
                  (mkSession demo_world_denied [])))) = false.
Proof.
  apply (denied_never_arms demo_digest demo_stringify); vm_compute; reflexivity.
Defined.

Lemma cached_allow_arms_witness :
  autopilotArmed
    (ap (step demo_digest demo_stringify (demo_env 1000 0 0) (TrayArm None) demo_world_allowed))
  = true.
Proof.
  destruct (cached_allow_arms demo_digest demo_stringify (demo_env 1000 0 0) "" None
              demo_world_allowed) as [[H _] _]; [reflexivity | exact H].
Defined.

Lemma hotkey_takeover_witness :
  tally is_takeover (step demo_digest demo_stringify (demo_env 1200 0 0) HotkeyPressed demo_armed)
  = S (tally is_takeover demo_armed).
Proof.
  apply (hotkey_takeover demo_digest demo_stringify (demo_env 1200 0 0) demo_armed);
    reflexivity.
Defined.

Lemma injected_ignore_window_witness :
  setInjectedIgnoreWindow demo_digest demo_stringify (demo_env 3000 0 0) 0 demo_armed
  = demo_armed
  /\ cursorTick demo_digest demo_stringify (demo_env 6999 500 500)
       (setInjectedIgnoreWindow demo_digest demo_stringify (demo_env 3000 0 0) 9000 demo_armed)
     = on_ap (set_lastCursor (Some (mkPoint 500 500)))
         (setInjectedIgnoreWindow demo_digest demo_stringify (demo_env 3000 0 0) 9000
            demo_armed).
Proof.
  split.
  - apply (proj1 (injected_ignore_window demo_digest demo_stringify (demo_env 3000 0 0)
                    (demo_env 0 0 0) 0 demo_armed)). vm_compute. discriminate.
  - apply (proj2 (injected_ignore_window demo_digest demo_stringify (demo_env 3000 0 0)
                    (demo_env 6999 500 500) 9000 demo_armed));
      [reflexivity | reflexivity | reflexivity].
Defined.

Lemma settle_failure_reported_witness :
  error (runner (settle 3000 (Threw "") demo_running)) = "EXCEPTION"
  /\ error (runner (settle 3000 (Resolved (Some (mkTaskResult false "HTTP 401" "" "")))
                      demo_running)) = "HTTP 401".
Proof.
  split.
  - apply (settle_failure_reported 3000 (Threw "") demo_running); reflexivity.
  - apply (settle_failure_reported 3000
             (Resolved (Some (mkTaskResult false "HTTP 401" "" ""))) demo_running);
      reflexivity.
Defined.

Lemma settle_success_reported_witness :
  proofJsonPath (runner (settle 3000 (Resolved (Some (mkTaskResult true "" "done" "p.json")))
                           demo_running)) = "p.json".
Proof.
  apply (settle_success_reported 3000 (mkTaskResult true "" "done" "p.json") demo_running);
    reflexivity.
Defined.

Lemma start_accepted_iff_witness :
  fst (start 1000 " list files " "key" demo_world) = Ok
  /\ inflight (snd (start 1000 " list files " "key" demo_world)) = 1%nat.
Proof.
  assert (H : fst (start 1000 " list files " "key" demo_world) = Ok).
  { apply (proj1 (start_accepted_iff 1000 " list files " "key" demo_world)).
    repeat split. }
  split; [exact H|].
  apply (proj2 (start_accepted_iff 1000 " list files " "key" demo_world) H).
Defined.

Lemma pause_resume_witness :
  pause 2000 demo_world = (Err "NOT_RUNNING", demo_world)
  /\ runner (snd (resume 2100 (snd (pause 2000 demo_running)))) = runner demo_running.
Proof.
  split.
  - apply (proj1 (pause_resume 2000 2100 demo_world)). reflexivity.
  - apply (proj2 (pause_resume 2000 2100 demo_running)). reflexivity.
Defined.

Lemma late_result_after_restart_witness :
  running
    (runner (run demo_digest demo_stringify
               [(demo_env 2000 0 0, IpcStop "");
                (demo_env 2500 0 0, IpcStart "second task" "key");
                (demo_env 3000 0 0,
                 TaskSettled (Resolved (Some (mkTaskResult true "" "first answer" ""))))]
               demo_running)) = false
  /\ inflight
       (run demo_digest demo_stringify
          [(demo_env 2000 0 0, IpcStop "");
           (demo_env 2500 0 0, IpcStart "second task" "key");
           (demo_env 3000 0 0,
            TaskSettled (Resolved (Some (mkTaskResult true "" "first answer" ""))))]
          demo_running) = 1%nat.
Proof.
  destruct (late_result_after_restart demo_digest demo_stringify
              (demo_env 2000 0 0) (demo_env 2500 0 0) (demo_env 3000 0 0)
              "" "second task" "key" (mkTaskResult true "" "first answer" "") demo_running)
    as (H1 & _ & _ & _ & H5); [reflexivity | reflexivity | reflexivity | reflexivity |].
  split; [exact H1 | exact H5].
Defined.

Lemma runner_consistent_witness :
  (0 < inflight (run demo_digest demo_stringify
                   [(demo_env 900 0 0, AppReady);
                    (demo_env 1000 0 0, IpcStart "list files" "key");
                    (demo_env 1500 0 0, IpcPause)]
                   (initial_world (mkDisk ∅ [] None))))%nat.
Proof.
  apply (runner_consistent demo_digest demo_stringify (mkDisk ∅ [] None)
           [(demo_env 900 0 0, AppReady);
            (demo_env 1000 0 0, IpcStart "list files" "key");
            (demo_env 1500 0 0, IpcPause)]).
  vm_compute. reflexivity.
Defined.

Lemma stop_report_last_five_witness :
  stop_report_text "why"
    (set_steps ([mkStep 0 "old" "ok" ""] ++ demo_steps) initial_runner)
  = stop_report_text "why" (set_steps demo_steps initial_runner).
Proof. apply (stop_report_last_five "why" initial_runner). reflexivity. Defined.

Lemma permRequest_own_key_witness :
  loadCfg (snd (permRequest_resume demo_digest demo_stringify 2000
                  (mkPrompt (loadCfg demo_world_allowed) "files") (Some 0)
                  demo_world_allowed)) !! "os_control"
  = loadCfg demo_world_allowed !! "os_control"
  /\ loadCfg (snd (permRequest_resume demo_digest demo_stringify 2000
                     (mkPrompt ∅ "files") (Some 0) demo_world_allowed)) !! "os_control"
     = None.
Proof.
  split.
  - apply (proj1 (permRequest_own_key demo_digest demo_stringify 2000
                    (mkPrompt (loadCfg demo_world_allowed) "files") (Some 0)
                    demo_world_allowed)); [reflexivity | vm_compute; discriminate].
  - apply (proj2 (permRequest_own_key demo_digest demo_stringify 2000
                    (mkPrompt ∅ "files") (Some 0) demo_world_allowed));
      [vm_compute; discriminate | vm_compute; discriminate | reflexivity].
Defined.

Lemma trayPause_toggles_witness :
  trayPause (demo_env 2000 0 0) demo_world = demo_world
  /\ runner (trayPause (demo_env 2100 0 0) (trayPause (demo_env 2000 0 0) demo_running))
     = runner demo_running.
Proof.
  split.
  - apply (proj1 (trayPause_toggles (demo_env 2000 0 0) (demo_env 2100 0 0) demo_world)).
    reflexivity.
  - apply (proj2 (trayPause_toggles (demo_env 2000 0 0) (demo_env 2100 0 0) demo_running)).
    reflexivity.
Defined.


(** ** Persisted decisions that are lost *)

(** C4 on the code: an ALWAYS ALLOW decision is not always kept.
    First, the class ["__proto__"]: the first request, answered ALWAYS ALLOW,
    returns allow and audits mode "always", but the assignment stores
    nothing, so the next request shows a second message box and returns what
    that box is answered (here DENY), with [cached = false].
    Second, two boxes open at once: the request for "files" and the tray's
    request for "os_control" both load the empty configuration; "files" is
    answered ALWAYS ALLOW and is persisted; then the tray's box is answered
    ALWAYS ALLOW and saves the configuration it loaded, in which "files" is
    absent; the next request for "files" shows a message box again. *)
Theorem always_allow_not_kept :
  (fst (permRequest demo_digest demo_stringify 1000 "__proto__" "" (Some 2) demo_world)
   = mkPermReply true "allow" false false
   /\ loadCfg (snd (permRequest demo_digest demo_stringify 1000 "__proto__" "" (Some 2)
                      demo_world)) !! "__proto__" = None
   /\ fst (permRequest demo_digest demo_stringify 2000 "__proto__" "" (Some 0)
             (snd (permRequest demo_digest demo_stringify 1000 "__proto__" "" (Some 2)
                     demo_world)))
      = mkPermReply true "deny" false false
   /\ emitted is_prompt
        (snd (permRequest demo_digest demo_stringify 2000 "__proto__" "" (Some 0)
                (snd (permRequest demo_digest demo_stringify 1000 "__proto__" "" (Some 2)
                        demo_world)))) = 2%nat)
  /\ (loadCfg (world (turns demo_digest demo_stringify (demo_overlap (Some 2))
                        (mkSession demo_world []))) !! "files" = Some "allow"
      /\ loadCfg (world (turns demo_digest demo_stringify (demo_overlap_done (Some 2))
                           (mkSession demo_world []))) !! "files" = None
      /\ fst (permRequest demo_digest demo_stringify 4000 "files" "" (Some 0)
                (world (turns demo_digest demo_stringify (demo_overlap_done (Some 2))
                          (mkSession demo_world []))))
         = mkPermReply true "deny" false false
      /\ emitted is_prompt
           (snd (permRequest demo_digest demo_stringify 4000 "files" "" (Some 0)
                   (world (turns demo_digest demo_stringify (demo_overlap_done (Some 2))
                             (mkSession demo_world [])))))
         = S (emitted is_prompt
                (world (turns demo_digest demo_stringify (demo_overlap_done (Some 2))
                          (mkSession demo_world []))))).
Proof. vm_compute. repeat split. Qed.

(** C9 on the code: a DENY is not always permanent.
    First, the class ["__proto__"]: the request answered DENY returns deny,
    audits mode "always" and stores nothing, so the next request shows a
    second message box and, answered ALLOW ONCE, returns allow.
    Second, two boxes open at once: "files" is answered DENY and the denial
    is persisted; then the tray's box is answered ALWAYS ALLOW and saves the
    configuration it loaded, without the denial; the next request for
    "files" shows a message box and, answered ALLOW ONCE, returns allow. *)
Theorem deny_not_kept :
  (fst (permRequest demo_digest demo_stringify 1000 "__proto__" "" (Some 0) demo_world)
   = mkPermReply true "deny" false false
   /\ loadCfg (snd (permRequest demo_digest demo_stringify 1000 "__proto__" "" (Some 0)
                      demo_world)) !! "__proto__" = None
   /\ fst (permRequest demo_digest demo_stringify 2000 "__proto__" "" (Some 1)
             (snd (permRequest demo_digest demo_stringify 1000 "__proto__" "" (Some 0)
                     demo_world)))
      = mkPermReply true "allow" false true
   /\ emitted is_prompt
        (snd (permRequest demo_digest demo_stringify 2000 "__proto__" "" (Some 1)
                (snd (permRequest demo_digest demo_stringify 1000 "__proto__" "" (Some 0)
                        demo_world)))) = 2%nat)
  /\ (loadCfg (world (turns demo_digest demo_stringify (demo_overlap None)
                        (mkSession demo_world []))) !! "files" = Some "deny"
      /\ loadCfg (world (turns demo_digest demo_stringify (demo_overlap_done None)
                           (mkSession demo_world []))) !! "files" = None
      /\ fst (permRequest demo_digest demo_stringify 4000 "files" "" (Some 1)
                (world (turns demo_digest demo_stringify (demo_overlap_done None)
                          (mkSession demo_world []))))
         = mkPermReply true "allow" false true
      /\ emitted is_prompt
           (snd (permRequest demo_digest demo_stringify 4000 "files" "" (Some 1)
                   (world (turns demo_digest demo_stringify (demo_overlap_done None)
                             (mkSession demo_world [])))))
         = S (emitted is_prompt
                (world (turns demo_digest demo_stringify (demo_overlap_done None)
                          (mkSession demo_world []))))).
Proof. vm_compute. repeat split. Qed.

(** ** Blank input beyond ASCII *)

(** A task text of one no-break space (U+00A0) is blank, and so is a key of
    an ideographic space and a byte-order mark (U+3000, U+FEFF). *)
Example start_unicode_blank :
  fst (start 1000 (String (ascii_of_nat 194) (String (ascii_of_nat 160) "")) "key"
         demo_world) = Err "EMPTY_TASK"
  /\ fst (start 1000 "list files"
            (String (ascii_of_nat 227) (String (ascii_of_nat 128) (String (ascii_of_nat 128)
               (String (ascii_of_nat 239) (String (ascii_of_nat 187)
                  (String (ascii_of_nat 191) ""))))))
            demo_world) = Err "NO_API_KEY".
Proof. vm_compute. split; reflexivity. Qed.
